(** * The website-generation workflow: intent routing, retry with key
    rotation, page extraction, the UI selection cache, the LangGraph
    wiring and the streaming callbacks.

    A shallow embedding of
      - src/index.ts (the streaming, patch, modify and upload endpoints;
        second document: intent-router-node),
      - src/agents/langgraph/nodes/blueprint-node.ts (blueprint node,
        chat-response node, website graph),
      - src/unnamed/part_000 (UIService, modification service),
      - src/models/project.ts and src/scripts/normalize-december-projects.ts,
    followed by the properties the specification states about them and
    further properties of the code. *)

From Stdlib Require Import ZArith Lia Bool Ascii String.
From stdpp Require Import base option list gmap strings pretty.

Local Open Scope string_scope.
Local Set Warnings "-register-all".

(** ** JavaScript values the code manipulates *)

Module Js.

(** A thrown value, seen through the one property the handlers read
    ([error.message], [error?.message]). *)
Record JsError := { message : option string }.

Definition TypeError (m : string) : JsError := {| message := Some m |}.

(** The result of [JSON.parse] and the [any] values of the code. *)
Inductive Json :=
| JNull
| JBool (b : bool)
| JNum (n : Z)
| JStr (s : string)
| JArr (items : list Json)
| JObj (fields : list (string * Json)).

Definition doubleQuote : ascii := ascii_of_nat 34.
Definition lineFeed : ascii := ascii_of_nat 10.

(** Text is held as the bytes of its UTF-8 encoding, so a character
    outside ASCII is a run of two to four bytes, none of them below 128. *)

(** [String.prototype.toLowerCase].  The letters A-Z are lowered, and so
    are the two characters outside ASCII that JavaScript lowers into
    ASCII letters: U+0130 becomes [i] followed by U+0307, and U+212A
    becomes [k].  Every other letter outside ASCII is lowered by
    JavaScript to text outside ASCII again; the code only ever looks
    for ASCII words in lowered text, and the model leaves such a letter
    as it is. *)
Definition lowerAscii (c : ascii) : ascii :=
  let n := nat_of_ascii c in
  if (65 <=? n)%nat && (n <=? 90)%nat then ascii_of_nat (n + 32) else c.

Definition isByte (n : nat) (c : ascii) : bool := (nat_of_ascii c =? n)%nat.

Fixpoint toLowerCase (s : string) : string :=
  match s with
  | EmptyString => EmptyString
  | String a s1 =>
      match s1 with
      | String b s2 =>
          if isByte 196 a && isByte 176 b then                 (* U+0130 *)
            String "i" (String (ascii_of_nat 204) (String (ascii_of_nat 135)
              (toLowerCase s2)))
          else
            match s2 with
            | String c s3 =>
                if isByte 226 a && isByte 132 b && isByte 170 c  (* U+212A *)
                then String "k" (toLowerCase s3)
                else String (lowerAscii a) (toLowerCase s1)
            | EmptyString => String (lowerAscii a) (toLowerCase s1)
            end
      | EmptyString => String (lowerAscii a) EmptyString
      end
  end.

(** The white space of [String.prototype.trim] and of [\s]: TAB, LF,
    VT, FF, CR and SPACE within ASCII; outside it U+00A0, U+1680,
    U+2000 to U+200A, U+2028, U+2029, U+202F, U+205F, U+3000 and
    U+FEFF, by their encodings of two and three bytes. *)
Definition isWhiteSpace (c : ascii) : bool :=
  let n := nat_of_ascii c in
  ((9 <=? n)%nat && (n <=? 13)%nat) || (n =? 32)%nat.

Definition isWhiteSpace2 (a b : ascii) : bool :=
  isByte 194 a && isByte 160 b.

Definition isWhiteSpace3 (a b c : ascii) : bool :=
  let z := nat_of_ascii c in
  isByte 225 a && isByte 154 b && isByte 128 c ||
  isByte 226 a && isByte 128 b &&
    ((128 <=? z)%nat && (z <=? 138)%nat || (z =? 168)%nat || (z =? 169)%nat ||
     (z =? 175)%nat) ||
  isByte 226 a && isByte 129 b && isByte 159 c ||
  isByte 227 a && isByte 128 b && isByte 128 c ||
  isByte 239 a && isByte 187 b && isByte 191 c.

Fixpoint trimStart (s : string) : string :=
  match s with
  | EmptyString => EmptyString
  | String a s1 =>
      if isWhiteSpace a then trimStart s1
      else
        match s1 with
        | String b s2 =>
            if isWhiteSpace2 a b then trimStart s2
            else
              match s2 with
              | String c s3 => if isWhiteSpace3 a b c then trimStart s3 else s
              | EmptyString => s
              end
        | EmptyString => s
        end
  end.

(** Nothing but white space. *)
Definition isBlank (s : string) : bool :=
  match trimStart s with
  | EmptyString => true
  | String _ _ => false
  end.

(** The text up to the first place from which everything is white
    space. *)
Fixpoint trimEnd (s : string) : string :=
  match s with
  | EmptyString => EmptyString
  | String c s' => if isBlank s then EmptyString else String c (trimEnd s')
  end.

Definition trim (s : string) : string := trimEnd (trimStart s).

(** [s.startsWith(p)] and [s.includes(p)]. *)
Fixpoint startsWith (p s : string) : bool :=
  match p, s with
  | EmptyString, _ => true
  | String _ _, EmptyString => false
  | String a p', String b s' => if Ascii.eqb a b then startsWith p' s' else false
  end.

Fixpoint includes (p s : string) : bool :=
  startsWith p s ||
  match s with
  | EmptyString => false
  | String _ s' => includes p s'
  end.

(** [xs.some(f)]. *)
Definition some {A} (f : A -> bool) (xs : list A) : bool := existsb f xs.

(** [a || b] on strings: the empty string is falsy. *)
Definition orElse (a : option string) (b : string) : string :=
  match a with
  | Some (String c s) => String c s
  | _ => b
  end.

(** [obj[key]] on a parsed object: the last binding of the key wins. *)
Fixpoint property (key : string) (fields : list (string * Json)) : option Json :=
  match fields with
  | [] => None
  | (k, v) :: rest =>
      match property key rest with
      | Some v' => Some v'
      | None => if String.eqb k key then Some v else None
      end
  end.

(** The truth value of a parsed value. *)
Definition truthy (j : Json) : bool :=
  match j with
  | JNull | JBool false | JNum 0 | JStr EmptyString => false
  | _ => true
  end.

(** Whether an object has a property of its own under a name. *)
Definition hasOwn (key : string) (fields : list (string * Json)) : bool :=
  match property key fields with Some _ => true | None => false end.

(** [String(value)], the coercion behind [obj[value]], [s.endsWith(value)],
    [array.join] and a template text.  A parsed object has no function
    among its properties: one with a [toString] of its own cannot be
    turned into text, and the coercion throws a [TypeError]; so does the
    coercion of an array that holds such an object. *)
Fixpoint stringifiable (j : Json) : bool :=
  match j with
  | JArr items => forallb stringifiable items
  | JObj fields => negb (hasOwn "toString" fields)
  | _ => true
  end.

Fixpoint toStringJs (j : Json) : string :=
  match j with
  | JNull => "null"
  | JBool true => "true"
  | JBool false => "false"
  | JNum n => pretty n
  | JStr s => s
  | JArr items =>
      String.concat ","
        (List.map (fun x => match x with JNull => EmptyString | _ => toStringJs x end) items)
  | JObj _ => "[object Object]"
  end.

Definition notStringifiable : JsError :=
  TypeError "Cannot convert object to primitive value".

End Js.
Export Js.

(** ** Data model (graph-state, UIService, generated files) *)

Inductive Intent := create | modify | question | explain.

Inductive ProjectType := frontend | backend | fullstack.

Record GeneratedFile := {
  path : string;
  content : string;
  exports : option (list string)
}.

Record ValidationError := {
  file : string;
  errorMessage : string;
  severity : option string
}.

Record ProjectBlueprint := {
  projectName : string;
  description : string;
  features : list Json;
  pages : list Json;
  components : list Json;
  designSystem : Json;
  dependencies : list (string * string)
}.

Module UI.
(** A component as [getComponentDetails] builds it: the name as the
    model gave it, and three fields read off the catalogue, [None] for
    [undefined]. *)
Record UIComponent := {
  name : Json;
  description : option string;
  codesnippet : option string;
  dependencies : option string
}.

Record UISelectionResult := {
  selectedComponents : list UIComponent;
  formattedForPrompt : string
}.
End UI.

(** The state threaded through the graph.  The channels no edge and no
    stage modelled here reads ([projectId], [availableImages],
    [modificationPlan], [filesToCreate], ...) are kept together in
    [extra], keyed by channel name. *)
Record WebsiteState := {
  userPrompt : string;
  projectType : ProjectType;
  requestIntent : option Intent;
  isModification : bool;
  blueprint : option ProjectBlueprint;
  files : gmap string GeneratedFile;
  errors : list ValidationError;
  iterationCount : nat;
  currentPhase : string;
  isComplete : bool;
  messages : list string;
  chatResponse : option string;
  extra : gmap string Json
}.

(** [Partial<WebsiteState>]: what a stage returns. *)
Record Partial := {
  pRequestIntent : option Intent;
  pIsModification : option bool;
  pBlueprint : option ProjectBlueprint;
  pFiles : option (gmap string GeneratedFile);
  pErrors : option (list ValidationError);
  pIterationCount : option nat;
  pCurrentPhase : option string;
  pMessages : option (list string);
  pChatResponse : option string;
  pExtra : gmap string Json
}.

Definition noUpdate : Partial :=
  {| pRequestIntent := None; pIsModification := None; pBlueprint := None;
     pFiles := None; pErrors := None; pIterationCount := None;
     pCurrentPhase := None; pMessages := None; pChatResponse := None;
     pExtra := ∅ |}.

(** ** Process-wide mutable state and the effect monad *)

(** A registered callback is known by the listener it belongs to; calling
    it hands the payload to that listener. *)
Inductive Notification :=
| FileProduced (listener : nat) (f : GeneratedFile)
| PhaseChanged (listener : nat) (phase : string).

Record World := {
  requests : nat;                 (* model requests issued so far *)
  routerKeyIndex : nat;           (* intent-router: let currentKeyIndex *)
  blueprintKeyIndex : nat;        (* blueprint-node: let blueprintKeyIndex *)
  uiKeyIndex : nat;               (* UIService: let currentKeyIndex *)
  selectionCache : gmap string UI.UISelectionResult;
  globalFileCallback : option nat;
  globalPhaseCallback : option nat;
  delivered : list Notification   (* calls received by listeners, oldest first *)
}.

Definition initialWorld : World :=
  {| requests := 0; routerKeyIndex := 0; blueprintKeyIndex := 0;
     uiKeyIndex := 0; selectionCache := ∅;
     globalFileCallback := None; globalPhaseCallback := None;
     delivered := [] |}.

Definition set_requests (n : nat) (w : World) : World :=
  {| requests := n; routerKeyIndex := routerKeyIndex w;
     blueprintKeyIndex := blueprintKeyIndex w; uiKeyIndex := uiKeyIndex w;
     selectionCache := selectionCache w;
     globalFileCallback := globalFileCallback w;
     globalPhaseCallback := globalPhaseCallback w; delivered := delivered w |}.

Definition set_routerKeyIndex (i : nat) (w : World) : World :=
  {| requests := requests w; routerKeyIndex := i;
     blueprintKeyIndex := blueprintKeyIndex w; uiKeyIndex := uiKeyIndex w;
     selectionCache := selectionCache w;
     globalFileCallback := globalFileCallback w;
     globalPhaseCallback := globalPhaseCallback w; delivered := delivered w |}.

Definition set_blueprintKeyIndex (i : nat) (w : World) : World :=
  {| requests := requests w; routerKeyIndex := routerKeyIndex w;
     blueprintKeyIndex := i; uiKeyIndex := uiKeyIndex w;
     selectionCache := selectionCache w;
     globalFileCallback := globalFileCallback w;
     globalPhaseCallback := globalPhaseCallback w; delivered := delivered w |}.

Definition set_uiKeyIndex (i : nat) (w : World) : World :=
  {| requests := requests w; routerKeyIndex := routerKeyIndex w;
     blueprintKeyIndex := blueprintKeyIndex w; uiKeyIndex := i;
     selectionCache := selectionCache w;
     globalFileCallback := globalFileCallback w;
     globalPhaseCallback := globalPhaseCallback w; delivered := delivered w |}.

Definition set_selectionCache (c : gmap string UI.UISelectionResult) (w : World) : World :=
  {| requests := requests w; routerKeyIndex := routerKeyIndex w;
     blueprintKeyIndex := blueprintKeyIndex w; uiKeyIndex := uiKeyIndex w;
     selectionCache := c;
     globalFileCallback := globalFileCallback w;
     globalPhaseCallback := globalPhaseCallback w; delivered := delivered w |}.

Definition set_globalFileCallback (cb : option nat) (w : World) : World :=
  {| requests := requests w; routerKeyIndex := routerKeyIndex w;
     blueprintKeyIndex := blueprintKeyIndex w; uiKeyIndex := uiKeyIndex w;
     selectionCache := selectionCache w;
     globalFileCallback := cb;
     globalPhaseCallback := globalPhaseCallback w; delivered := delivered w |}.

Definition set_globalPhaseCallback (cb : option nat) (w : World) : World :=
  {| requests := requests w; routerKeyIndex := routerKeyIndex w;
     blueprintKeyIndex := blueprintKeyIndex w; uiKeyIndex := uiKeyIndex w;
     selectionCache := selectionCache w;
     globalFileCallback := globalFileCallback w;
     globalPhaseCallback := cb; delivered := delivered w |}.

Definition set_delivered (d : list Notification) (w : World) : World :=
  {| requests := requests w; routerKeyIndex := routerKeyIndex w;
     blueprintKeyIndex := blueprintKeyIndex w; uiKeyIndex := uiKeyIndex w;
     selectionCache := selectionCache w;
     globalFileCallback := globalFileCallback w;
     globalPhaseCallback := globalPhaseCallback w; delivered := d |}.

(** An [async] function of the code: it reads and writes the process
    state, and either returns or throws.  Delays ([setTimeout]) take time
    only, which is not part of the state. *)
Definition Eff (A : Type) : Type := World -> (JsError + A) * World.

Module Eff.

Definition ret {A} (a : A) : Eff A := fun w => (inr a, w).

Definition bind {A B} (k : A -> Eff B) (m : Eff A) : Eff B :=
  fun w =>
    match m w with
    | (inr a, w') => k a w'
    | (inl e, w') => (inl e, w')
    end.

Definition throw {A} (e : JsError) : Eff A := fun w => (inl e, w).

(** [try { body } catch (e) { handler }] *)
Definition tryCatch {A} (body : Eff A) (handler : JsError -> Eff A) : Eff A :=
  fun w =>
    match body w with
    | (inl e, w') => handler e w'
    | r => r
    end.

(** [try { body } finally { cleanup }]: the cleanup runs whichever way
    the body ends; the body's outcome stands unless the cleanup throws. *)
Definition tryFinally {A} (body : Eff A) (cleanup : Eff unit) : Eff A :=
  fun w =>
    let '(r, w') := body w in
    match cleanup w' with
    | (inl e, w'') => (inl e, w'')
    | (inr _, w'') => (r, w'')
    end.

Definition modifyWorld (f : World -> World) : Eff unit := fun w => (inr tt, f w).

Definition readWorld {A} (f : World -> A) : Eff A := fun w => (inr (f w), w).

(** [await new Promise(r => setTimeout(r, ms))] *)
Definition sleep (ms : nat) : Eff unit := ret tt.

End Eff.

#[global] Instance Eff_ret : MRet Eff := @Eff.ret.
#[global] Instance Eff_bind : MBind Eff := @Eff.bind.

(** A response of [chat.completions.create]: the [message.content] of
    each of its choices. *)
Definition ChatResponse : Type := list (option string).

(** The remote model: the outcome of the k-th request of the process.
    The text of a request and the key in use do not appear: the model is
    an arbitrary function of the request number, which covers any way
    the outcome may depend on them in a given run.  For the same reason
    the prompts the stages assemble are not built. *)
Definition Model : Type := nat -> JsError + ChatResponse.

Definition chatCompletionsCreate (model : Model) : Eff ChatResponse :=
  fun w => (model (requests w), set_requests (S (requests w)) w).

(** [index = (index + 1) % keys.length], guarded by [keys.length > 1]. *)
Definition rotate (poolSize index : nat) : nat :=
  if (1 <? poolSize)%nat then (index + 1) mod poolSize else index.

(** ** src/index.ts, intent-router-node: [intentRouterNode] *)

Module IntentRouter.

Definition MODIFY_KEYWORDS : list string :=
  [ "add"; "change"; "update"; "modify"; "edit"; "remove"; "delete";
    "fix"; "improve"; "enhance"; "create new"; "add new"; "include";
    "put"; "place"; "insert"; "make"; "build" ].

Definition QUESTION_KEYWORDS : list string :=
  [ "where is"; "where are"; "where can i find"; "how do i";
    "what is"; "what are"; "which"; "explain"; "show me";
    "tell me"; "describe"; "help me understand"; "can you explain" ].

Definition maxRetries : nat := 3.

Definition isModify (i : Intent) : bool :=
  match i with modify => true | _ => false end.

(** [{ requestIntent: intent, isModification: intent === 'modify' }] *)
Definition decided (intent : Intent) : Partial :=
  {| pRequestIntent := Some intent; pIsModification := Some (isModify intent);
     pBlueprint := None; pFiles := None; pErrors := None;
     pIterationCount := None; pCurrentPhase := None; pMessages := None;
     pChatResponse := None; pExtra := ∅ |}.

(** The word of an intent, as the model is asked to answer it. *)
Definition intentWord (i : Intent) : string :=
  match i with
  | create => "create"
  | modify => "modify"
  | question => "question"
  | explain => "explain"
  end.

(** The intent read off one response:
    [content?.toLowerCase().trim() || 'modify'], kept when it is one of
    the four intent words, otherwise decided by the question keywords. *)
Definition intentOfContent (hasQuestionKeywords : bool) (content : option string) : Intent :=
  let intentRaw := orElse (option_map (fun c => trim (toLowerCase c)) content) "modify" in
  if String.eqb intentRaw "create" then create
  else if String.eqb intentRaw "modify" then modify
  else if String.eqb intentRaw "question" then question
  else if String.eqb intentRaw "explain" then explain
  else if hasQuestionKeywords then question else modify.

(** An attempt fails when its request throws or its response has no
    choice to read. *)
Definition attemptFailed (outcome : JsError + ChatResponse) : bool :=
  match outcome with
  | inl _ | inr [] => true
  | inr (_ :: _) => false
  end.

Section WithEnvironment.

(** The keys found in the environment when the module is loaded, and the
    remote model. *)
Variable apiKeys : list string.
Variable model : Model.

Definition rotateApiKey : Eff unit :=
  Eff.modifyWorld
    (fun w => set_routerKeyIndex (rotate (length apiKeys) (routerKeyIndex w)) w).

(** [getClient]: a client for [apiKeys[currentKeyIndex] ||
    process.env.gemini2].  The pool holds every variable that is set and
    not empty, [gemini2] among them, and [rotateApiKey] keeps the index
    inside a pool that is not empty; so the second operand is reached
    with an empty pool only, where the variable is taken as unset, and
    the constructor of the openai package throws on a missing key. *)
Definition getClient : Eff unit :=
  fun w =>
    match apiKeys !! routerKeyIndex w with
    | Some _ => (inr tt, w)
    | None =>
        (inl {| message :=
                  Some "The OPENAI_API_KEY environment variable is missing or empty" |},
         w)
    end.

(** [for (let attempt = 1; attempt <= maxRetries; attempt++)], with
    [remaining = maxRetries + 1 - attempt] iterations still to run.  The
    client is built and the request is sent inside the [try]; a response
    without a choice makes [response.choices[0].message] throw there. *)
Fixpoint attempts (hasExistingFiles hasModifyKeywords hasQuestionKeywords : bool)
    (remaining attempt : nat) : Eff Partial :=
  match remaining with
  | O =>
      (* after the loop *)
      mret (decided (if hasQuestionKeywords then question else modify))
  | S remaining' =>
      Eff.tryCatch
        (getClient;;
         response ← chatCompletionsCreate model;
         match response with
         | [] => Eff.throw (TypeError "Cannot read properties of undefined (reading 'message')")
         | content :: _ => mret (decided (intentOfContent hasQuestionKeywords content))
         end)
        (fun error =>
           rotateApiKey;;
           if (attempt <? maxRetries)%nat then
             Eff.sleep (1000 * attempt);;
             attempts hasExistingFiles hasModifyKeywords hasQuestionKeywords
               remaining' (S attempt)
           else
             let fallbackIntent :=
               if negb hasExistingFiles then create
               else if hasQuestionKeywords then question
               else modify in
             mret (decided fallbackIntent))
  end.

(** What follows a failed attempt: the key is rotated and, unless the
    attempt was the last, the loop goes on. *)
Definition afterFailure (hE hM hQ : bool) (remaining attempt : nat) (w : World)
  : (JsError + Partial) * World :=
  let w1 := set_routerKeyIndex (rotate (length apiKeys) (routerKeyIndex w)) w in
  if (attempt <? maxRetries)%nat
  then attempts hE hM hQ remaining (S attempt) w1
  else (inr (decided (if negb hE then create else if hQ then question else modify)), w1).

Definition intentRouterNode (state : WebsiteState) : Eff Partial :=
  let prompt := toLowerCase (userPrompt state) in
  let hasExistingFiles := (0 <? size (files state))%nat in
  let hasBlueprint := match blueprint state with Some _ => true | None => false end in
  let hasModifyKeywords := some (fun kw => includes kw prompt) MODIFY_KEYWORDS in
  let hasQuestionKeywords := some (fun kw => includes kw prompt) QUESTION_KEYWORDS in
  if negb hasExistingFiles && negb hasBlueprint then
    mret {| pRequestIntent := Some create; pIsModification := Some false;
            pBlueprint := None; pFiles := None; pErrors := None;
            pIterationCount := None; pCurrentPhase := None; pMessages := None;
            pChatResponse := None; pExtra := ∅ |}
  else
    attempts hasExistingFiles hasModifyKeywords hasQuestionKeywords maxRetries 1.

End WithEnvironment.

End IntentRouter.

(** ** blueprint-node.ts: [extractPagesWithLLM] *)

Module Blueprint.

Definition maxRetries : nat := 3.

(** [content.match(/\[[\s\S]*\]/)]: from the first opening bracket to the
    last closing bracket after it. *)
Fixpoint fromFirstOpen (s : string) : option string :=
  match s with
  | EmptyString => None
  | String c s' => if Ascii.eqb c "["%char then Some s else fromFirstOpen s'
  end.

Fixpoint upToLastClose (s : string) : option string :=
  match s with
  | EmptyString => None
  | String c s' =>
      match upToLastClose s' with
      | Some t => Some (String c t)
      | None => if Ascii.eqb c "]"%char then Some (String c EmptyString) else None
      end
  end.

Definition matchJsonArray (content : string) : option string :=
  match fromFirstOpen content with
  | Some s => upToLastClose s
  | None => None
  end.

Definition page (name route description : string) (sections components : list string) : Json :=
  JObj [ ("name", JStr name); ("route", JStr route);
         ("description", JStr description);
         ("sections", JArr (map JStr sections));
         ("components", JArr (map JStr components)) ].

(** The [name] and the [route] of a page object. *)
Definition nameAndRoute (p : Json) : option (Json * Json) :=
  match p with
  | JObj fields =>
      match property "name" fields, property "route" fields with
      | Some n, Some r => Some (n, r)
      | _, _ => None
      end
  | _ => None
  end.

(** The array returned when no attempt produced pages. *)
Definition fallbackPages : Json :=
  JArr [ page "HomePage" "/" "Main landing page"
           ["Hero"; "Features"; "CTA"] ["Hero"; "FeatureGrid"];
         page "NotFoundPage" "*" "404 error page"
           ["ErrorMessage"] ["ErrorDisplay"] ].

(** [typeof f === 'string' ? f : f.name || f], the name of a feature;
    reading [f.name] throws when [f] is [null]. *)
Definition featureName (f : Json) : JsError + Json :=
  match f with
  | JNull => inl (TypeError "Cannot read properties of null (reading 'name')")
  | JObj fields =>
      inr (match property "name" fields with
           | Some n => if truthy n then n else f
           | None => f
           end)
  | _ => inr f
  end.

Fixpoint mapFeatureName (features : list Json) : JsError + list Json :=
  match features with
  | [] => inr []
  | f :: rest =>
      match featureName f with
      | inl e => inl e
      | inr n =>
          match mapFeatureName rest with
          | inl e => inl e
          | inr names => inr (n :: names)
          end
      end
  end.

(** [features.map(...).join(', ')], the first thing the function
    computes, before the loop and outside any [try]. *)
Definition featureNames (features : list Json) : JsError + string :=
  match mapFeatureName features with
  | inl e => inl e
  | inr names =>
      if forallb stringifiable names
      then inr (String.concat ", " (map toStringJs names))
      else inl notStringifiable
  end.

Section WithEnvironment.

Variable blueprintApiKeys : list string.
Variable model : Model.
Variable JSON_parse : string -> JsError + Json.

Definition rotateBlueprintKey : Eff unit :=
  Eff.modifyWorld
    (fun w => set_blueprintKeyIndex
                (rotate (length blueprintApiKeys) (blueprintKeyIndex w)) w).

(** What the body of the [try] makes of a response: it throws (no
    choice, or [JSON.parse] throws), it returns the parsed pages, or
    ([None]) it finds no array in the text and falls out of the [try]. *)
Definition pagesOfResponse (response : ChatResponse) : JsError + option Json :=
  match response with
  | [] => inl (TypeError "Cannot read properties of undefined (reading 'message')")
  | c :: _ =>
      let content := orElse c "[]" in
      match matchJsonArray content with
      | Some jsonMatch =>
          match JSON_parse jsonMatch with
          | inl e => inl e
          | inr pages => inr (Some pages)
          end
      | None => inr None
      end
  end.

(** An attempt fails when it does not return pages. *)
Definition attemptFailed (outcome : JsError + ChatResponse) : bool :=
  match outcome with
  | inl _ => true
  | inr response =>
      match pagesOfResponse response with
      | inr (Some _) => false
      | _ => true
      end
  end.

Definition attemptBody : Eff (option Json) :=
  response ← chatCompletionsCreate model;
  match pagesOfResponse response with
  | inl e => Eff.throw e
  | inr returned => mret returned
  end.

(** [for (let attempt = 1; attempt <= maxRetries; attempt++)]; the
    handler rotates the key and, before the last attempt, waits; in
    either case the next iteration follows. *)
Fixpoint attempts (remaining attempt : nat) : Eff Json :=
  match remaining with
  | O => mret fallbackPages
  | S remaining' =>
      returned ←
        Eff.tryCatch attemptBody
          (fun error =>
             rotateBlueprintKey;;
             (if (attempt <? maxRetries)%nat
              then Eff.sleep (1000 * attempt) else mret tt);;
             mret None);
      match returned with
      | Some pages => mret pages
      | None => attempts remaining' (S attempt)
      end
  end.

(** The loop and the fallback that follows it: what the function does
    once its prompt is built.  The three arguments only go into the text
    of the request. *)
Definition extractPagesWithLLM (userPrompt detailedContext : string)
    (features : list Json) : Eff Json :=
  attempts maxRetries 1.

(** The function from its first line: the names of the features are
    put together for the prompt, which throws for a feature that is
    [null] or cannot be turned into text; then the loop. *)
Definition extractPagesWithLLMFromPrompt (userPrompt detailedContext : string)
    (features : list Json) : Eff Json :=
  match featureNames features with
  | inl e => Eff.throw e
  | inr _ => extractPagesWithLLM userPrompt detailedContext features
  end.

End WithEnvironment.

End Blueprint.

(** ** src/unnamed/part_000: [UIService] *)

Module UIService.
Import UI.

Definition maxRetries : nat := 3.

(** An entry of the component catalogue [text] of ui/components. *)
Record CatalogueEntry := {
  entryDescription : string;
  entryCodesnippet : string;
  entryDependencies : string
}.

(** The names every plain object inherits from [Object.prototype]. *)
Definition inheritedNames : list string :=
  [ "constructor"; "__defineGetter__"; "__defineSetter__"; "hasOwnProperty";
    "__lookupGetter__"; "__lookupSetter__"; "isPrototypeOf";
    "propertyIsEnumerable"; "toString"; "valueOf"; "__proto__";
    "toLocaleString" ].

(** [s.replace(/pat\s*/g, '')] for a literal [pat]; [fuel] bounds the
    scan and the length of [s] is enough. *)
Fixpoint removeAllFrom (fuel : nat) (pat s : string) : string :=
  match fuel with
  | O => s
  | S fuel' =>
      if startsWith pat s then
        removeAllFrom fuel' pat
          (trimStart (String.substring (String.length pat)
                        (String.length s - String.length pat) s))
      else
        match s with
        | EmptyString => EmptyString
        | String c s' => String c (removeAllFrom fuel' pat s')
        end
  end.

Definition removeAll (pat s : string) : string :=
  removeAllFrom (S (String.length s)) pat s.

(** [content.replace(/```json\s*/g, '').replace(/```\s*/g, '').trim()] *)
Definition stripCodeFences (content : string) : string :=
  trim (removeAll "```" (removeAll "```json" content)).

(** [parsed.selectedComponents || []], as far as [.map] accepts it. *)
Definition selectedNames (parsed : Json) : JsError + list Json :=
  match parsed with
  | JNull => inl (TypeError "Cannot read properties of null (reading 'selectedComponents')")
  | JObj fields =>
      match property "selectedComponents" fields with
      | None => inr []
      | Some v =>
          if truthy v then
            match v with
            | JArr names => inr names
            | _ => inl (TypeError "componentNames.map is not a function")
            end
          else inr []
      end
  | _ => inr []
  end.

(** The places where a call of [selectComponents] gives way to the rest
    of the process: while it awaits the model, and while it awaits the
    delay after a failed attempt. *)
Inductive AwaitPoint :=
| AwaitModel (attempt : nat)
| AwaitDelay (attempt : nat).

Section WithEnvironment.

Variable apiKeys : list string.
(** The catalogue imported from ui/components, a plain object, by its
    own properties. *)
Variable text : gmap string CatalogueEntry.
Variable JSON_parse : string -> JsError + Json.
Variable JSON_stringify : list UIComponent -> string.
(** [getClient()] followed by [chatCompletionWithRetry] of
    utils/openaiRetry: from the number of requests already issued, the
    outcome and the number of requests issued on the way.  A client that
    cannot be built is an outcome that throws after no request. *)
Variable chatCompletionWithRetry : nat -> (JsError + ChatResponse) * nat.

Definition callModel : Eff ChatResponse :=
  fun w =>
    let '(outcome, used) := chatCompletionWithRetry (requests w) in
    (outcome, set_requests (requests w + used) w).

Definition rotateApiKey : Eff unit :=
  Eff.modifyWorld
    (fun w => set_uiKeyIndex (rotate (length apiKeys) (uiKeyIndex w)) w).

(** [text[name]] with [if (!component)]: a property of the catalogue's
    own, or else one of the members every plain object inherits, each of
    them a function or an object, hence truthy, and without any of the
    three fields. *)
Definition lookupComponent (name : Json) : option UIComponent :=
  let key := toStringJs name in
  match text !! key with
  | Some component =>
      Some {| name := name;
              description := Some (entryDescription component);
              codesnippet := Some (entryCodesnippet component);
              dependencies := Some (entryDependencies component) |}
  | None =>
      if bool_decide (key ∈ inheritedNames) then
        Some {| name := name; description := None; codesnippet := None;
                dependencies := None |}
      else None
  end.

(** The [map] turns every name into a property key before the [filter]
    drops the names not found. *)
Definition getComponentDetails (componentNames : list Json)
  : JsError + list UIComponent :=
  if forallb stringifiable componentNames
  then inr (omap lookupComponent componentNames)
  else inl notStringifiable.

Definition formatSelectedComponentsForPrompt (components : list UIComponent) : string :=
  match components with
  | [] => EmptyString
  | _ =>
      String.concat EmptyString
        [ String lineFeed (String lineFeed
            "COMPULSORY USE ALL THESE UI COMPONENTS IN YOUR IMPLEMENTATION:");
          String lineFeed (String lineFeed (JSON_stringify components));
          String lineFeed EmptyString ]
  end.

(** The text standing in for a missing content: an object whose
    [selectedComponents] is the empty array. *)
Definition defaultContent : string :=
  String.concat (String doubleQuote EmptyString)
    [ "{"; "selectedComponents"; ": []}" ].

(** The body of the [try] after the response has arrived. *)
Definition selectionOfResponse (response : ChatResponse) : JsError + UISelectionResult :=
  let content :=
    orElse (match response with c :: _ => c | [] => None end)
           defaultContent in
  match JSON_parse (stripCodeFences content) with
  | inl e => inl e
  | inr parsed =>
      match selectedNames parsed with
      | inl e => inl e
      | inr selectedComponentNames =>
          match getComponentDetails selectedComponentNames with
          | inl e => inl e
          | inr selectedComponents =>
              inr {| selectedComponents := selectedComponents;
                     formattedForPrompt :=
                       formatSelectedComponentsForPrompt selectedComponents |}
          end
      end
  end.

(** The handler's test for rate limits and quota errors. *)
Definition isRateLimited (error : JsError) : bool :=
  match message error with
  | Some m =>
      includes "429" m || includes "quota" m ||
      includes "RESOURCE_EXHAUSTED" m || includes "overloaded" m
  | None => false
  end.

Definition emptySelection : UISelectionResult :=
  {| selectedComponents := []; formattedForPrompt := EmptyString |}.

(** The result of the first attempt that succeeds among [remaining]
    attempts, the first of them made when [issued] requests have been
    issued; [None] when each of them fails. *)
Fixpoint firstSuccess (remaining issued : nat) : option UISelectionResult :=
  match remaining with
  | O => None
  | S remaining' =>
      let '(outcome, used) := chatCompletionWithRetry issued in
      match outcome with
      | inr response =>
          match selectionOfResponse response with
          | inr result => Some result
          | inl _ => firstSuccess remaining' (issued + used)
          end
      | inl _ => firstSuccess remaining' (issued + used)
      end
  end.

Fixpoint attempts (cacheKey : string) (remaining attempt : nat) : Eff UISelectionResult :=
  match remaining with
  | O => mret emptySelection
  | S remaining' =>
      returned ←
        Eff.tryCatch
          (response ← callModel;
           match selectionOfResponse response with
           | inl e => Eff.throw e
           | inr result =>
               Eff.modifyWorld
                 (fun w => set_selectionCache
                             (<[cacheKey := result]> (selectionCache w)) w);;
               mret (Some result)
           end)
          (fun error =>
             if isRateLimited error then
               rotateApiKey;;
               Eff.sleep (2000 + attempt * 1000);;
               mret None
             else
               rotateApiKey;;
               Eff.sleep 1000;;
               mret None);
      match returned with
      | Some result => mret result
      | None => attempts cacheKey remaining' (S attempt)
      end
  end.

Definition selectComponents (requirements : string) : Eff UISelectionResult :=
  let cacheKey := trim requirements in
  cache ← Eff.readWorld selectionCache;
  match cache !! cacheKey with
  | Some cached => mret cached
  | None => attempts cacheKey maxRetries 1
  end.

(** *** A call among other work of the process

    The definitions above run a call from its first line to its last
    with nothing in between.  In the process other calls run while this
    one awaits: [others p] is what they do to the process state while
    the call waits at [p]. *)
Variable others : AwaitPoint -> World -> World.

Definition callModelAmong (attempt : nat) : Eff ChatResponse :=
  fun w =>
    let '(outcome, used) := chatCompletionWithRetry (requests w) in
    (outcome, others (AwaitModel attempt) (set_requests (requests w + used) w)).

Definition sleepAmong (attempt ms : nat) : Eff unit :=
  Eff.modifyWorld (others (AwaitDelay attempt)).

Fixpoint attemptsAmong (cacheKey : string) (remaining attempt : nat)
  : Eff UISelectionResult :=
  match remaining with
  | O => mret emptySelection
  | S remaining' =>
      returned ←
        Eff.tryCatch
          (response ← callModelAmong attempt;
           match selectionOfResponse response with
           | inl e => Eff.throw e
           | inr result =>
               Eff.modifyWorld
                 (fun w => set_selectionCache
                             (<[cacheKey := result]> (selectionCache w)) w);;
               mret (Some result)
           end)
          (fun error =>
             if isRateLimited error then
               rotateApiKey;;
               sleepAmong attempt (2000 + attempt * 1000);;
               mret None
             else
               rotateApiKey;;
               sleepAmong attempt 1000;;
               mret None);
      match returned with
      | Some result => mret result
      | None => attemptsAmong cacheKey remaining' (S attempt)
      end
  end.

Definition selectComponentsAmong (requirements : string) : Eff UISelectionResult :=
  let cacheKey := trim requirements in
  cache ← Eff.readWorld selectionCache;
  match cache !! cacheKey with
  | Some cached => mret cached
  | None => attemptsAmong cacheKey maxRetries 1
  end.

End WithEnvironment.

End UIService.

(** ** chat-response-node: [chatResponseNode] *)

Module ChatResponse.

Section WithEnvironment.

Variable model : Model.

Definition answered (answer : string) : Partial :=
  {| pRequestIntent := None; pIsModification := None; pBlueprint := None;
     pFiles := None; pErrors := None; pIterationCount := None;
     pCurrentPhase := None;
     pMessages := Some [String " " answer];
     pChatResponse := Some answer; pExtra := ∅ |}.

(** The text built in the handler when the request fails. *)
Definition fallbackResponse (state : WebsiteState) : string :=
  let size := size (files state) in
  String.concat EmptyString
    ( "I encountered an error while processing your question. " ::
      if (0 <? size)%nat then
        String.concat EmptyString
          [ "However, I can tell you that this project has ";
            pretty size; " files. " ] ::
        match blueprint state with
        | Some bp =>
            [ String.concat EmptyString
                [ "The project is called "; String doubleQuote EmptyString;
                  projectName bp; String doubleQuote EmptyString;
                  " and has "; pretty (length (pages bp)); " pages." ] ]
        | None => []
        end
      else [] ).

(** The project context and the memory context only make up the text of
    the request; the model answers by request number, whatever the text,
    so that text is not built here.  The memory lookup sits in a [try]
    of its own whose handler only logs. *)
Definition chatResponseNode (state : WebsiteState) : Eff Partial :=
  Eff.tryCatch
    (response ← chatCompletionsCreate model;
     match response with
     | [] => Eff.throw (TypeError "Cannot read properties of undefined (reading 'message')")
     | c :: _ =>
         mret (answered
                 (orElse c "I couldn't find information about that in this project."))
     end)
    (fun error => mret (answered (fallbackResponse state))).

End WithEnvironment.

End ChatResponse.

(** ** The website graph: nodes, edges, callbacks, [generateWebsite] *)

Module Graph.

Inductive Node :=
| intent_router
| chat_response
| modification_analyzer
| blueprint_step
| structure_step
| core_step
| components_step
| pages_step
| validation_step
| repair_step.

(** Where an edge leads: a node, or the terminal marker [END]. *)
Inductive Target :=
| Goto (n : Node)
| END.

#[global] Instance Node_eq_dec : EqDecision Node.
Proof. solve_decision. Defined.

(** *** Callback registry *)

Definition setFileCallback (cb : option nat) : Eff unit :=
  Eff.modifyWorld (set_globalFileCallback cb).

Definition setPhaseCallback (cb : option nat) : Eff unit :=
  Eff.modifyWorld (set_globalPhaseCallback cb).

Definition notifyFileCreated (f : GeneratedFile) : Eff unit :=
  Eff.modifyWorld
    (fun w =>
       match globalFileCallback w with
       | Some listener => set_delivered (delivered w ++ [FileProduced listener f]) w
       | None => w
       end).

Definition notifyPhaseChange (phase : string) : Eff unit :=
  Eff.modifyWorld
    (fun w =>
       match globalPhaseCallback w with
       | Some listener => set_delivered (delivered w ++ [PhaseChanged listener phase]) w
       | None => w
       end).

(** *** Conditional edges of [buildGraph] *)

(** The edge leaving [intent_router]. *)
Definition routeIntent (state : WebsiteState) : Node :=
  match requestIntent state with
  | Some question | Some explain => chat_response
  | Some modify => modification_analyzer
  | Some create | None => blueprint_step
  end.

(** The edge leaving [validation_step]: ['end'] is mapped to [END]. *)
Definition routeValidation (state : WebsiteState) : Target :=
  if (length (errors state) =? 0)%nat then END
  else if (3 <=? iterationCount state)%nat then END
  else Goto repair_step.

(** All edges: the node that follows [n] once its update is merged. *)
Definition next (n : Node) (state : WebsiteState) : Target :=
  match n with
  | intent_router => Goto (routeIntent state)
  | chat_response => END
  | modification_analyzer => Goto repair_step
  | blueprint_step => Goto structure_step
  | structure_step => Goto core_step
  | core_step => Goto components_step
  | components_step => Goto pages_step
  | pages_step => Goto validation_step
  | validation_step => routeValidation state
  | repair_step => Goto validation_step
  end.

(** *** Merging an update into the state *)

(** Modelled from the spec: the reducers of [WebsiteStateAnnotation]
    (graph-state is not in src).  A field present in the update replaces
    the old value; [files] is merged by key, the update's entries
    winning; [messages] is appended; [errors] is replaced. *)
Definition merge (state : WebsiteState) (p : Partial) : WebsiteState :=
  {| userPrompt := userPrompt state;
     projectType := projectType state;
     requestIntent :=
       match pRequestIntent p with Some i => Some i | None => requestIntent state end;
     isModification := default (isModification state) (pIsModification p);
     blueprint :=
       match pBlueprint p with Some b => Some b | None => blueprint state end;
     files :=
       match pFiles p with Some fs => fs ∪ files state | None => files state end;
     errors := default (errors state) (pErrors p);
     iterationCount := default (iterationCount state) (pIterationCount p);
     currentPhase := default (currentPhase state) (pCurrentPhase p);
     isComplete := isComplete state;
     messages := messages state ++ default [] (pMessages p);
     chatResponse :=
       match pChatResponse p with Some c => Some c | None => chatResponse state end;
     extra := pExtra p ∪ extra state |}.

(** The files of a stage, keyed by path; a later file replaces an
    earlier one with the same path. *)
Definition byPath (fs : list GeneratedFile) : gmap string GeneratedFile :=
  foldl (fun m f => <[path f := f]> m) ∅ fs.

Fixpoint forEach {A} (f : A -> Eff unit) (xs : list A) : Eff unit :=
  match xs with
  | [] => mret tt
  | x :: xs' => f x;; forEach f xs'
  end.

Section WithEnvironment.

Variable apiKeys : list string.
Variable model : Model.

(** The work of the stages that is not modelled further: what
    [blueprintNode] plans (blueprint, the other channels it fills, its
    messages), what [modificationAnalyzerNode] finds (the plan channels,
    its messages), and what the generation, validation and repair stages
    produce. *)
Variable planBlueprint :
  WebsiteState -> Eff (ProjectBlueprint * gmap string Json * list string).
Variable analyseModification :
  WebsiteState -> Eff (gmap string Json * list string).
Variable generate :
  Node -> WebsiteState -> Eff (list GeneratedFile * list string).
Variable validate :
  WebsiteState -> Eff (list ValidationError * list string).
Variable repair :
  WebsiteState -> Eff (list GeneratedFile * list string).

(** [blueprintNode]: it returns [blueprint], the channels gathered in
    [extra], [currentPhase: 'blueprint'] and its messages, or throws. *)
Definition blueprintNode (state : WebsiteState) : Eff Partial :=
  '(bp, channels, msgs) ← planBlueprint state;
  mret {| pRequestIntent := None; pIsModification := None;
          pBlueprint := Some bp; pFiles := None; pErrors := None;
          pIterationCount := None; pCurrentPhase := Some "blueprint";
          pMessages := Some msgs; pChatResponse := None; pExtra := channels |}.

(** [modificationAnalyzerNode]: [modificationPlan], [filesToCreate],
    [filesToModify] (in [extra]) and its messages. *)
Definition modificationAnalyzerNode (state : WebsiteState) : Eff Partial :=
  '(channels, msgs) ← analyseModification state;
  mret {| pRequestIntent := None; pIsModification := None;
          pBlueprint := None; pFiles := None; pErrors := None;
          pIterationCount := None; pCurrentPhase := None;
          pMessages := Some msgs; pChatResponse := None; pExtra := channels |}.

(** Modelled from the spec: [structureNode], [coreNode], [componentNode]
    and [pageNode] are not in src.  A generation stage announces its
    phase, produces files, notifies each one as it is produced, and
    returns them with the phase label and its messages. *)
Definition generationNode (n : Node) (phase : string) (state : WebsiteState) : Eff Partial :=
  notifyPhaseChange phase;;
  '(fs, msgs) ← generate n state;
  forEach notifyFileCreated fs;;
  mret {| pRequestIntent := None; pIsModification := None;
          pBlueprint := None; pFiles := Some (byPath fs); pErrors := None;
          pIterationCount := None; pCurrentPhase := Some phase;
          pMessages := Some msgs; pChatResponse := None; pExtra := ∅ |}.

(** Modelled from the spec: [validationNode] is not in src.  Each pass
    derives the whole error list anew; it replaces the previous one. *)
Definition validationNode (state : WebsiteState) : Eff Partial :=
  notifyPhaseChange "validation";;
  '(errs, msgs) ← validate state;
  mret {| pRequestIntent := None; pIsModification := None;
          pBlueprint := None; pFiles := None; pErrors := Some errs;
          pIterationCount := None; pCurrentPhase := Some "validation";
          pMessages := Some msgs; pChatResponse := None; pExtra := ∅ |}.

(** Modelled from the spec: [repairNode] is not in src.  It rewrites the
    affected files and increments [iterationCount]. *)
Definition repairNode (state : WebsiteState) : Eff Partial :=
  notifyPhaseChange "repair";;
  '(fs, msgs) ← repair state;
  forEach notifyFileCreated fs;;
  mret {| pRequestIntent := None; pIsModification := None;
          pBlueprint := None; pFiles := Some (byPath fs); pErrors := None;
          pIterationCount := Some (S (iterationCount state));
          pCurrentPhase := Some "repair";
          pMessages := Some msgs; pChatResponse := None; pExtra := ∅ |}.

(** [addNode]: the function behind each node. *)
Definition stage (n : Node) : WebsiteState -> Eff Partial :=
  match n with
  | intent_router => IntentRouter.intentRouterNode apiKeys model
  | chat_response => ChatResponse.chatResponseNode model
  | modification_analyzer => modificationAnalyzerNode
  | blueprint_step => blueprintNode
  | structure_step => generationNode structure_step "structure"
  | core_step => generationNode core_step "core"
  | components_step => generationNode components_step "components"
  | pages_step => generationNode pages_step "pages"
  | validation_step => validationNode
  | repair_step => repairNode
  end.

(** How a run of the compiled graph ends. *)
Inductive RunResult :=
| Terminal (final : WebsiteState)        (* [END] reached *)
| Aborted (error : JsError)              (* a stage threw *)
| LimitHit.                              (* the bound on steps was reached *)

(** [websiteGraph.invoke]: run the node, merge its update, follow the
    edge; at most [limit] nodes are run.  The nodes run are returned in
    order. *)
Fixpoint run (limit : nat) (n : Node) (state : WebsiteState) (w : World)
  : list Node * RunResult * World :=
  match limit with
  | O => ([], LimitHit, w)
  | S limit' =>
      match stage n state w with
      | (inl e, w') => ([n], Aborted e, w')
      | (inr update, w') =>
          let state' := merge state update in
          match next n state' with
          | END => ([n], Terminal state', w')
          | Goto n' =>
              let '(visited, r, w'') := run limit' n' state' w' in
              (n :: visited, r, w'')
          end
      end
  end.

(** A run that ended within [steps] nodes and [repairs] repairs, did not
    hit the bound, and whose final state, if any, has an iteration count
    of at most 3, and of exactly 3 when validation ran and left errors. *)
Definition Within (steps repairs : nat) (out : list Node * RunResult * World) : Prop :=
  let '(visited, r, _) := out in
  r ≠ LimitHit ∧
  (length visited ≤ steps)%nat ∧
  (count_occ Node_eq_dec visited repair_step ≤ repairs)%nat ∧
  ∀ final, r = Terminal final →
    (iterationCount final ≤ 3)%nat ∧
    (errors final ≠ [] → In validation_step visited → iterationCount final = 3).

(** From node [n] and any state whose iteration count is [c], every run
    with room for [steps] nodes ends [Within steps repairs]. *)
Definition Reaches (n : Node) (c steps repairs : nat) : Prop :=
  ∀ limit state w,
    (steps ≤ limit)%nat → iterationCount state = c →
    Within steps repairs (run limit n state w).

(** The step bound of the graph library (25 unless configured). *)
Variable recursionLimit : nat.

Definition GraphRecursionError : JsError :=
  {| message := Some "Recursion limit reached without hitting a stop condition" |}.

Definition invoke (initialState : WebsiteState) : Eff WebsiteState :=
  fun w =>
    match run recursionLimit intent_router initialState w with
    | (_, Terminal final, w') => (inr final, w')
    | (_, Aborted e, w') => (inl e, w')
    | (_, LimitHit, w') => (inl GraphRecursionError, w')
    end.

Record Generated := {
  resultFiles : gmap string GeneratedFile;
  resultErrors : list ValidationError;
  resultMessages : list string
}.

Definition initialState (prompt : string) (type : ProjectType) : WebsiteState :=
  {| userPrompt := prompt; projectType := type; requestIntent := None;
     isModification := false; blueprint := None; files := ∅; errors := [];
     iterationCount := 0; currentPhase := "init"; isComplete := false;
     messages := []; chatResponse := None; extra := ∅ |}.

Definition generateWebsite (prompt : string) (type : option ProjectType)
    (onFileGenerated onPhaseChange : option nat) : Eff Generated :=
  setFileCallback onFileGenerated;;
  setPhaseCallback onPhaseChange;;
  Eff.tryFinally
    (Eff.tryCatch
       (result ← invoke (initialState prompt (default frontend type));
        mret {| resultFiles := files result;
                resultErrors := errors result;
                resultMessages := messages result |})
       (fun error => Eff.throw error))
    (setFileCallback None;; setPhaseCallback None).

End WithEnvironment.

End Graph.

(** ** Statements about runs and about the process state *)

Module Paths.
Import Graph.

(** [rest] continues a path from [n] along edges of the graph. *)
Fixpoint chained (n : Node) (rest : list Node) : Prop :=
  match rest with
  | [] => True
  | n' :: rest' => (∃ state, next n state = Goto n') ∧ chained n' rest'
  end.

(** The nodes after which a run can end at [END]. *)
Definition isExit (n : Node) : bool :=
  match n with
  | chat_response | validation_step => true
  | _ => false
  end.

(** The nodes of the creation pipeline and of its repair loop. *)
Definition isGenerationNode (n : Node) : bool :=
  match n with
  | intent_router | chat_response | modification_analyzer => false
  | _ => true
  end.

End Paths.

(** ** More string primitives *)

Module JsText.

(** [s.split(sep)] for a one-character separator: never empty. *)
Fixpoint split (sep : ascii) (s : string) : list string :=
  match s with
  | EmptyString => [EmptyString]
  | String c s' =>
      if Ascii.eqb c sep then EmptyString :: split sep s'
      else
        match split sep s' with
        | part :: parts => String c part :: parts
        | [] => [String c EmptyString]
        end
  end.

(** [parts.join(sep)] *)
Definition join (sep : string) (parts : list string) : string :=
  String.concat sep parts.

(** [parts.pop()], read only. *)
Definition pop (parts : list string) : option string := last parts.

(** [s.endsWith(suffix)]: [suffix] is one of the tails of [s]. *)
Fixpoint endsWith (suffix s : string) : bool :=
  String.eqb suffix s ||
  match s with
  | EmptyString => false
  | String _ s' => endsWith suffix s'
  end.

(** [s.replace(/^\//, '')] *)
Definition dropLeadingSlash (s : string) : string :=
  match s with
  | String c rest => if Ascii.eqb c "/" then rest else s
  | EmptyString => EmptyString
  end.

(** [xs.findIndex(test)] *)
Fixpoint findIndex {A} (test : A -> bool) (xs : list A) : option nat :=
  match xs with
  | [] => None
  | x :: xs' => if test x then Some 0 else S <$> findIndex test xs'
  end.

(** [xs.find(test)] *)
Fixpoint find {A} (test : A -> bool) (xs : list A) : option A :=
  match xs with
  | [] => None
  | x :: xs' => if test x then Some x else find test xs'
  end.

End JsText.

(** ** src/index.ts: the server-sent-event stream of
    [/chat/langgraph-stream] *)

Module Stream.
Import Graph.

Inductive SseEvent :=
| MessageEvent (content phase : string)
| FileEvent (filePath fileContent phase : string)
| PhaseEvent (phase message : string)
| CompleteEvent (totalFiles remainingErrors : nat) (message : string)
| ErrorEvent (message : string).

(** [getPhaseMessage], by the table's own entries.  The phases are the
    names the graph announces; a phase named like a member every
    object has ([toString], [constructor], ...) is outside this model. *)
Definition getPhaseMessage (phase : string) : string :=
  if String.eqb phase "blueprint" then "Creating project blueprint..."
  else if String.eqb phase "structure" then "Setting up project structure..."
  else if String.eqb phase "core"
       then "Generating core files (main.tsx, App.tsx, layouts)..."
  else if String.eqb phase "components" then "Building UI components..."
  else if String.eqb phase "pages" then "Creating page components..."
  else if String.eqb phase "validation" then "Validating generated code..."
  else if String.eqb phase "repair" then "Fixing validation issues..."
  else String.concat EmptyString ["Processing "; phase; "..."].

(** What the two callbacks share: the paths already sent, the phase last
    announced, and the events written to the response so far. *)
Record StreamState := {
  sentFiles : gset string;
  currentPhase : string;
  written : list SseEvent
}.

Definition started : StreamState :=
  {| sentFiles := ∅;
     currentPhase := "blueprint";
     written :=
       [ MessageEvent
           "I'm analyzing your requirements and planning the website structure..."
           "thinking" ] |}.

(** A call received from the graph. *)
Inductive Callback :=
| OnFile (f : GeneratedFile)
| OnPhase (phase : string).

Definition onFileGenerated (st : StreamState) (f : GeneratedFile) : StreamState :=
  if decide (path f ∈ sentFiles st) then st
  else
    {| sentFiles := {[ path f ]} ∪ sentFiles st;
       currentPhase := currentPhase st;
       written := written st ++ [FileEvent (path f) (content f) (currentPhase st)] |}.

Definition onPhaseChange (st : StreamState) (phase : string) : StreamState :=
  {| sentFiles := sentFiles st;
     currentPhase := phase;
     written := written st ++ [PhaseEvent phase (getPhaseMessage phase)] |}.

Definition receive (st : StreamState) (call : Callback) : StreamState :=
  match call with
  | OnFile f => onFileGenerated st f
  | OnPhase phase => onPhaseChange st phase
  end.

(** The three characters that open the completion message in the
    source file, U+011F, U+0178 and U+2030, in UTF-8. *)
Definition completionMark : string :=
  String (ascii_of_nat 196) (String (ascii_of_nat 159)
    (String (ascii_of_nat 197) (String (ascii_of_nat 184)
      (String (ascii_of_nat 226) (String (ascii_of_nat 128)
        (String (ascii_of_nat 176) EmptyString)))))).

Definition closing (outcome : JsError + Generated) : SseEvent :=
  match outcome with
  | inr result =>
      CompleteEvent (size (resultFiles result)) (length (resultErrors result))
        (String.concat EmptyString
           [ completionMark; " Generated "; pretty (size (resultFiles result));
             " files successfully!" ])
  | inl error => ErrorEvent (orElse (message error) "Generation failed")
  end.

(** What the handler answers. *)
Inductive StreamResponse :=
| BadRequest (error : string)
| EventStream (events : list SseEvent).

(** The handler, given the calls its callbacks receive while
    [generateWebsite] runs and the way [generateWebsite] ends.  A
    missing or empty prompt is refused before anything is started. *)
Definition respond (prompt : option string) (calls : list Callback)
    (outcome : JsError + Generated) : StreamResponse :=
  match prompt with
  | None | Some EmptyString => BadRequest "Prompt is required"
  | Some _ =>
      EventStream (written (foldl receive started calls) ++ [closing outcome])
  end.

(** The paths of the file events, in the order written. *)
Definition streamedPaths (events : list SseEvent) : list string :=
  omap (fun e => match e with FileEvent p _ _ => Some p | _ => None end) events.

(** The callbacks keep the paths sent and the paths remembered in step. *)
Definition streamInvariant (st : StreamState) : Prop :=
  NoDup (streamedPaths (written st)) ∧
  ∀ p, p ∈ streamedPaths (written st) ↔ p ∈ sentFiles st.

(** The events the callbacks write. *)
Definition isProgress (e : SseEvent) : bool :=
  match e with
  | FileEvent _ _ _ | PhaseEvent _ _ => true
  | _ => false
  end.

End Stream.

(** ** src/index.ts and src/models/project.ts: stored project files *)

Module Project.
Import JsText.

(** [IProjectFile] *)
Record IProjectFile := {
  path : string;
  content : string
}.

Definition withContent (c : string) (f : IProjectFile) : IProjectFile :=
  {| path := path f; content := c |}.

(** [projectFileSchema]: both fields are required, and a required text
    has to be there and not empty. *)
Definition schemaAccepts (files : list IProjectFile) : bool :=
  forallb (fun f => negb (String.eqb (path f) EmptyString) &&
                    negb (String.eqb (content f) EmptyString)) files.

Definition validationFailed : JsError :=
  {| message := Some "Project validation failed" |}.

(** *** [PATCH /api/projects/:projectId/files] *)

(** One element of the request's [files] array. *)
Record FileUpdate := {
  updatePath : string;
  updateContent : string
}.

Definition normalizedPath (p : string) : string :=
  if startsWith "/" p then p else String "/" p.

(** The test of [findIndex] for an update at [p]. *)
Definition matchesUpdate (p : string) (f : IProjectFile) : bool :=
  String.eqb (path f) (normalizedPath p) ||
  String.eqb (path f) p ||
  String.eqb (String "/" (path f)) (normalizedPath p).

(** The body of the loop: overwrite the first matching file, or append
    a new one under the normalised path. *)
Definition applyUpdate (files : list IProjectFile) (update : FileUpdate)
  : list IProjectFile :=
  match findIndex (matchesUpdate (updatePath update)) files with
  | Some fileIndex => alter (withContent (updateContent update)) fileIndex files
  | None =>
      files ++ [ {| path := normalizedPath (updatePath update);
                    content := updateContent update |} ]
  end.

(** The loop: the files afterwards and [updatedCount]. *)
Definition applyUpdates (files : list IProjectFile) (updates : list FileUpdate)
  : list IProjectFile * nat :=
  foldl (fun acc update => (applyUpdate acc.1 update, S acc.2)) (files, 0) updates.

(** *** The merge loop of [POST /api/projects/:projectId/modify] (and of
    the chat endpoint) *)

(** [ModifiedFile] of the modification service. *)
Inductive ModifiedAction := modified | created.

#[global] Instance ModifiedAction_eq_dec : EqDecision ModifiedAction.
Proof. solve_decision. Defined.

Record ModifiedFile := {
  modifiedPath : string;
  modifiedContent : string;
  action : ModifiedAction
}.

(** [modified.path.split('/').pop() || ''] *)
Definition baseName (p : string) : string :=
  orElse (pop (split "/" p)) EmptyString.

Definition matchesModified (m : ModifiedFile) (f : IProjectFile) : bool :=
  String.eqb (path f) (modifiedPath m) ||
  endsWith (baseName (modifiedPath m)) (path f).

Definition applyModified (files : list IProjectFile) (m : ModifiedFile)
  : list IProjectFile :=
  match findIndex (matchesModified m) files with
  | Some fileIndex => alter (withContent (modifiedContent m)) fileIndex files
  | None =>
      match action m with
      | created => files ++ [ {| path := modifiedPath m; content := modifiedContent m |} ]
      | modified => files
      end
  end.

Definition mergeModified (files : list IProjectFile) (ms : list ModifiedFile)
  : list IProjectFile :=
  foldl applyModified files ms.

End Project.

(** ** src/unnamed/part_000, second document: the modification service *)

Module ModificationService.
Import JsText Project.

Inductive PlanAction := modify | create | delete.

Record FileModification := {
  modificationPath : string;
  modificationAction : PlanAction;
  reason : string
}.

Record ModificationPlan := {
  filesToModify : list FileModification;
  summary : string
}.

(** [s.slice(n)] and [s.slice(0, -n)] *)
Definition sliceFrom (n : nat) (s : string) : string :=
  String.substring n (String.length s - n) s.

Definition sliceButLast (n : nat) (s : string) : string :=
  String.substring 0 (String.length s - n) s.

(** [content.match(/\{[\s\S]*\}/)]: from the first opening brace to the
    last closing brace after it. *)
Fixpoint fromFirstBrace (s : string) : option string :=
  match s with
  | EmptyString => None
  | String c s' => if Ascii.eqb c "{" then Some s else fromFirstBrace s'
  end.

Fixpoint upToLastBrace (s : string) : option string :=
  match s with
  | EmptyString => None
  | String c s' =>
      match upToLastBrace s' with
      | Some t => Some (String c t)
      | None => if Ascii.eqb c "}" then Some (String c EmptyString) else None
      end
  end.

Definition matchJsonObject (content : string) : option string :=
  match fromFirstBrace content with
  | Some s => upToLastBrace s
  | None => None
  end.

(** The text handed to [JSON.parse] by [analyzeModificationRequest]. *)
Definition cleanPlanText (response : string) : string :=
  let c0 := trim response in
  let c1 := if startsWith "```json" c0 then sliceFrom 7 c0 else c0 in
  let c2 := if startsWith "```" c1 then sliceFrom 3 c1 else c1 in
  let c3 := if endsWith "```" c2 then sliceButLast 3 c2 else c2 in
  let c4 := trim c3 in
  match matchJsonObject c4 with
  | Some jsonMatch => jsonMatch
  | None => c4
  end.

(** [code.split('\n').slice(1).join('\n')] *)
Definition withoutFirstLine (code : string) : string :=
  join (String lineFeed EmptyString) (tail (split lineFeed code)).

Definition withoutClosingFence (code : string) : string :=
  if endsWith "```" code then trim (sliceButLast 3 code) else code.

(** What [generateNewFile] makes of the model's answer. *)
Definition cleanNewFile (response : string) : string :=
  let code := trim response in
  let code :=
    if startsWith "```typescript" code || startsWith "```tsx" code
    then withoutFirstLine code else code in
  withoutClosingFence code.

(** What [modifyExistingFile] makes of the model's answer. *)
Definition cleanModifiedFile (response : string) : string :=
  let code := trim response in
  let code :=
    if startsWith "```typescript" code || startsWith "```tsx" code ||
       startsWith "```" code
    then withoutFirstLine code else code in
  withoutClosingFence code.

(** The plan returned when the analysis fails. *)
Definition analysisFailed : Json :=
  JObj [ ("filesToModify", JArr []); ("summary", JStr "Analysis failed") ].

(** [plan.filesToModify], as the log line inside the [try] and the
    endpoint read it for its length: it is there for an object that has
    it, and reading the length of [null] or of nothing throws. *)
Definition filesToModifyOf (plan : Json) : JsError + Json :=
  match plan with
  | JNull => inl (TypeError "Cannot read properties of null (reading 'filesToModify')")
  | JObj fields =>
      match property "filesToModify" fields with
      | Some JNull =>
          inl (TypeError "Cannot read properties of null (reading 'length')")
      | Some toModify => inr toModify
      | None => inl (TypeError "Cannot read properties of undefined (reading 'length')")
      end
  | _ => inl (TypeError "Cannot read properties of undefined (reading 'length')")
  end.

(** [plan.filesToModify.length === 0] *)
Definition lengthIsZero (toModify : Json) : bool :=
  match toModify with
  | JArr [] | JStr EmptyString => true
  | JObj fields =>
      match property "length" fields with
      | Some (JNum 0) => true
      | _ => false
      end
  | _ => false
  end.

(** What [for (const modification of plan.filesToModify)] goes through.
    A text is gone through character by character, and a character has
    no action: the loop does nothing with it. *)
Definition entriesOf (toModify : Json) : JsError + list Json :=
  match toModify with
  | JArr items => inr items
  | JStr _ => inr []
  | _ => inl (TypeError "plan.filesToModify is not iterable")
  end.

(** [plan.summary] *)
Definition summaryOf (plan : Json) : option Json :=
  match plan with
  | JObj fields => property "summary" fields
  | _ => None
  end.

(** A property that may be missing, in a template text. *)
Definition stringifiableIfThere (value : option Json) : bool :=
  match value with
  | Some v => stringifiable v
  | None => true
  end.

Definition textOf (value : option Json) : string :=
  match value with
  | Some v => toStringJs v
  | None => "undefined"
  end.

Section WithEnvironment.

(** [invokeLLM] of agents/langgraph/llm-utils: the outcome of the k-th
    request of the process. *)
Variable invokeLLM : nat -> JsError + string.
Variable JSON_parse : string -> JsError + Json.
(** The write of [project.save()], once the schema has accepted the
    project. *)
Variable writeProject : list IProjectFile -> JsError + unit.

Definition askModel : Eff string :=
  fun w => (invokeLLM (requests w), set_requests (S (requests w)) w).

(** [JSON.parse] followed by the read of [plan.filesToModify.length]. *)
Definition parsePlan (cleanContent : string) : JsError + Json :=
  match JSON_parse cleanContent with
  | inl e => inl e
  | inr plan =>
      match filesToModifyOf plan with
      | inl e => inl e
      | inr _ => inr plan
      end
  end.

Definition analyzeModificationRequest (modificationRequest : string)
    (files : list IProjectFile) : Eff Json :=
  Eff.tryCatch
    (response ← askModel;
     match parsePlan (cleanPlanText response) with
     | inl e => Eff.throw e
     | inr plan => mret plan
     end)
    (fun error => mret analysisFailed).

(** [generateNewFile] and [modifyExistingFile]: the cleaned code, or
    [None] for [null]. *)
Definition generateNewFile (filePath request : string) : Eff (option string) :=
  Eff.tryCatch
    (response ← askModel; mret (Some (cleanNewFile response)))
    (fun error => mret None).

Definition modifyExistingFile (filePath currentContent request reason : string)
  : Eff (option string) :=
  Eff.tryCatch
    (response ← askModel; mret (Some (cleanModifiedFile response)))
    (fun error => mret None).

(** One turn of the loop of [applyModifications]: what it pushes.  The
    plan has the shape [ModificationPlan] declares: every entry has a
    path, an action and a reason. *)
Definition applyOne (modificationRequest : string) (files : list IProjectFile)
    (modification : FileModification) : Eff (list ModifiedFile) :=
  match modificationAction modification with
  | create =>
      generated ← generateNewFile (modificationPath modification) modificationRequest;
      match generated with
      | Some (String c code) =>
          mret [ {| modifiedPath := modificationPath modification;
                    modifiedContent := String c code;
                    action := created |} ]
      | _ => mret []
      end
  | modify =>
      match find (fun f => String.eqb (path f) (modificationPath modification) ||
                           endsWith (modificationPath modification) (path f))
                 files with
      | Some existingFile =>
          newContent ←
            modifyExistingFile (path existingFile) (content existingFile)
              modificationRequest (reason modification);
          match newContent with
          | Some (String c code) =>
              if String.eqb (String c code) (content existingFile) then mret []
              else
                mret [ {| modifiedPath := path existingFile;
                          modifiedContent := String c code;
                          action := modified |} ]
          | _ => mret []
          end
      | None => mret []
      end
  | delete => mret []
  end.

Fixpoint applyEach (modificationRequest : string) (files : list IProjectFile)
    (modifications : list FileModification) : Eff (list ModifiedFile) :=
  match modifications with
  | [] => mret []
  | modification :: rest =>
      pushed ← applyOne modificationRequest files modification;
      later ← applyEach modificationRequest files rest;
      mret (pushed ++ later)%list
  end.

Definition applyModifications (modificationRequest : string)
    (plan : ModificationPlan) (files : list IProjectFile) : Eff (list ModifiedFile) :=
  applyEach modificationRequest files (filesToModify plan).

(** *** [applyModifications] on whatever [JSON.parse] returned

    The definitions above take a plan of the declared shape.  The plan
    is what the model wrote: the loop below takes any value. *)

(** [files.find(f => f.path === path || f.path.endsWith(path))] *)
Definition findExisting (files : list IProjectFile) (pathValue : option Json)
  : option IProjectFile :=
  match pathValue with
  | Some (JStr filePath) =>
      find (fun f => String.eqb (path f) filePath || endsWith filePath (path f)) files
  | _ => find (fun f => endsWith (textOf pathValue) (path f)) files
  end.

(** One turn of the loop.  The log line puts the action and the path of
    the entry into a text; [generateNewFile] splits the path before its
    [try]; [modifyExistingFile] puts the reason into a text before its
    [try]. *)
Definition applyOneRaw (modificationRequest : string) (files : list IProjectFile)
    (modification : Json) : Eff (list ModifiedFile) :=
  match modification with
  | JNull => Eff.throw (TypeError "Cannot read properties of null (reading 'action')")
  | JObj fields =>
      if negb (stringifiableIfThere (property "action" fields) &&
               stringifiableIfThere (property "path" fields))
      then Eff.throw notStringifiable
      else
        match property "action" fields with
        | Some (JStr word) =>
            if String.eqb word "create" then
              match property "path" fields with
              | Some (JStr filePath) =>
                  generated ← generateNewFile filePath modificationRequest;
                  match generated with
                  | Some (String c code) =>
                      mret [ {| modifiedPath := filePath;
                                modifiedContent := String c code;
                                action := created |} ]
                  | _ => mret []
                  end
              | _ => Eff.throw (TypeError "filePath.split is not a function")
              end
            else if String.eqb word "modify" then
              match findExisting files (property "path" fields) with
              | Some existingFile =>
                  if negb (stringifiableIfThere (property "reason" fields))
                  then Eff.throw notStringifiable
                  else
                    newContent ←
                      modifyExistingFile (path existingFile) (content existingFile)
                        modificationRequest (textOf (property "reason" fields));
                    match newContent with
                    | Some (String c code) =>
                        if String.eqb (String c code) (content existingFile) then mret []
                        else
                          mret [ {| modifiedPath := path existingFile;
                                    modifiedContent := String c code;
                                    action := modified |} ]
                    | _ => mret []
                    end
              | None => mret []
              end
            else mret []
        | _ => mret []
        end
  | _ => mret []
  end.

Fixpoint applyEachRaw (modificationRequest : string) (files : list IProjectFile)
    (modifications : list Json) : Eff (list ModifiedFile) :=
  match modifications with
  | [] => mret []
  | modification :: rest =>
      pushed ← applyOneRaw modificationRequest files modification;
      later ← applyEachRaw modificationRequest files rest;
      mret (pushed ++ later)%list
  end.

Definition applyModificationsRaw (modificationRequest : string)
    (toModify : Json) (files : list IProjectFile) : Eff (list ModifiedFile) :=
  match entriesOf toModify with
  | inl e => Eff.throw e
  | inr modifications => applyEachRaw modificationRequest files modifications
  end.

(** *** [POST /api/projects/:projectId/modify] *)

Inductive Reply :=
| MissingRequest                       (* 400 *)
| ProjectNotFound                      (* 404 *)
| NoModificationsNeeded                (* success, nothing modified *)
| Applied (modifiedFiles : list ModifiedFile) (planSummary : option Json)
          (updatedFileCount : nat)
| Failed (details : option string).    (* 500 *)

(** [project.save()]: the schema first, then the write. *)
Definition saveProject (files : list IProjectFile) : Eff unit :=
  fun w =>
    (if schemaAccepts files then writeProject files else inl validationFailed, w).

(** The handler once the request is there and the project found: its
    answer and, when it saved, the files it saved. *)
Definition modifyProject (modificationRequest : string) (files : list IProjectFile)
  : Eff (Reply * option (list IProjectFile)) :=
  plan ← analyzeModificationRequest modificationRequest files;
  match filesToModifyOf plan with
  | inl e => Eff.throw e
  | inr toModify =>
      if lengthIsZero toModify then mret (NoModificationsNeeded, None)
      else
        modifiedFiles ← applyModificationsRaw modificationRequest toModify files;
        let saved := mergeModified files modifiedFiles in
        saveProject saved;;
        mret (Applied modifiedFiles (summaryOf plan) (length saved), Some saved)
  end.

(** [catch (error) { res.status(500).json({ ..., details: error.message }) }] *)
Definition answering (body : Eff (Reply * option (list IProjectFile)))
  : Eff (Reply * option (list IProjectFile)) :=
  Eff.tryCatch body (fun error => mret (Failed (message error), None)).

(** The endpoint for a request that is a text, given the project the
    database holds under the id. *)
Definition modifyEndpoint (modificationRequest : option string)
    (project : option (list IProjectFile))
  : Eff (Reply * option (list IProjectFile)) :=
  match modificationRequest with
  | None | Some EmptyString => mret (MissingRequest, None)
  | Some request =>
      match project with
      | None => mret (ProjectNotFound, None)
      | Some files => answering (modifyProject request files)
      end
  end.

(** The endpoint for whatever the body of the request holds under
    [modificationRequest], and whatever the lookup of the project does.
    A falsy value is refused before the lookup.  After the lookup the
    handler logs [modificationRequest.slice(0, 100)]: a text and an array
    have a [slice], no other value has; an array goes into the prompts
    as the text it turns into. *)
Definition modifyHandler (modificationRequest : option Json)
    (lookup : JsError + option (list IProjectFile))
  : Eff (Reply * option (list IProjectFile)) :=
  match modificationRequest with
  | None => mret (MissingRequest, None)
  | Some value =>
      if negb (truthy value) then mret (MissingRequest, None)
      else
        match lookup with
        | inl e => mret (Failed (message e), None)
        | inr None => mret (ProjectNotFound, None)
        | inr (Some files) =>
            match value with
            | JStr request => answering (modifyProject request files)
            | JArr _ =>
                if stringifiable value
                then answering (modifyProject (toStringJs value) files)
                else mret (Failed (message notStringifiable), None)
            | _ =>
                mret (Failed (Some "modificationRequest.slice is not a function"), None)
            end
        end
  end.

End WithEnvironment.

(** The number of plan entries that ask the model for code. *)
Definition asksModel (m : FileModification) : bool :=
  match modificationAction m with
  | delete => false
  | _ => true
  end.

(** An entry of the declared shape, as [JSON.parse] returns it. *)
Definition actionWord (a : PlanAction) : string :=
  match a with
  | modify => "modify"
  | create => "create"
  | delete => "delete"
  end.

Definition entryJson (m : FileModification) : Json :=
  JObj [ ("path", JStr (modificationPath m));
         ("action", JStr (actionWord (modificationAction m)));
         ("reason", JStr (reason m)) ].

End ModificationService.

(** ** src/scripts/normalize-december-projects.ts *)

Module Migration.
Import JsText Project.

Definition SRC_FILES : list string :=
  [ "App.tsx"; "App.jsx"; "App.ts"; "App.js";
    "main.tsx"; "main.jsx"; "main.ts"; "main.js";
    "index.css"; "index.tsx"; "index.ts"; "vite-env.d.ts" ].

Definition SRC_FOLDERS : list string :=
  [ "components/"; "pages/"; "lib/"; "utils/"; "hooks/"; "context/";
    "services/"; "types/"; "assets/"; "styles/"; "layouts/"; "features/";
    "api/"; "store/"; "data/" ].

Definition ROOT_FILES : list string :=
  [ "package.json"; "package-lock.json"; "index.html";
    "vite.config.ts"; "vite.config.js"; "tsconfig.json"; "tsconfig.node.json";
    "tailwind.config.js"; "tailwind.config.ts";
    "postcss.config.js"; "postcss.config.cjs"; "eslint.config.js";
    ".eslintrc.js"; ".eslintrc.cjs"; ".gitignore"; "README.md" ].

Definition isRootFile (cleanPath : string) : bool :=
  some (fun rf => String.eqb cleanPath rf) ROOT_FILES.

Definition shouldBeInSrc (cleanPath : string) : bool :=
  some (fun sf => String.eqb cleanPath sf) SRC_FILES ||
  some (fun folder => startsWith folder cleanPath) SRC_FOLDERS.

Definition alreadyNormalized (files : list IProjectFile) : bool :=
  some (fun f => startsWith "/src/" (path f) || startsWith "src/" (path f)) files.

Definition hasSrcFiles (files : list IProjectFile) : bool :=
  some (fun f => shouldBeInSrc (dropLeadingSlash (path f))) files.

(** The callback of [files.map]. *)
Definition normalizeFile (file : IProjectFile) : IProjectFile :=
  let p := if startsWith "/" (path file) then path file else String "/" (path file) in
  let cleanPath := dropLeadingSlash p in
  if isRootFile cleanPath then {| path := p; content := content file |}
  else if shouldBeInSrc cleanPath
       then {| path := "/src/" +:+ cleanPath; content := content file |}
       else {| path := p; content := content file |}.

(** What the loop does with one project. *)
Inductive Outcome :=
| SkippedNoFiles
| SkippedAlreadyNormalized
| SkippedNotReact
| Normalized (normalizedFiles : list IProjectFile).

Definition normalizeProject (files : list IProjectFile) : Outcome :=
  match files with
  | [] => SkippedNoFiles
  | _ =>
      if alreadyNormalized files then SkippedAlreadyNormalized
      else if negb (hasSrcFiles files) then SkippedNotReact
      else Normalized (map normalizeFile files)
  end.

End Migration.

(** ** src/index.ts: the paths of [POST /api/projects/upload] *)

Module ZipImport.
Import JsText.

Definition backslash : ascii := ascii_of_nat 92.

Definition textExtensions : list string :=
  [ ".tsx"; ".ts"; ".jsx"; ".js"; ".css"; ".html"; ".json"; ".md"; ".txt";
    ".svg"; ".xml"; ".yaml"; ".yml"; ".env"; ".gitignore" ].

(** The entry name without its first folder, when that folder has no
    dot in its name. *)
Definition withoutRootFolder (entryName : string) : string :=
  let parts := split "/" entryName in
  if (1 <? length parts)%nat then
    match parts with
    | firstPart :: others =>
        if negb (includes "." firstPart) then join "/" others else entryName
    | [] => entryName
    end
  else entryName.

(** ['.' + entryName.split('.').pop()?.toLowerCase()] *)
Definition extensionOf (entryName : string) : string :=
  String "." (toLowerCase (default EmptyString (pop (split "." entryName)))).

(** [entryName.replace(/\\/g, '/')] *)
Fixpoint slashes (s : string) : string :=
  match s with
  | EmptyString => EmptyString
  | String c s' => String (if Ascii.eqb c backslash then "/"%char else c) (slashes s')
  end.

(** The stored path of a zip entry whose data decodes, or [None] when
    the entry is skipped for its name. *)
Definition importedPath (isDirectory : bool) (entryName : string) : option string :=
  if isDirectory then None
  else
    let name := withoutRootFolder entryName in
    match name with
    | EmptyString => None
    | _ =>
        if startsWith "." name then None
        else if negb (some (String.eqb (extensionOf name)) textExtensions) then None
        else Some (String "/" (slashes name))
    end.

End ZipImport.

(** ** blueprint-node.ts: what is read off the detailed context *)

Module BlueprintContext.

Record Component := {
  componentName : string;
  componentType : string;
  props : list string
}.

Definition component (name type : string) (props : list string) : Component :=
  {| componentName := name; componentType := type; props := props |}.

Definition baseComponents : list Component :=
  [ component "Button" "ui" ["children"; "variant"; "size"; "onClick"; "disabled"; "loading"];
    component "Card" "ui" ["children"; "className"; "hover"];
    component "Input" "ui" ["placeholder"; "value"; "onChange"; "type"; "error"];
    component "Modal" "ui" ["isOpen"; "onClose"; "title"; "children"];
    component "Badge" "ui" ["children"; "variant"; "size"];
    component "Avatar" "ui" ["src"; "alt"; "size"; "fallback"];
    component "Skeleton" "ui" ["width"; "height"; "className"];
    component "Spinner" "ui" ["size"; "className"];
    component "Toast" "ui" ["message"; "type"; "duration"];
    component "Tooltip" "ui" ["content"; "children"; "position"];
    component "Tabs" "ui" ["tabs"; "activeTab"; "onChange"];
    component "Accordion" "ui" ["items"; "allowMultiple"];
    component "Dropdown" "ui" ["trigger"; "items"; "onSelect"] ].

Definition layoutComponents : list Component :=
  [ component "Header" "layout" ["logo"; "navItems"; "sticky"];
    component "Footer" "layout" ["links"; "social"; "copyright"];
    component "Sidebar" "layout" ["items"; "collapsed"; "onToggle"];
    component "Container" "layout" ["children"; "maxWidth"; "className"];
    component "Section" "layout" ["children"; "id"; "className"; "background"] ].

Definition shopComponents : list Component :=
  [ component "ProductCard" "feature" ["product"; "onAddToCart"];
    component "ProductGrid" "feature" ["products"; "columns"];
    component "FilterBar" "feature" ["filters"; "onFilterChange"];
    component "CartItem" "feature" ["item"; "onRemove"; "onQuantityChange"] ].

Definition reviewComponents : list Component :=
  [ component "TestimonialCard" "feature" ["testimonial"];
    component "TestimonialSlider" "feature" ["testimonials"; "autoPlay"];
    component "RatingStars" "feature" ["rating"; "maxStars"] ].

Definition pricingComponents : list Component :=
  [ component "PricingCard" "feature" ["plan"; "popular"; "onSelect"];
    component "PricingTable" "feature" ["plans"; "features"];
    component "FeatureCheck" "feature" ["feature"; "included"] ].

Definition dashboardComponents : list Component :=
  [ component "StatCard" "feature" ["title"; "value"; "change"; "icon"];
    component "Chart" "feature" ["data"; "type"; "options"];
    component "ActivityFeed" "feature" ["activities"; "maxItems"] ].

Definition blogComponents : list Component :=
  [ component "BlogCard" "feature" ["post"; "compact"];
    component "BlogPost" "feature" ["content"; "author"; "date"];
    component "AuthorCard" "feature" ["author"] ].

Definition formComponents : list Component :=
  [ component "ContactForm" "feature" ["onSubmit"; "fields"];
    component "NewsletterForm" "feature" ["onSubscribe"] ].

Definition teamComponents : list Component :=
  [ component "TeamMember" "feature" ["member"];
    component "TeamGrid" "feature" ["members"; "columns"] ].

Definition alwaysComponents : list Component :=
  [ component "Hero" "feature" ["title"; "subtitle"; "cta"; "image"];
    component "CallToAction" "feature" ["title"; "description"; "buttonText"; "onAction"];
    component "FeatureGrid" "feature" ["features"; "columns"];
    component "FeatureCard" "feature" ["icon"; "title"; "description"] ].

(** The group, when one of the two words occurs in the context. *)
Definition when (contextLower a b : string) (group : list Component) : list Component :=
  if includes a contextLower || includes b contextLower then group else [].

Definition extractComponentsFromContext (context : string) : list Component :=
  let contextLower := toLowerCase context in
  let featureComponents :=
    (when contextLower "product" "shop" shopComponents ++
     when contextLower "testimonial" "review" reviewComponents ++
     when contextLower "pricing" "plan" pricingComponents ++
     when contextLower "dashboard" "stat" dashboardComponents ++
     when contextLower "blog" "article" blogComponents ++
     when contextLower "contact" "form" formComponents ++
     when contextLower "team" "member" teamComponents ++
     alwaysComponents)%list in
  (layoutComponents ++ baseComponents ++ featureComponents)%list.

(** *** [extractDesignSystem] *)

Record DesignSystem := {
  primaryColor : string;
  secondaryColor : string;
  accentColor : string;
  style : string;
  fonts : list string
}.

Definition isHexDigit (c : ascii) : bool :=
  let n := nat_of_ascii c in
  ((48 <=? n) && (n <=? 57) || (65 <=? n) && (n <=? 70) ||
   (97 <=? n) && (n <=? 102))%nat.

(** [context.match(/(#[0-9A-Fa-f]{6})/g)], as the list of matches. *)
Fixpoint hexColours (s : string) : list string :=
  match s with
  | EmptyString => []
  | String c tl =>
      if Ascii.eqb c "#" then
        match tl with
        | String a (String b (String d (String e (String f (String g rest))))) =>
            if isHexDigit a && isHexDigit b && isHexDigit d &&
               isHexDigit e && isHexDigit f && isHexDigit g
            then
              String c (String a (String b (String d (String e (String f
                 (String g EmptyString)))))) :: hexColours rest
            else hexColours tl
        | _ => hexColours tl
        end
      else hexColours tl
  end.

Definition styleOf (contextLower : string) : string :=
  if includes "minimal" contextLower || includes "clean" contextLower then "minimal"
  else if includes "playful" contextLower || includes "fun" contextLower ||
          includes "colorful" contextLower then "playful"
  else if includes "corporate" contextLower || includes "professional" contextLower ||
          includes "business" contextLower then "corporate"
  else if includes "dark" contextLower || includes "modern" contextLower then "modern"
  else "modern".

Definition extractDesignSystem (context : string) : DesignSystem :=
  let colorMatch := hexColours context in
  let '(primary, secondary, accent) :=
    match colorMatch with
    | first :: second :: more =>
        (first, second, match more with third :: _ => third | [] => "#10b981" end)
    | _ => ("#6366f1", "#8b5cf6", "#10b981")
    end in
  {| primaryColor := primary;
     secondaryColor := secondary;
     accentColor := accent;
     style := styleOf (toLowerCase context);
     fonts := ["Inter"; "system-ui"; "sans-serif"] |}.

(** A colour code: a hash sign and six hexadecimal digits. *)
Definition isHexColour (s : string) : bool :=
  match s with
  | String c (String a (String b (String d (String e (String f
      (String g EmptyString)))))) =>
      Ascii.eqb c "#" && isHexDigit a && isHexDigit b && isHexDigit d &&
      isHexDigit e && isHexDigit f && isHexDigit g
  | _ => false
  end.

End BlueprintContext.

(** ** Concrete inputs used to exercise the statements below *)

Module Samples.

Definition appFile : GeneratedFile :=
  {| path := "src/App.tsx"; content := "export default App"; exports := None |}.

Definition missingImport : ValidationError :=
  {| file := "src/App.tsx"; errorMessage := "missing import"; severity := None |}.

Definition bakery : ProjectBlueprint :=
  {| projectName := "bakery"; description := "a bakery site"; features := [];
     pages := []; components := []; designSystem := JNull; dependencies := [] |}.

Definition threeKeys : list string := ["key-a"; "key-b"; "key-c"].

(** A first request on an empty workspace, worded with keywords of both
    lists. *)
Definition freshRequest : WebsiteState :=
  {| userPrompt := "Where is the hero? Please add a page and change it";
     projectType := frontend; requestIntent := None; isModification := false;
     blueprint := None; files := ∅; errors := []; iterationCount := 0;
     currentPhase := "init"; isComplete := false; messages := [];
     chatResponse := None; extra := ∅ |}.

(** A follow-up on a project that has one file. *)
Definition followUp : WebsiteState :=
  {| userPrompt := "Tell me about the routes";
     projectType := frontend; requestIntent := None; isModification := false;
     blueprint := None; files := {[ "src/App.tsx" := appFile ]}; errors := [];
     iterationCount := 0; currentPhase := "init"; isComplete := false;
     messages := []; chatResponse := None; extra := ∅ |}.

(** The word "Explain" behind a no-break space (U+00A0) and a space,
    and in front of a line separator (U+2028). *)
Definition wrappedExplain : string :=
  String (ascii_of_nat 194) (String (ascii_of_nat 160)
    (" Explain" +:+
     String (ascii_of_nat 226) (String (ascii_of_nat 128)
       (String (ascii_of_nat 168) EmptyString)))).

(** A model whose first two requests are refused and whose later ones
    answer with one word. *)
Definition flakyModel : Model :=
  fun k =>
    match k with
    | 0 | 1 => inl {| message := Some "429 Too Many Requests" |}
    | _ => inr [Some wrappedExplain]
    end.

(** A model that refuses every request. *)
Definition deadModel : Model :=
  fun _ => inl {| message := Some "503 overloaded" |}.

(** A model that fails in three ways in turn: the request is refused,
    the answer holds no array, the answer holds an array that does not
    parse. *)
Definition unhelpfulModel : Model :=
  fun k =>
    match k with
    | 0 => inl {| message := Some "429 Too Many Requests" |}
    | 1 => inr [Some "I cannot list pages for this project."]
    | _ => inr [Some "Here you go: [HomePage, AboutPage]"]
    end.

Definition strictParse (s : string) : JsError + Json :=
  if String.eqb s "[]" then inr (JArr [])
  else inl {| message := Some "Unexpected token in JSON" |}.

(** A catalogue with one component, a parser that knows one answer, and
    two behaviours of the retrying client: one refused call (three
    requests) followed by answers, and refusals only. *)
Definition catalogue : gmap string UIService.CatalogueEntry :=
  {[ "Aurora" :=
       {| UIService.entryDescription := "Flowing aurora background";
          UIService.entryCodesnippet := "export const Aurora = () => null";
          UIService.entryDependencies := "ogl" |} ]}.

Definition parseSelection (s : string) : JsError + Json :=
  if String.eqb s "ok"
  then inr (JObj [("selectedComponents", JArr [JStr "Aurora"; JStr "Unknown"])])
  else inl {| message := Some "Unexpected token in JSON" |}.

Definition stringify (components : list UI.UIComponent) : string :=
  pretty (length components).

Definition recoveringClient : nat -> (JsError + ChatResponse) * nat :=
  fun issued =>
    match issued with
    | 0 => (inl {| message := Some "429 quota exceeded" |}, 3)
    | _ => (inr [Some "```json ok ```"], 1)
    end.

Definition refusingClient : nat -> (JsError + ChatResponse) * nat :=
  fun _ => (inl {| message := Some "503 overloaded" |}, 3).

(** Stage work for the graph: a plan, an analysis, one generated file
    per stage, a repair that rewrites that file, and a validation that
    reports the same error on every pass. *)
Definition plan : WebsiteState -> Eff (ProjectBlueprint * gmap string Json * list string) :=
  fun _ => mret (bakery, ∅, ["planned"]).

Definition analyse : WebsiteState -> Eff (gmap string Json * list string) :=
  fun _ => mret (∅, ["analysed"]).

Definition oneFile : Graph.Node -> WebsiteState -> Eff (list GeneratedFile * list string) :=
  fun _ _ => mret ([appFile], []).

Definition neverValid : WebsiteState -> Eff (list ValidationError * list string) :=
  fun _ => mret ([missingImport], []).

Definition rewriteFile : WebsiteState -> Eff (list GeneratedFile * list string) :=
  fun _ => mret ([appFile], []).

(** A project whose three repairs are used up, and the update of a
    validation pass that still finds the error. *)
Definition exhausted : WebsiteState :=
  {| userPrompt := "a bakery site";
     projectType := frontend; requestIntent := Some create; isModification := false;
     blueprint := Some bakery; files := {[ "src/App.tsx" := appFile ]}; errors := [];
     iterationCount := 3; currentPhase := "repair"; isComplete := false;
     messages := []; chatResponse := None; extra := ∅ |}.

Definition stillFailing : Partial :=
  {| pRequestIntent := None; pIsModification := None; pBlueprint := None;
     pFiles := None; pErrors := Some [missingImport]; pIterationCount := None;
     pCurrentPhase := Some "validation"; pMessages := Some [];
     pChatResponse := None; pExtra := ∅ |}.

End Samples.

(** ** More concrete inputs *)

Module MoreSamples.

(** A model whose first request is refused and whose second answer
    holds an empty array. *)
Definition lateModel : Model :=
  fun k =>
    match k with
    | 0 => inl {| message := Some "429 Too Many Requests" |}
    | _ => inr [Some "No pages are needed: [] is the list."]
    end.

(** A model that answers every request without an array. *)
Definition chattyModel : Model :=
  fun _ => inr [Some "I cannot list pages for this project."].

Definition storedApp : Project.IProjectFile :=
  {| Project.path := "/src/App.tsx"; Project.content := "export default App" |}.

(** A project as the zip import left it: no [src] folder. *)
Definition importedProject : list Project.IProjectFile :=
  [ {| Project.path := "/components/Hero.tsx"; Project.content := "hero" |};
    {| Project.path := "package.json"; Project.content := "{}" |};
    {| Project.path := "/notes/todo.md"; Project.content := "todo" |} ].

Definition normalizedProject : list Project.IProjectFile :=
  [ {| Project.path := "/src/components/Hero.tsx"; Project.content := "hero" |};
    {| Project.path := "/package.json"; Project.content := "{}" |};
    {| Project.path := "/notes/todo.md"; Project.content := "todo" |} ].

(** A text generator that refuses every request, and a plan parser. *)
Definition refusingLLM : nat -> JsError + string :=
  fun _ => inl {| message := Some "503 overloaded" |}.

Definition noPlan (s : string) : JsError + Json :=
  inl {| message := Some "Unexpected token in JSON" |}.

(** A database that writes what it is given. *)
Definition writing (files : list Project.IProjectFile) : JsError + unit := inr tt.

End MoreSamples.

(** * Properties *)

Local Open Scope nat_scope.

(** ** Key rotation *)

Lemma rotate_in_range poolSize index :
  0 < poolSize → index < poolSize → rotate poolSize index < poolSize.
Proof.
  intros Hpool Hidx. unfold rotate.
  destruct (1 <? poolSize) eqn:E; [|assumption].
  apply Nat.mod_upper_bound. lia.
Qed.

Lemma rotate_iter poolSize index k :
  0 < poolSize → index < poolSize →
  Nat.iter k (rotate poolSize) index = (index + k) mod poolSize.
Proof.
  intros Hpool Hidx. induction k as [|k IH]; simpl.
  - rewrite Nat.add_0_r. symmetry. apply Nat.mod_small. assumption.
  - rewrite IH. unfold rotate.
    destruct (1 <? poolSize) eqn:E.
    + rewrite Nat.Div0.add_mod_idemp_l. f_equal. lia.
    + apply Nat.ltb_ge in E. assert (poolSize = 1) as -> by lia.
      rewrite !Nat.mod_1_r. reflexivity.
Qed.

(** ** The intent router *)

Section IntentRouterFacts.

Import IntentRouter.

Variable apiKeys : list string.
Variable model : Model.

(** One iteration of the loop. *)
Lemma attempts_step hE hM hQ remaining attempt w :
  attempts apiKeys model hE hM hQ (S remaining) attempt w =
    match apiKeys !! routerKeyIndex w with
    | None => afterFailure apiKeys model hE hM hQ remaining attempt w
    | Some _ =>
        match model (requests w) with
        | inr (content :: _) =>
            (inr (decided (intentOfContent hQ content)), set_requests (S (requests w)) w)
        | _ =>
            afterFailure apiKeys model hE hM hQ remaining attempt
              (set_requests (S (requests w)) w)
        end
    end.
Proof.
  cbn [attempts].
  unfold afterFailure, Eff.tryCatch, mbind, Eff_bind, Eff.bind, getClient,
    chatCompletionsCreate, rotateApiKey, Eff.modifyWorld, Eff.throw, Eff.sleep,
    Eff.ret.
  destruct (apiKeys !! routerKeyIndex w); cbv beta iota.
  - destruct (model (requests w)) as [e|[|c r]]; cbv beta iota;
      try reflexivity; destruct (attempt <? maxRetries); reflexivity.
  - destruct (attempt <? maxRetries); reflexivity.
Qed.

Lemma key_in_pool w :
  routerKeyIndex w < length apiKeys → is_Some (apiKeys !! routerKeyIndex w).
Proof. apply lookup_lt_is_Some_2. Qed.

Lemma attempts_success hE hM hQ remaining attempt w content rest :
  routerKeyIndex w < length apiKeys →
  model (requests w) = inr (content :: rest) →
  attempts apiKeys model hE hM hQ (S remaining) attempt w =
    (inr (decided (intentOfContent hQ content)), set_requests (S (requests w)) w).
Proof.
  intros Hkey Hm. rewrite attempts_step.
  destruct (key_in_pool w Hkey) as [key ->]. rewrite Hm. reflexivity.
Qed.

Lemma attempts_failure hE hM hQ remaining attempt w :
  routerKeyIndex w < length apiKeys →
  attemptFailed (model (requests w)) = true →
  attempt < maxRetries →
  attempts apiKeys model hE hM hQ (S remaining) attempt w =
    attempts apiKeys model hE hM hQ remaining (S attempt)
      (set_routerKeyIndex
         (rotate (length apiKeys) (routerKeyIndex w))
         (set_requests (S (requests w)) w)).
Proof.
  intros Hkey Hf Hlt. apply Nat.ltb_lt in Hlt.
  rewrite attempts_step. destruct (key_in_pool w Hkey) as [key ->].
  unfold afterFailure. rewrite Hlt.
  destruct (model (requests w)) as [e|[|c r]]; try discriminate; reflexivity.
Qed.

(** Whatever the router returns, it is one of the four decisions. *)
Lemma attempts_decided hE hM hQ remaining attempt w p w' :
  attempts apiKeys model hE hM hQ remaining attempt w = (inr p, w') →
  ∃ intent, p = decided intent.
Proof.
  revert attempt w. induction remaining as [|remaining IH]; intros attempt w H.
  - cbn in H. inversion H. eauto.
  - rewrite attempts_step in H. unfold afterFailure in H.
    destruct (apiKeys !! routerKeyIndex w).
    + destruct (model (requests w)) as [e|[|c r]].
      * destruct (attempt <? maxRetries); [eapply IH; exact H | inversion H; eauto].
      * destruct (attempt <? maxRetries); [eapply IH; exact H | inversion H; eauto].
      * inversion H. eauto.
    + destruct (attempt <? maxRetries); [eapply IH; exact H | inversion H; eauto].
Qed.

Lemma intentRouterNode_decided state w p w' :
  intentRouterNode apiKeys model state w = (inr p, w') →
  ∃ intent, p = decided intent.
Proof.
  unfold intentRouterNode.
  destruct (negb (0 <? size (files state)) && _).
  - intros H. inversion H. exists create. reflexivity.
  - apply attempts_decided.
Qed.

(** C4.  With no file and no blueprint in the state, the router answers
    [create] whatever the prompt says, and does so without a request to
    the model: the process state is returned as it was. *)
Theorem router_creates_without_project state w :
  files state = ∅ → blueprint state = None →
  ∃ p, intentRouterNode apiKeys model state w = (inr p, w) ∧
       pRequestIntent p = Some create ∧
       pIsModification p = Some false.
Proof.
  intros Hfiles Hbp. unfold intentRouterNode.
  rewrite Hfiles, Hbp, map_size_empty. cbn.
  eexists. split; [reflexivity|]. split; reflexivity.
Qed.

(** What the router reads off a content. *)
Lemma intentOfContent_answered hQ text answered :
  trim (toLowerCase text) = intentWord answered →
  intentOfContent hQ (Some text) = answered.
Proof.
  intros H. unfold intentOfContent. cbn [option_map]. rewrite H.
  destruct answered; reflexivity.
Qed.

Lemma intentOfContent_blank hQ text :
  trim (toLowerCase text) = EmptyString → intentOfContent hQ (Some text) = modify.
Proof.
  intros H. unfold intentOfContent. cbn [option_map]. rewrite H. reflexivity.
Qed.

Lemma intentOfContent_other hQ text :
  trim (toLowerCase text) ≠ EmptyString →
  (∀ answered, trim (toLowerCase text) ≠ intentWord answered) →
  intentOfContent hQ (Some text) = if hQ then question else modify.
Proof.
  intros Hne Hother. unfold intentOfContent. cbn [option_map].
  destruct (trim (toLowerCase text)) as [|c word] eqn:E; [contradiction|].
  cbn [orElse].
  destruct (String.eqb_spec (String c word) "create") as [Hw|_];
    [exfalso; exact (Hother create Hw)|].
  destruct (String.eqb_spec (String c word) "modify") as [Hw|_];
    [exfalso; exact (Hother modify Hw)|].
  destruct (String.eqb_spec (String c word) "question") as [Hw|_];
    [exfalso; exact (Hother question Hw)|].
  destruct (String.eqb_spec (String c word) "explain") as [Hw|_];
    [exfalso; exact (Hother explain Hw)|].
  reflexivity.
Qed.

(** The loop when the attempt numbered [attempt + n] is the first to
    succeed. *)
Lemma attempts_nth_success hE hM hQ n :
  ∀ remaining attempt w content rest,
    routerKeyIndex w < length apiKeys →
    attempt + n ≤ maxRetries →
    (∀ k, k < n → attemptFailed (model (requests w + k)) = true) →
    model (requests w + n) = inr (content :: rest) →
    ∃ w',
      attempts apiKeys model hE hM hQ (S (n + remaining)) attempt w =
        (inr (decided (intentOfContent hQ content)), w') ∧
      requests w' = requests w + S n ∧
      routerKeyIndex w' = Nat.iter n (rotate (length apiKeys)) (routerKeyIndex w).
Proof.
  induction n as [|n IH]; intros remaining attempt w content rest Hkey Hle Hfail Hok.
  - rewrite Nat.add_0_r in Hok.
    cbn [Nat.add]. rewrite (attempts_success _ _ _ _ _ _ _ _ Hkey Hok).
    eexists. split; [reflexivity|]. split; [cbn; lia | reflexivity].
  - pose proof (Hfail 0 ltac:(lia)) as F0. rewrite Nat.add_0_r in F0.
    cbn [Nat.add]. rewrite attempts_failure by (assumption || lia).
    set (w1 := set_routerKeyIndex _ _).
    destruct (IH remaining (S attempt) w1 content rest) as (w' & E & Hreq & Hidx).
    + apply rotate_in_range; [lia | exact Hkey].
    + lia.
    + intros k Hk. replace (requests w1 + k) with (requests w + S k) by (cbn; lia).
      apply Hfail. lia.
    + replace (requests w1 + n) with (requests w + S n) by (cbn; lia). exact Hok.
    + exists w'. split; [exact E|]. split; [cbn in Hreq; lia|].
      rewrite Hidx. rewrite Nat.iter_succ_r. reflexivity.
Qed.

(** C6.  When the first [N - 1] attempts fail and the [N]-th request
    answers, [N] being at most 3, the router returns the decision read
    off that answer after exactly [N] requests: the intent whose word
    the answer is, lowered and trimmed; [modify] for an answer without
    content or with nothing but white space; and for any other text
    [question] or [modify], by the question keywords of the prompt.  Its
    key index has been rotated exactly [N - 1] times: it is the old
    index plus [N - 1] modulo the size of the pool.  The index points
    into the pool at the start, as it always does in a pool that is not
    empty. *)
Theorem router_retry_rotates_keys state w N content rest :
  files state ≠ ∅ ∨ blueprint state ≠ None →
  routerKeyIndex w < length apiKeys →
  1 ≤ N ≤ maxRetries →
  (∀ k, k < N - 1 → attemptFailed (model (requests w + k)) = true) →
  model (requests w + (N - 1)) = inr (content :: rest) →
  ∃ intent w',
    intentRouterNode apiKeys model state w = (inr (decided intent), w') ∧
    intent =
      intentOfContent
        (some (fun kw => includes kw (toLowerCase (userPrompt state)))
              QUESTION_KEYWORDS)
        content ∧
    pRequestIntent (decided intent) = Some intent ∧
    pIsModification (decided intent) = Some (isModify intent) ∧
    match content with
    | None => intent = modify
    | Some text =>
        (∀ answered, trim (toLowerCase text) = intentWord answered →
                     intent = answered) ∧
        (trim (toLowerCase text) = EmptyString → intent = modify) ∧
        (trim (toLowerCase text) ≠ EmptyString →
         (∀ answered, trim (toLowerCase text) ≠ intentWord answered) →
         intent =
           if some (fun kw => includes kw (toLowerCase (userPrompt state)))
                   QUESTION_KEYWORDS
           then question else modify)
    end ∧
    requests w' = requests w + N ∧
    routerKeyIndex w' = Nat.iter (N - 1) (rotate (length apiKeys)) (routerKeyIndex w) ∧
    routerKeyIndex w' = (routerKeyIndex w + (N - 1)) mod length apiKeys.
Proof.
  intros Hproject Hkey [HN1 HN3] Hfail Hok.
  assert (Hex : negb (0 <? size (files state)) &&
                negb (match blueprint state with Some _ => true | None => false end) = false).
  { destruct Hproject as [Hf|Hb].
    - apply andb_false_iff. left. apply negb_false_iff, Nat.ltb_lt.
      destruct (decide (size (files state) = 0)) as [E|E]; [|lia].
      apply map_size_empty_iff in E. contradiction.
    - apply andb_false_iff. right. destruct (blueprint state); [reflexivity|contradiction]. }
  unfold intentRouterNode. rewrite Hex.
  set (hQ := some _ QUESTION_KEYWORDS).
  set (hM := some _ MODIFY_KEYWORDS).
  set (hE := (0 <? size (files state))).
  destruct (attempts_nth_success hE hM hQ (N - 1) (maxRetries - N) 1 w content rest)
    as (w' & E & Hreq & Hidx); [exact Hkey | lia | exact Hfail | exact Hok |].
  replace (S (N - 1 + (maxRetries - N))) with maxRetries in E by lia.
  exists (intentOfContent hQ content), w'.
  split; [exact E|]. split; [reflexivity|]. split; [reflexivity|].
  split; [reflexivity|]. split.
  { destruct content as [text|]; [|reflexivity].
    split; [intros answered; apply intentOfContent_answered|].
    split; [apply intentOfContent_blank | apply intentOfContent_other]. }
  split; [lia|]. split; [exact Hidx|].
  rewrite Hidx. apply rotate_iter; [lia | exact Hkey].
Qed.

End IntentRouterFacts.

Lemma router_creates_without_project_witness :
  some (fun kw => includes kw (toLowerCase (userPrompt Samples.freshRequest)))
       IntentRouter.QUESTION_KEYWORDS = true ∧
  some (fun kw => includes kw (toLowerCase (userPrompt Samples.freshRequest)))
       IntentRouter.MODIFY_KEYWORDS = true ∧
  ∃ p, IntentRouter.intentRouterNode Samples.threeKeys Samples.deadModel
         Samples.freshRequest initialWorld = (inr p, initialWorld) ∧
       pRequestIntent p = Some create ∧
       pIsModification p = Some false.
Proof.
  split; [reflexivity|]. split; [reflexivity|].
  apply (router_creates_without_project Samples.threeKeys Samples.deadModel
           Samples.freshRequest initialWorld); reflexivity.
Defined.

Lemma router_retry_rotates_keys_witness :
  ∃ w',
    IntentRouter.intentRouterNode Samples.threeKeys Samples.flakyModel
      Samples.followUp initialWorld = (inr (IntentRouter.decided explain), w') ∧
    requests w' = 3 ∧
    routerKeyIndex w' = 2.
Proof.
  destruct (router_retry_rotates_keys Samples.threeKeys Samples.flakyModel
              Samples.followUp initialWorld 3 (Some Samples.wrappedExplain) [])
    as (intent & w' & Hret & _ & _ & _ & Hword & Hreq & _ & Hidx).
  - left. vm_compute. discriminate.
  - cbn. lia.
  - unfold IntentRouter.maxRetries. lia.
  - intros [|[|k]] Hk; [reflexivity | reflexivity | lia].
  - reflexivity.
  - destruct Hword as [Hword _].
    rewrite (Hword explain ltac:(vm_compute; reflexivity)) in Hret.
    exists w'. split; [exact Hret|]. split; [exact Hreq | exact Hidx].
Defined.

(** ** Page extraction *)

Section BlueprintFacts.

Import Blueprint.

Variable blueprintApiKeys : list string.
Variable model : Model.
Variable JSON_parse : string -> JsError + Json.

(** A failed attempt hands over to the next iteration, one request
    later. *)
Lemma extract_attempt_failed remaining attempt w :
  attemptFailed JSON_parse (model (requests w)) = true →
  ∃ w1,
    attempts blueprintApiKeys model JSON_parse (S remaining) attempt w =
      attempts blueprintApiKeys model JSON_parse remaining (S attempt) w1 ∧
    requests w1 = S (requests w).
Proof.
  intros Hf. cbn [attempts].
  unfold Eff.tryCatch, attemptBody, mbind, Eff_bind, Eff.bind, chatCompletionsCreate.
  unfold attemptFailed in Hf.
  destruct (model (requests w)) as [e|response]; cbv beta iota.
  - unfold rotateBlueprintKey, Eff.modifyWorld; cbv beta iota.
    destruct (attempt <? maxRetries); eexists; (split; [reflexivity|reflexivity]).
  - destruct (pagesOfResponse JSON_parse response) as [e|[pages|]]; try discriminate.
    + unfold Eff.throw, rotateBlueprintKey, Eff.modifyWorld; cbv beta iota.
      destruct (attempt <? maxRetries); eexists; (split; [reflexivity|reflexivity]).
    + eexists; split; reflexivity.
Qed.

(** C7.  When each of the three attempts fails (the request throws, the
    answer holds no array, or the array does not parse), the function
    does not throw: it returns the fixed two pages, [HomePage] at [/]
    and [NotFoundPage] at [*]. *)
Theorem extract_pages_falls_back userPrompt detailedContext features w :
  (∀ k, k < maxRetries →
        attemptFailed JSON_parse (model (requests w + k)) = true) →
  ∃ w' items,
    extractPagesWithLLM blueprintApiKeys model JSON_parse
      userPrompt detailedContext features w = (inr (JArr items), w') ∧
    JArr items = fallbackPages ∧
    map nameAndRoute items =
      [ Some (JStr "HomePage", JStr "/"); Some (JStr "NotFoundPage", JStr "*") ] ∧
    requests w' = requests w + maxRetries.
Proof.
  intros Hfail. unfold extractPagesWithLLM, maxRetries in *.
  destruct (extract_attempt_failed 2 1 w) as (w1 & E1 & R1).
  { rewrite <- (Nat.add_0_r (requests w)). apply Hfail. lia. }
  destruct (extract_attempt_failed 1 2 w1) as (w2 & E2 & R2).
  { rewrite R1, <- Nat.add_1_r. apply Hfail. lia. }
  destruct (extract_attempt_failed 0 3 w2) as (w3 & E3 & R3).
  { rewrite R2, R1. replace (S (S (requests w))) with (requests w + 2) by lia.
    apply Hfail. lia. }
  rewrite E1, E2, E3. cbn [attempts].
  eexists w3, _. split; [reflexivity|]. split; [reflexivity|].
  split; [reflexivity|]. lia.
Qed.

End BlueprintFacts.

Lemma extract_pages_falls_back_witness :
  (∀ k, k < Blueprint.maxRetries →
        Blueprint.attemptFailed Samples.strictParse
          (Samples.unhelpfulModel (requests initialWorld + k)) = true) ∧
  ∃ w' items,
    Blueprint.extractPagesWithLLM Samples.threeKeys Samples.unhelpfulModel
      Samples.strictParse "a bakery site" "context" [] initialWorld =
      (inr (JArr items), w') ∧
    JArr items = Blueprint.fallbackPages ∧
    map Blueprint.nameAndRoute items =
      [ Some (JStr "HomePage", JStr "/"); Some (JStr "NotFoundPage", JStr "*") ] ∧
    requests w' = requests initialWorld + Blueprint.maxRetries.
Proof.
  assert (H : ∀ k, k < Blueprint.maxRetries →
                Blueprint.attemptFailed Samples.strictParse
                  (Samples.unhelpfulModel (requests initialWorld + k)) = true).
  { unfold Blueprint.maxRetries.
    intros [|[|[|k]]] Hk; [reflexivity | reflexivity | reflexivity | lia]. }
  split; [exact H|].
  exact (extract_pages_falls_back Samples.threeKeys Samples.unhelpfulModel
           Samples.strictParse "a bakery site" "context" [] initialWorld H).
Defined.

(** ** The UI selection cache *)

Section UIServiceFacts.

Import UI UIService.

Variable apiKeys : list string.
Variable text : gmap string CatalogueEntry.
Variable JSON_parse : string -> JsError + Json.
Variable JSON_stringify : list UIComponent -> string.
Variable chatCompletionWithRetry : nat -> (JsError + ChatResponse) * nat.

Local Abbreviation attempts :=
  (attempts apiKeys text JSON_parse JSON_stringify chatCompletionWithRetry).
Local Abbreviation firstSuccess :=
  (firstSuccess text JSON_parse JSON_stringify chatCompletionWithRetry).
Local Abbreviation selectComponents :=
  (selectComponents apiKeys text JSON_parse JSON_stringify chatCompletionWithRetry).

(** The retry loop always returns: the first successful selection, which
    it has stored under the key, or the empty selection with the cache
    as it was. *)
Lemma attempts_returns cacheKey remaining attempt w :
  ∃ r w',
    attempts cacheKey remaining attempt w = (inr r, w') ∧
    match firstSuccess remaining (requests w) with
    | Some result =>
        r = result ∧ selectionCache w' = <[cacheKey := result]> (selectionCache w)
    | None =>
        r = emptySelection ∧ selectionCache w' = selectionCache w
    end.
Proof.
  revert attempt w. induction remaining as [|remaining IH]; intros attempt w.
  - eexists _, _. split; [reflexivity|]. split; reflexivity.
  - cbn [UIService.attempts UIService.firstSuccess].
    unfold Eff.tryCatch, mbind, Eff_bind, Eff.bind, callModel.
    destruct (chatCompletionWithRetry (requests w)) as [[e|response] used];
      cbv beta iota.
    + set (w1 := set_uiKeyIndex (rotate (length apiKeys) (uiKeyIndex w))
                   (set_requests (requests w + used) w)).
      destruct (IH (S attempt) w1) as (r & w' & E & Hspec).
      exists r, w'. split.
      * destruct (isRateLimited e); exact E.
      * exact Hspec.
    + destruct (selectionOfResponse text JSON_parse JSON_stringify response)
        as [e|result]; cbv beta iota.
      * set (w1 := set_uiKeyIndex (rotate (length apiKeys) (uiKeyIndex w))
                     (set_requests (requests w + used) w)).
        destruct (IH (S attempt) w1) as (r & w' & E & Hspec).
        exists r, w'. split.
        -- unfold Eff.throw. destruct (isRateLimited e); exact E.
        -- exact Hspec.
      * eexists _, _. split; [reflexivity|]. split; reflexivity.
Qed.

Lemma selectComponents_cached requirements w cached :
  selectionCache w !! trim requirements = Some cached →
  selectComponents requirements w = (inr cached, w).
Proof.
  intros H. unfold UIService.selectComponents, mbind, Eff_bind, Eff.bind, Eff.readWorld.
  rewrite H. reflexivity.
Qed.

Lemma selectComponents_missed requirements w :
  selectionCache w !! trim requirements = None →
  selectComponents requirements w = attempts (trim requirements) maxRetries 1 w.
Proof.
  intros H. unfold UIService.selectComponents, mbind, Eff_bind, Eff.bind, Eff.readWorld.
  rewrite H. reflexivity.
Qed.

(** C9.  When a call succeeds (its key is cached already, or one of its
    attempts succeeds), it returns a result that is then cached under
    the trimmed text; any later call whose text trims to the same key
    and that finds this entry returns that very result and leaves the
    process state, request counter included, untouched. *)
Theorem selection_is_memoized req1 req2 w :
  trim req1 = trim req2 →
  selectionCache w !! trim req1 ≠ None ∨
    firstSuccess maxRetries (requests w) ≠ None →
  ∃ r1 w1,
    selectComponents req1 w = (inr r1, w1) ∧
    selectionCache w1 !! trim req1 = Some r1 ∧
    ∀ w2, selectionCache w2 !! trim req2 = selectionCache w1 !! trim req1 →
          selectComponents req2 w2 = (inr r1, w2).
Proof.
  intros Hkey Hsucc.
  assert (Hfirst : ∃ r1 w1, selectComponents req1 w = (inr r1, w1) ∧
                            selectionCache w1 !! trim req1 = Some r1).
  { destruct (selectionCache w !! trim req1) as [cached|] eqn:Hc.
    - exists cached, w. split; [apply selectComponents_cached; exact Hc | exact Hc].
    - destruct Hsucc as [Hsucc|Hsucc]; [contradiction|].
      rewrite selectComponents_missed by exact Hc.
      destruct (attempts_returns (trim req1) maxRetries 1 w) as (r & w' & E & Hspec).
      destruct (firstSuccess maxRetries (requests w)) as [result|]; [|contradiction].
      destruct Hspec as [-> Hcache].
      exists result, w'. split; [exact E|].
      rewrite Hcache. apply lookup_insert_eq. }
  destruct Hfirst as (r1 & w1 & E1 & C1).
  exists r1, w1. split; [exact E1|]. split; [exact C1|].
  intros w2 H2. apply selectComponents_cached. rewrite H2. exact C1.
Qed.

(** C10.  [selectComponents] always returns; when the key is not cached
    and each of the three attempts fails, what it returns is the empty
    selection, and the cache is left as it was. *)
Theorem selection_never_throws requirements w :
  (∃ r w', selectComponents requirements w = (inr r, w')) ∧
  (selectionCache w !! trim requirements = None →
   firstSuccess maxRetries (requests w) = None →
   ∃ w', selectComponents requirements w = (inr emptySelection, w') ∧
         selectionCache w' = selectionCache w).
Proof.
  split.
  - destruct (selectionCache w !! trim requirements) as [cached|] eqn:Hc.
    + exists cached, w. apply selectComponents_cached. exact Hc.
    + rewrite selectComponents_missed by exact Hc.
      destruct (attempts_returns (trim requirements) maxRetries 1 w)
        as (r & w' & E & _).
      exists r, w'. exact E.
  - intros Hc Hnone. rewrite selectComponents_missed by exact Hc.
    destruct (attempts_returns (trim requirements) maxRetries 1 w)
      as (r & w' & E & Hspec).
    rewrite Hnone in Hspec. destruct Hspec as [-> Hcache].
    exists w'. split; [exact E | exact Hcache].
Qed.

End UIServiceFacts.

Lemma selection_is_memoized_witness :
  ∃ r1 w1,
    UIService.selectComponents Samples.threeKeys Samples.catalogue
      Samples.parseSelection Samples.stringify Samples.recoveringClient
      "  a landing page for a bakery " initialWorld = (inr r1, w1) ∧
    selectionCache w1 !! trim "  a landing page for a bakery " = Some r1 ∧
    ∀ w2, selectionCache w2 !! trim "a landing page for a bakery" =
            selectionCache w1 !! trim "  a landing page for a bakery " →
          UIService.selectComponents Samples.threeKeys Samples.catalogue
            Samples.parseSelection Samples.stringify Samples.recoveringClient
            "a landing page for a bakery" w2 = (inr r1, w2).
Proof.
  apply (selection_is_memoized Samples.threeKeys Samples.catalogue
           Samples.parseSelection Samples.stringify Samples.recoveringClient
           "  a landing page for a bakery " "a landing page for a bakery"
           initialWorld).
  - vm_compute. reflexivity.
  - right. vm_compute. discriminate.
Defined.

Lemma selection_never_throws_witness :
  ∃ w',
    UIService.selectComponents Samples.threeKeys Samples.catalogue
      Samples.parseSelection Samples.stringify Samples.refusingClient
      "a landing page" initialWorld = (inr UIService.emptySelection, w') ∧
    selectionCache w' = selectionCache initialWorld.
Proof.
  apply (selection_never_throws Samples.threeKeys Samples.catalogue
           Samples.parseSelection Samples.stringify Samples.refusingClient
           "a landing page" initialWorld); reflexivity.
Defined.

(** ** The website graph *)

Lemma bind_inr {A B} (m : Eff A) (k : A → Eff B) w b w' :
  (m ≫= k) w = (inr b, w') →
  ∃ a w1, m w = (inr a, w1) ∧ k a w1 = (inr b, w').
Proof.
  unfold mbind, Eff_bind, Eff.bind.
  destruct (m w) as [[e|a] w1]; intros H; [discriminate | eauto].
Qed.

Lemma mret_inr {A} (a b : A) (w w' : World) :
  (mret a : Eff A) w = (inr b, w') → a = b ∧ w = w'.
Proof. unfold mret, Eff_ret, Eff.ret. intros H. inversion H. auto. Qed.

(** Peel the binds of a computation known to have returned. *)
Ltac returned H :=
  repeat match type of H with
  | (_ ≫= _) _ = (inr _, _) =>
      let a := fresh "a" in
      let w := fresh "w" in
      let E := fresh "E" in
      apply bind_inr in H; destruct H as (a & w & E & H)
  | (match ?x with (_, _) => _ end) _ = _ => destruct x
  | mret _ _ = (inr _, _) => apply mret_inr in H; destruct H as [H ?]
  end.

Section GraphFacts.

Import Graph.

Variable apiKeys : list string.
Variable model : Model.
Variable planBlueprint :
  WebsiteState -> Eff (ProjectBlueprint * gmap string Json * list string).
Variable analyseModification :
  WebsiteState -> Eff (gmap string Json * list string).
Variable generate :
  Node -> WebsiteState -> Eff (list GeneratedFile * list string).
Variable validate :
  WebsiteState -> Eff (list ValidationError * list string).
Variable repair :
  WebsiteState -> Eff (list GeneratedFile * list string).

Local Abbreviation stage :=
  (stage apiKeys model planBlueprint analyseModification generate validate repair).
Local Abbreviation run :=
  (run apiKeys model planBlueprint analyseModification generate validate repair).
Local Abbreviation Reaches :=
  (Reaches apiKeys model planBlueprint analyseModification generate validate repair).

Lemma run_step limit n state w :
  run (S limit) n state w =
    match stage n state w with
    | (inl e, w') => ([n], Aborted e, w')
    | (inr update, w') =>
        match next n (merge state update) with
        | END => ([n], Terminal (merge state update), w')
        | Goto n' =>
            let '(visited, r, w'') := run limit n' (merge state update) w' in
            (n :: visited, r, w'')
        end
    end.
Proof. reflexivity. Qed.

Lemma chatResponseNode_returns state w :
  ∃ answer w',
    ChatResponse.chatResponseNode model state w =
      (inr (ChatResponse.answered answer), w').
Proof.
  unfold ChatResponse.chatResponseNode, Eff.tryCatch, mbind, Eff_bind, Eff.bind,
    chatCompletionsCreate.
  destruct (model (requests w)) as [e|[|c r]]; cbv beta iota; eauto.
Qed.

(** Only the repair stage writes the iteration count, and it adds one. *)
Lemma stage_iterationCount n state w update w' :
  stage n state w = (inr update, w') →
  pIterationCount update =
    if decide (n = repair_step) then Some (S (iterationCount state)) else None.
Proof.
  intros H. destruct n; cbn [Graph.stage] in H; cbn [decide].
  - apply intentRouterNode_decided in H. destruct H as [i ->]. reflexivity.
  - destruct (chatResponseNode_returns state w) as (a & w2 & E).
    rewrite E in H. inversion H. reflexivity.
  - unfold modificationAnalyzerNode in H. returned H. subst. reflexivity.
  - unfold blueprintNode in H. returned H. subst. reflexivity.
  - unfold generationNode in H. returned H. subst. reflexivity.
  - unfold generationNode in H. returned H. subst. reflexivity.
  - unfold generationNode in H. returned H. subst. reflexivity.
  - unfold generationNode in H. returned H. subst. reflexivity.
  - unfold validationNode in H. returned H. subst. reflexivity.
  - unfold repairNode in H. returned H. subst. reflexivity.
Qed.

Lemma merge_iterationCount state update :
  iterationCount (merge state update) =
    default (iterationCount state) (pIterationCount update).
Proof. reflexivity. Qed.

Lemma stage_keeps_iterationCount n state w update w' :
  n ≠ repair_step →
  stage n state w = (inr update, w') →
  iterationCount (merge state update) = iterationCount state.
Proof.
  intros Hn H. apply stage_iterationCount in H.
  rewrite merge_iterationCount, H. destruct (decide (n = repair_step)); [contradiction|].
  reflexivity.
Qed.

Lemma repair_adds_one state w update w' :
  stage repair_step state w = (inr update, w') →
  iterationCount (merge state update) = S (iterationCount state).
Proof.
  intros H. apply stage_iterationCount in H.
  rewrite merge_iterationCount, H. reflexivity.
Qed.

Lemma Within_aborted visited e w a b :
  length visited ≤ a →
  count_occ Node_eq_dec visited repair_step ≤ b →
  Within a b (visited, Aborted e, w).
Proof.
  intros Hl Hc. unfold Within.
  split; [discriminate|]. split; [assumption|]. split; [assumption|].
  intros final H. discriminate.
Qed.

Lemma Within_terminal visited final w a b :
  length visited ≤ a →
  count_occ Node_eq_dec visited repair_step ≤ b →
  iterationCount final ≤ 3 →
  (errors final ≠ [] → In validation_step visited → iterationCount final = 3) →
  Within a b (visited, Terminal final, w).
Proof.
  intros Hl Hc Hi He. unfold Within.
  split; [discriminate|]. split; [assumption|]. split; [assumption|].
  intros final' [= <-]. split; assumption.
Qed.

(** One more node in front of a run that ends well. *)
Lemma Within_cons n visited r w a b a' b' :
  Within a b (visited, r, w) →
  S a ≤ a' →
  (if Node_eq_dec n repair_step then S b else b) ≤ b' →
  (n = validation_step →
   ∀ final, r = Terminal final → errors final ≠ [] → iterationCount final = 3) →
  Within a' b' (n :: visited, r, w).
Proof.
  unfold Within. intros (H1 & H2 & H3 & H4) Ha Hb Hv.
  split; [assumption|]. split; [cbn [length]; lia|]. split.
  - cbn [count_occ]. destruct (Node_eq_dec n repair_step); lia.
  - intros final Hr. destruct (H4 final Hr) as [Hi He]. split; [assumption|].
    intros Herr [Hin|Hin]; [|apply He; assumption].
    apply (Hv Hin final Hr Herr).
Qed.

Lemma Reaches_weaken n c a b a' b' :
  a ≤ a' → b ≤ b' → Reaches n c a b → Reaches n c a' b'.
Proof.
  intros Ha Hb H limit state w Hl Hc.
  specialize (H limit state w ltac:(lia) Hc).
  unfold Within in *. destruct (run limit n state w) as [[visited r] w'].
  destruct H as (H1 & H2 & H3 & H4).
  split; [assumption|]. split; [lia|]. split; [lia|]. assumption.
Qed.

Lemma reaches_chat_response c : c ≤ 3 → Reaches chat_response c 1 0.
Proof.
  intros Hc3 limit state w Hl Hc. destruct limit as [|limit]; [lia|].
  rewrite run_step.
  destruct (stage chat_response state w) as [[e|update] w'] eqn:E.
  - apply Within_aborted; cbn; lia.
  - cbn [next].
    pose proof (stage_keeps_iterationCount chat_response _ _ _ _ ltac:(discriminate) E) as Hic.
    apply Within_terminal; [cbn; lia | cbn; lia | lia |].
    intros _ [Hin|[]]. discriminate.
Qed.

(** The validation/repair loop: entered with [3 - k] iterations used, it
    ends within [k] repairs; a final state with errors left has used
    exactly 3. *)
Lemma validation_loop k :
  k ≤ 3 →
  ∀ limit state w,
    2 * k + 1 ≤ limit → iterationCount state = 3 - k →
    Within (2 * k + 1) k (run limit validation_step state w) ∧
    ∀ final, (run limit validation_step state w).1.2 = Terminal final →
             errors final ≠ [] → iterationCount final = 3.
Proof.
  induction k as [|k IH]; intros Hk limit state w Hl Hc.
  - destruct limit as [|limit]; [lia|]. rewrite run_step.
    destruct (stage validation_step state w) as [[e|update] w'] eqn:E.
    + split; [apply Within_aborted; cbn; lia | discriminate].
    + pose proof (stage_keeps_iterationCount validation_step _ _ _ _
                    ltac:(discriminate) E) as Hic.
      cbn [next]. unfold routeValidation. rewrite Hic, Hc.
      replace (3 <=? 3 - 0) with true by reflexivity.
      assert (Hend : (if length (errors (merge state update)) =? 0 then END else END) = END)
        by (destruct (_ =? _); reflexivity).
      rewrite Hend. split.
      * apply Within_terminal; [cbn; lia | cbn; lia | lia |]. intros _ _. lia.
      * cbn. intros final [= <-] _. lia.
  - destruct limit as [|limit]; [lia|]. rewrite run_step.
    destruct (stage validation_step state w) as [[e|update] w'] eqn:E.
    + split; [apply Within_aborted; cbn; lia | discriminate].
    + pose proof (stage_keeps_iterationCount validation_step _ _ _ _
                    ltac:(discriminate) E) as Hic.
      set (state' := merge state update) in *.
      cbn [next]. unfold routeValidation.
      destruct (length (errors state') =? 0) eqn:Hlen.
      * apply Nat.eqb_eq in Hlen.
        assert (Hnone : errors state' = []) by (destruct (errors state'); [reflexivity|discriminate]).
        split.
        -- apply Within_terminal; [cbn; lia | cbn; lia | lia |].
           intros Herr. contradiction.
        -- cbn. intros final [= <-] Herr. contradiction.
      * replace (3 <=? iterationCount state') with false
          by (symmetry; apply Nat.leb_gt; lia).
        destruct limit as [|limit]; [lia|]. rewrite run_step.
        destruct (stage repair_step state' w') as [[e|update2] w''] eqn:E2.
        -- split; [apply Within_aborted; cbn; lia | discriminate].
        -- pose proof (repair_adds_one _ _ _ _ E2) as Hic2.
           cbn [next].
           destruct (IH ltac:(lia) limit (merge state' update2) w'' ltac:(lia) ltac:(lia))
             as [Hw Hfin].
           destruct (run limit validation_step (merge state' update2) w'')
             as [[visited r] w3].
           cbn in Hfin. split.
           ++ apply Within_cons with (a := S (2 * k + 1)) (b := S k); [| lia | cbn; lia |].
              ** apply Within_cons with (a := 2 * k + 1) (b := k);
                   [exact Hw | lia | cbn; lia | discriminate].
              ** intros _. exact Hfin.
           ++ cbn. exact Hfin.
Qed.

Lemma reaches_validation k : k ≤ 3 → Reaches validation_step (3 - k) (2 * k + 1) k.
Proof.
  intros Hk limit state w Hl Hc. apply validation_loop; assumption.
Qed.

Lemma reaches_linear n n' c a b :
  (∀ s, next n s = Goto n') → n ≠ repair_step → n ≠ validation_step →
  Reaches n' c a b → Reaches n c (S a) b.
Proof.
  intros Hnext Hr Hv H limit state w Hl Hc.
  destruct limit as [|limit]; [lia|]. rewrite run_step.
  destruct (stage n state w) as [[e|update] w'] eqn:E.
  - apply Within_aborted; cbn; [lia|].
    destruct (Node_eq_dec n repair_step); [contradiction|lia].
  - pose proof (stage_keeps_iterationCount _ _ _ _ _ Hr E) as Hic.
    rewrite Hnext.
    specialize (H limit (merge state update) w' ltac:(lia) ltac:(lia)).
    destruct (run limit n' (merge state update) w') as [[visited r] w''].
    apply Within_cons with (a := a) (b := b); [exact H | lia | | contradiction].
    destruct (Node_eq_dec n repair_step); [contradiction|lia].
Qed.

Lemma reaches_repair c a b :
  Reaches validation_step (S c) a b → Reaches repair_step c (S a) (S b).
Proof.
  intros H limit state w Hl Hc.
  destruct limit as [|limit]; [lia|]. rewrite run_step.
  destruct (stage repair_step state w) as [[e|update] w'] eqn:E.
  - apply Within_aborted; cbn; lia.
  - pose proof (repair_adds_one _ _ _ _ E) as Hic.
    cbn [next].
    specialize (H limit (merge state update) w' ltac:(lia) ltac:(lia)).
    destruct (run limit validation_step (merge state update) w') as [[visited r] w''].
    apply Within_cons with (a := a) (b := b); [exact H | lia | cbn; lia | discriminate].
Qed.

Lemma reaches_intent_router c a b :
  Reaches chat_response c a b →
  Reaches modification_analyzer c a b →
  Reaches blueprint_step c a b →
  Reaches intent_router c (S a) b.
Proof.
  intros Hchat Hmod Hbp limit state w Hl Hc.
  destruct limit as [|limit]; [lia|]. rewrite run_step.
  destruct (stage intent_router state w) as [[e|update] w'] eqn:E.
  - apply Within_aborted; cbn; lia.
  - pose proof (stage_keeps_iterationCount intent_router _ _ _ _
                  ltac:(discriminate) E) as Hic.
    cbn [next].
    assert (H : Within a b (run limit (routeIntent (merge state update))
                              (merge state update) w')).
    { unfold routeIntent.
      destruct (requestIntent (merge state update)) as [[]|];
        [apply Hbp | apply Hmod | apply Hchat | apply Hchat | apply Hbp]; lia. }
    destruct (run limit (routeIntent (merge state update)) (merge state update) w')
      as [[visited r] w''].
    apply Within_cons with (a := a) (b := b); [exact H | lia | cbn; lia | discriminate].
Qed.

Lemma reaches_from_start c : c ≤ 2 → Reaches intent_router c 13 3.
Proof.
  intros Hc.
  assert (Hloop : ∀ c', c' ≤ 3 → Reaches validation_step c' 7 3).
  { intros c' Hc'. apply (Reaches_weaken _ _ (2 * (3 - c') + 1) (3 - c')); [lia | lia |].
    replace c' with (3 - (3 - c')) at 1 by lia.
    apply reaches_validation. lia. }
  apply reaches_intent_router.
  - apply (Reaches_weaken _ _ 1 0); [lia | lia | apply reaches_chat_response; lia].
  - apply (Reaches_weaken _ _ 8 3); [lia | lia |].
    apply (reaches_linear _ repair_step); [reflexivity | discriminate | discriminate |].
    apply (Reaches_weaken _ _ 7 3); [lia | lia |].
    apply reaches_repair.
    apply (Reaches_weaken _ _ (2 * (3 - S c) + 1) (3 - S c)); [lia | lia |].
    replace (S c) with (3 - (3 - S c)) at 1 by lia.
    apply reaches_validation. lia.
  - apply (reaches_linear _ structure_step); [reflexivity | discriminate | discriminate |].
    apply (reaches_linear _ core_step); [reflexivity | discriminate | discriminate |].
    apply (reaches_linear _ components_step); [reflexivity | discriminate | discriminate |].
    apply (reaches_linear _ pages_step); [reflexivity | discriminate | discriminate |].
    apply (reaches_linear _ validation_step); [reflexivity | discriminate | discriminate |].
    apply Hloop. lia.
Qed.

(** C1.  Once the validation stage has returned, the edge reads the
    merged state only: no error, the run ends there with that state;
    errors and three iterations used, the run ends there too, with that
    same state and so with its errors; otherwise the repair stage runs
    next. *)
Theorem validation_edge_decides limit state w update w' :
  stage validation_step state w = (inr update, w') →
  let state' := merge state update in
  next validation_step state' =
    match errors state' with
    | [] => END
    | _ :: _ => if 3 <=? iterationCount state' then END else Goto repair_step
    end ∧
  run (S limit) validation_step state w =
    match errors state' with
    | [] => ([validation_step], Terminal state', w')
    | _ :: _ =>
        if 3 <=? iterationCount state'
        then ([validation_step], Terminal state', w')
        else
          let '(visited, r, w'') := run limit repair_step state' w' in
          (validation_step :: visited, r, w'')
    end.
Proof.
  intros E state'. rewrite run_step, E. fold state'.
  cbn [next]. unfold routeValidation.
  destruct (errors state') as [|err errs]; cbn [length Nat.eqb].
  - split; reflexivity.
  - destruct (3 <=? iterationCount state'); split; reflexivity.
Qed.

(** C2.  Started with an iteration count of 0, as [generateWebsite]
    sets it (or of at most 2), and given room for 13 nodes, every run
    ends, by reaching [END] or by a stage that throws, never by
    exhausting the room: it runs at most 13 nodes and at most 3 repairs,
    a final state has an iteration count of at most 3, and a final state
    that validation left with errors has exactly 3. *)
Theorem repair_loop_is_bounded limit state w :
  iterationCount state ≤ 2 → 13 ≤ limit →
  ∃ visited r w',
    run limit intent_router state w = (visited, r, w') ∧
    r ≠ LimitHit ∧
    length visited ≤ 13 ∧
    count_occ Node_eq_dec visited repair_step ≤ 3 ∧
    ∀ final, r = Terminal final →
      iterationCount final ≤ 3 ∧
      (errors final ≠ [] → In validation_step visited → iterationCount final = 3).
Proof.
  intros Hc Hl.
  pose proof (reaches_from_start (iterationCount state) Hc limit state w Hl eq_refl) as H.
  unfold Within in H.
  destruct (run limit intent_router state w) as [[visited r] w'].
  exists visited, r, w'. split; [reflexivity | exact H].
Qed.

(** C3.  The edges out of the router follow the table: [question] and
    [explain] lead to the chat answer and from there to [END]; [modify]
    leads to the modification analysis, then to repair, then to
    validation; [create] and an unset intent lead through blueprint,
    structure, core files, components and pages to validation.  The
    states [s1] .. [s5] met on the way do not matter. *)
Theorem intent_selects_branch state s1 s2 s3 s4 s5 :
  match requestIntent state with
  | Some question | Some explain =>
      next intent_router state = Goto chat_response ∧
      next chat_response s1 = END
  | Some modify =>
      next intent_router state = Goto modification_analyzer ∧
      next modification_analyzer s1 = Goto repair_step ∧
      next repair_step s2 = Goto validation_step
  | Some create | None =>
      next intent_router state = Goto blueprint_step ∧
      next blueprint_step s1 = Goto structure_step ∧
      next structure_step s2 = Goto core_step ∧
      next core_step s3 = Goto components_step ∧
      next components_step s4 = Goto pages_step ∧
      next pages_step s5 = Goto validation_step
  end.
Proof.
  cbn [next]. unfold routeIntent.
  destruct (requestIntent state) as [[]|]; repeat split.
Qed.

(** C5.  When the router decides [question] or [explain], the run is
    router, chat answer, [END]; it cannot fail, and the files of its
    final state are the files the router was given. *)
Theorem chat_branch_keeps_files limit state w update w1 :
  2 ≤ limit →
  stage intent_router state w = (inr update, w1) →
  pRequestIntent update = Some question ∨ pRequestIntent update = Some explain →
  ∃ final w',
    run limit intent_router state w =
      ([intent_router; chat_response], Terminal final, w') ∧
    files final = files state ∧
    requestIntent final = pRequestIntent update.
Proof.
  intros Hl E Hintent.
  destruct limit as [|[|limit]]; try lia.
  rewrite run_step, E. cbn [next].
  pose proof E as Hdec. cbn [Graph.stage] in Hdec.
  apply intentRouterNode_decided in Hdec. destruct Hdec as [intent ->].
  assert (Hroute : routeIntent (merge state (IntentRouter.decided intent)) = chat_response).
  { unfold routeIntent. cbn. cbn in Hintent.
    destruct Hintent as [[= ->]|[= ->]]; reflexivity. }
  rewrite Hroute, run_step. cbn [Graph.stage].
  destruct (chatResponseNode_returns (merge state (IntentRouter.decided intent)) w1)
    as (answer & w2 & Echat).
  rewrite Echat. cbn [next].
  eexists _, _. split; [reflexivity|]. split; reflexivity.
Qed.

Variable recursionLimit : nat.

Local Abbreviation invoke :=
  (invoke apiKeys model planBlueprint analyseModification generate validate repair
     recursionLimit).
Local Abbreviation generateWebsite :=
  (generateWebsite apiKeys model planBlueprint analyseModification generate
     validate repair recursionLimit).

(** C8.  [generateWebsite] runs the graph with the two callbacks it was
    given installed, and when it ends, by returning or by throwing, both
    registrations are back to none; nothing else of the process state
    differs from what the graph left. *)
Theorem callbacks_live_for_one_invocation prompt type onFileGenerated onPhaseChange w :
  ∃ installed outcome w1 w',
    globalFileCallback installed = onFileGenerated ∧
    globalPhaseCallback installed = onPhaseChange ∧
    invoke (initialState prompt (default frontend type)) installed = (outcome, w1) ∧
    generateWebsite prompt type onFileGenerated onPhaseChange w =
      (match outcome with
       | inl error => inl error
       | inr result =>
           inr {| resultFiles := files result;
                  resultErrors := errors result;
                  resultMessages := messages result |}
       end, w') ∧
    w' = set_globalPhaseCallback None (set_globalFileCallback None w1) ∧
    globalFileCallback w' = None ∧
    globalPhaseCallback w' = None.
Proof.
  exists (set_globalPhaseCallback onPhaseChange (set_globalFileCallback onFileGenerated w)).
  destruct (invoke (initialState prompt (default frontend type))
              (set_globalPhaseCallback onPhaseChange
                 (set_globalFileCallback onFileGenerated w)))
    as [outcome w1] eqn:E.
  exists outcome, w1, (set_globalPhaseCallback None (set_globalFileCallback None w1)).
  split; [reflexivity|]. split; [reflexivity|]. split; [reflexivity|].
  split; [|split; [reflexivity|split; reflexivity]].
  unfold Graph.generateWebsite, setFileCallback, setPhaseCallback,
    Eff.tryFinally, Eff.tryCatch, Eff.modifyWorld, Eff.throw,
    mbind, Eff_bind, Eff.bind, mret, Eff_ret, Eff.ret.
  rewrite E. destruct outcome as [error|result]; reflexivity.
Qed.

End GraphFacts.

Lemma validation_edge_decides_witness :
  let state' := Graph.merge Samples.exhausted Samples.stillFailing in
  Graph.next Graph.validation_step state' = Graph.END ∧
  Graph.run Samples.threeKeys Samples.deadModel Samples.plan Samples.analyse
    Samples.oneFile Samples.neverValid Samples.rewriteFile
    25 Graph.validation_step Samples.exhausted initialWorld =
    ([Graph.validation_step], Graph.Terminal state', initialWorld) ∧
  errors state' = [Samples.missingImport] ∧
  iterationCount state' = 3.
Proof.
  intros state'.
  destruct (validation_edge_decides Samples.threeKeys Samples.deadModel
              Samples.plan Samples.analyse Samples.oneFile Samples.neverValid
              Samples.rewriteFile 24 Samples.exhausted initialWorld
              Samples.stillFailing initialWorld eq_refl) as [Hedge Hrun].
  split; [exact Hedge|]. split; [exact Hrun|]. split; reflexivity.
Defined.

Lemma repair_loop_is_bounded_witness :
  ∃ visited r w',
    Graph.run Samples.threeKeys Samples.deadModel Samples.plan Samples.analyse
      Samples.oneFile Samples.neverValid Samples.rewriteFile
      25 Graph.intent_router (Graph.initialState "a bakery site" frontend)
      initialWorld = (visited, r, w') ∧
    r ≠ Graph.LimitHit ∧
    length visited ≤ 13 ∧
    count_occ Graph.Node_eq_dec visited Graph.repair_step ≤ 3 ∧
    ∀ final, r = Graph.Terminal final →
      iterationCount final ≤ 3 ∧
      (errors final ≠ [] → In Graph.validation_step visited →
       iterationCount final = 3).
Proof.
  apply (repair_loop_is_bounded Samples.threeKeys Samples.deadModel Samples.plan
           Samples.analyse Samples.oneFile Samples.neverValid Samples.rewriteFile
           25 (Graph.initialState "a bakery site" frontend) initialWorld).
  - cbn. lia.
  - lia.
Defined.

(** The same run, computed: validation fails four times, three repairs
    lie between, and the run ends with the error still there. *)
Example persistent_errors_end_after_three_repairs :
  let '(visited, r, _) :=
    Graph.run Samples.threeKeys Samples.deadModel Samples.plan Samples.analyse
      Samples.oneFile Samples.neverValid Samples.rewriteFile
      25 Graph.intent_router (Graph.initialState "a bakery site" frontend)
      initialWorld in
  visited =
    [ Graph.intent_router; Graph.blueprint_step; Graph.structure_step;
      Graph.core_step; Graph.components_step; Graph.pages_step;
      Graph.validation_step; Graph.repair_step;
      Graph.validation_step; Graph.repair_step;
      Graph.validation_step; Graph.repair_step;
      Graph.validation_step ] ∧
  match r with
  | Graph.Terminal final =>
      iterationCount final = 3 ∧ errors final = [Samples.missingImport]
  | _ => False
  end.
Proof. vm_compute. split; [reflexivity | split; reflexivity]. Qed.

Lemma chat_branch_keeps_files_witness :
  ∃ final w',
    Graph.run Samples.threeKeys Samples.flakyModel Samples.plan Samples.analyse
      Samples.oneFile Samples.neverValid Samples.rewriteFile
      25 Graph.intent_router Samples.followUp initialWorld =
      ([Graph.intent_router; Graph.chat_response], Graph.Terminal final, w') ∧
    files final = files Samples.followUp ∧
    requestIntent final = Some explain.
Proof.
  apply (chat_branch_keeps_files Samples.threeKeys Samples.flakyModel Samples.plan
           Samples.analyse Samples.oneFile Samples.neverValid Samples.rewriteFile
           25 Samples.followUp initialWorld (IntentRouter.decided explain)
           (set_routerKeyIndex 2 (set_requests 3 initialWorld))).
  - lia.
  - reflexivity.
  - right. reflexivity.
Defined.

(** * Further properties of the code *)

(** ** The intent router beyond its first success *)

Section IntentRouterMore.

Import IntentRouter.

Variable apiKeys : list string.
Variable model : Model.

Local Abbreviation attempts := (attempts apiKeys model).
Local Abbreviation intentRouterNode := (intentRouterNode apiKeys model).

(** The loop as a whole: it returns a decision, after at most as many
    requests as iterations remain, and a key index inside the pool
    stays inside. *)
Lemma attempts_bounded hE hM hQ remaining attempt w :
  ∃ intent w',
    attempts hE hM hQ remaining attempt w = (inr (decided intent), w') ∧
    requests w ≤ requests w' ≤ requests w + remaining ∧
    (routerKeyIndex w < length apiKeys → routerKeyIndex w' < length apiKeys) ∧
    selectionCache w' = selectionCache w ∧
    globalFileCallback w' = globalFileCallback w ∧
    globalPhaseCallback w' = globalPhaseCallback w ∧
    delivered w' = delivered w.
Proof.
  revert attempt w. induction remaining as [|remaining IH]; intros attempt w.
  - eexists _, w. split; [reflexivity|]. repeat split; auto; lia.
  - assert (Hfail : ∀ v,
      requests w ≤ requests v ≤ S (requests w) →
      routerKeyIndex v = routerKeyIndex w →
      selectionCache v = selectionCache w →
      globalFileCallback v = globalFileCallback w →
      globalPhaseCallback v = globalPhaseCallback w →
      delivered v = delivered w →
      ∃ intent w',
        afterFailure apiKeys model hE hM hQ remaining attempt v =
          (inr (decided intent), w') ∧
        requests w ≤ requests w' ≤ requests w + S remaining ∧
        (routerKeyIndex w < length apiKeys → routerKeyIndex w' < length apiKeys) ∧
        selectionCache w' = selectionCache w ∧
        globalFileCallback w' = globalFileCallback w ∧
        globalPhaseCallback w' = globalPhaseCallback w ∧
        delivered w' = delivered w).
    { intros v Hreqv Hidxv Hc Hf Hp Hd. unfold afterFailure.
      set (w1 := set_routerKeyIndex _ _).
      destruct (attempt <? maxRetries).
      - destruct (IH (S attempt) w1) as (i & w' & E & Hreq & Hidx & Hc' & Hf' & Hp' & Hd').
        exists i, w'. split; [exact E|]. cbn in Hreq, Hidx, Hc', Hf', Hp', Hd'.
        split; [lia|]. split; [|repeat split; congruence].
        intros Hin. apply Hidx. rewrite Hidxv. apply rotate_in_range; [lia | exact Hin].
      - eexists _, w1. split; [reflexivity|]. cbn.
        split; [lia|]. split; [|repeat split; assumption].
        intros Hin. rewrite Hidxv. apply rotate_in_range; [lia | exact Hin]. }
    rewrite attempts_step.
    destruct (apiKeys !! routerKeyIndex w).
    + destruct (model (requests w)) as [e|[|c r]].
      * apply Hfail; cbn; auto; lia.
      * apply Hfail; cbn; auto; lia.
      * eexists _, _. split; [reflexivity|]. cbn. repeat split; auto; lia.
    + apply Hfail; auto; lia.
Qed.

(** X1.  [intentRouterNode] never throws: it always returns one of the
    four intents together with [isModification] set to whether that
    intent is [modify], and nothing else; it sends at most three
    requests, and a key index that points into the pool still does
    afterwards. *)
Theorem router_always_decides state w :
  ∃ intent w',
    intentRouterNode state w = (inr (decided intent), w') ∧
    pIsModification (decided intent) = Some (isModify intent) ∧
    requests w ≤ requests w' ≤ requests w + maxRetries ∧
    (routerKeyIndex w < length apiKeys → routerKeyIndex w' < length apiKeys).
Proof.
  unfold IntentRouter.intentRouterNode.
  destruct (negb (0 <? size (files state)) && _).
  - exists create, w. split; [reflexivity|]. split; [reflexivity|].
    split; [unfold maxRetries; lia | auto].
  - destruct (attempts_bounded (0 <? size (files state))
                (some (λ kw, includes kw (toLowerCase (userPrompt state))) MODIFY_KEYWORDS)
                (some (λ kw, includes kw (toLowerCase (userPrompt state))) QUESTION_KEYWORDS)
                maxRetries 1 w) as (i & w' & E & Hreq & Hidx & _).
    exists i, w'. split; [exact E|]. split; [reflexivity|]. split; assumption.
Qed.

(** The loop when every attempt from [attempt] to the last fails, with a
    key at hand. *)
Lemma attempts_all_fail hE hM hQ n :
  ∀ remaining attempt w,
    routerKeyIndex w < length apiKeys →
    attempt + n = maxRetries →
    (∀ k, k < S n → attemptFailed (model (requests w + k)) = true) →
    ∃ w',
      attempts hE hM hQ (S (n + remaining)) attempt w =
        (inr (decided (if negb hE then create else if hQ then question else modify)),
         w') ∧
      requests w' = requests w + S n ∧
      routerKeyIndex w' = Nat.iter (S n) (rotate (length apiKeys)) (routerKeyIndex w).
Proof.
  induction n as [|n IH]; intros remaining attempt w Hkey Hlast Hfail;
    pose proof (Hfail 0 ltac:(lia)) as F0; rewrite Nat.add_0_r in F0.
  - rewrite Nat.add_0_r in Hlast. subst attempt. cbn [Nat.add].
    rewrite attempts_step. destruct (key_in_pool apiKeys w Hkey) as [key ->].
    unfold afterFailure. rewrite Nat.ltb_irrefl.
    eexists. split.
    + destruct (model (requests w)) as [e|[|c r]]; try discriminate; reflexivity.
    + split; [cbn; lia | reflexivity].
  - cbn [Nat.add]. rewrite attempts_failure by (assumption || lia).
    set (w1 := set_routerKeyIndex _ _).
    destruct (IH remaining (S attempt) w1) as (w' & E & Hreq & Hidx).
    + apply rotate_in_range; [lia | exact Hkey].
    + lia.
    + intros k Hk. replace (requests w1 + k) with (requests w + S k) by (cbn; lia).
      apply Hfail. lia.
    + exists w'. split; [exact E|]. split; [cbn in Hreq; lia|].
      rewrite Hidx. rewrite (Nat.iter_succ_r (S n)). reflexivity.
Qed.

(** The loop with an empty pool: no client is ever built. *)
Lemma attempts_without_key hE hM hQ remaining :
  ∀ attempt w,
    apiKeys = [] →
    attempt + remaining = maxRetries →
    attempts hE hM hQ (S remaining) attempt w =
      (inr (decided (if negb hE then create else if hQ then question else modify)), w).
Proof.
  induction remaining as [|remaining IH]; intros attempt w Hnone Hlast;
    assert (Hlook : apiKeys !! routerKeyIndex w = None)
      by (rewrite Hnone; apply lookup_nil);
    assert (Hrot : rotate (length apiKeys) (routerKeyIndex w) = routerKeyIndex w)
      by (rewrite Hnone; reflexivity);
    assert (Hsame : set_routerKeyIndex (routerKeyIndex w) w = w)
      by (destruct w; reflexivity);
    rewrite attempts_step, Hlook; unfold afterFailure; rewrite Hrot, Hsame.
  - rewrite Nat.add_0_r in Hlast. subst attempt. rewrite Nat.ltb_irrefl. reflexivity.
  - assert ((attempt <? maxRetries) = true) as -> by (apply Nat.ltb_lt; lia).
    apply IH; [exact Hnone | lia].
Qed.


End IntentRouterMore.

(** ** Page extraction beyond the fallback *)

Section BlueprintMore.

Import Blueprint.

Variable blueprintApiKeys : list string.
Variable model : Model.
Variable JSON_parse : string -> JsError + Json.

Local Abbreviation attempts := (attempts blueprintApiKeys model JSON_parse).
Local Abbreviation extractPagesWithLLM :=
  (extractPagesWithLLM blueprintApiKeys model JSON_parse).
Local Abbreviation extractPagesWithLLMFromPrompt :=
  (extractPagesWithLLMFromPrompt blueprintApiKeys model JSON_parse).
Local Abbreviation pagesOfResponse := (pagesOfResponse JSON_parse).

Lemma extract_attempt_succeeded remaining attempt w response pages :
  model (requests w) = inr response →
  pagesOfResponse response = inr (Some pages) →
  attempts (S remaining) attempt w = (inr pages, set_requests (S (requests w)) w).
Proof.
  intros Hm Hp. cbn [Blueprint.attempts].
  unfold Eff.tryCatch, attemptBody, mbind, Eff_bind, Eff.bind, chatCompletionsCreate.
  rewrite Hm. cbv beta iota. rewrite Hp. reflexivity.
Qed.

Lemma extract_attempt_without_array remaining attempt w response :
  model (requests w) = inr response →
  pagesOfResponse response = inr None →
  attempts (S remaining) attempt w =
    attempts remaining (S attempt) (set_requests (S (requests w)) w).
Proof.
  intros Hm Hp. cbn [Blueprint.attempts].
  unfold Eff.tryCatch, attemptBody, mbind, Eff_bind, Eff.bind, chatCompletionsCreate.
  rewrite Hm. cbv beta iota. rewrite Hp. reflexivity.
Qed.

Lemma extract_attempt_threw remaining attempt w :
  (∃ e, model (requests w) = inl e) ∨
  (∃ response e, model (requests w) = inr response ∧ pagesOfResponse response = inl e) →
  attempts (S remaining) attempt w =
    attempts remaining (S attempt)
      (set_blueprintKeyIndex
         (rotate (length blueprintApiKeys) (blueprintKeyIndex w))
         (set_requests (S (requests w)) w)).
Proof.
  intros H. cbn [Blueprint.attempts].
  unfold Eff.tryCatch, attemptBody, mbind, Eff_bind, Eff.bind, chatCompletionsCreate.
  destruct H as [[e Hm]|(response & e & Hm & Hp)]; rewrite Hm; cbv beta iota.
  - unfold rotateBlueprintKey, Eff.modifyWorld. cbv beta iota.
    destruct (attempt <? maxRetries); reflexivity.
  - rewrite Hp. unfold Eff.throw, rotateBlueprintKey, Eff.modifyWorld. cbv beta iota.
    destruct (attempt <? maxRetries); reflexivity.
Qed.

Lemma extract_attempts_bounded remaining attempt w :
  ∃ pages w',
    attempts remaining attempt w = (inr pages, w') ∧
    requests w ≤ requests w' ≤ requests w + remaining ∧
    (blueprintKeyIndex w < length blueprintApiKeys →
     blueprintKeyIndex w' < length blueprintApiKeys).
Proof.
  revert attempt w. induction remaining as [|remaining IH]; intros attempt w.
  - eexists _, w. split; [reflexivity|]. split; [lia | auto].
  - destruct (model (requests w)) as [e|response] eqn:Hm.
    + rewrite extract_attempt_threw by eauto.
      destruct (IH (S attempt)
                  (set_blueprintKeyIndex
                     (rotate (length blueprintApiKeys) (blueprintKeyIndex w))
                     (set_requests (S (requests w)) w)))
        as (pages & w' & E & Hreq & Hidx).
      exists pages, w'. split; [exact E|]. cbn in Hreq, Hidx. split; [lia|].
      intros Hin. apply Hidx. apply rotate_in_range; [lia | exact Hin].
    + destruct (pagesOfResponse response) as [e|[pages|]] eqn:Hp.
      * rewrite extract_attempt_threw by eauto 6.
        destruct (IH (S attempt)
                    (set_blueprintKeyIndex
                       (rotate (length blueprintApiKeys) (blueprintKeyIndex w))
                       (set_requests (S (requests w)) w)))
          as (pages & w' & E & Hreq & Hidx).
        exists pages, w'. split; [exact E|]. cbn in Hreq, Hidx. split; [lia|].
        intros Hin. apply Hidx. apply rotate_in_range; [lia | exact Hin].
      * rewrite (extract_attempt_succeeded _ _ _ _ _ Hm Hp).
        eexists _, _. split; [reflexivity|]. cbn. split; [lia | auto].
      * rewrite (extract_attempt_without_array _ _ _ _ Hm Hp).
        destruct (IH (S attempt) (set_requests (S (requests w)) w))
          as (pages & w' & E & Hreq & Hidx).
        exists pages, w'. split; [exact E|]. cbn in Hreq, Hidx. split; [lia | exact Hidx].
Qed.

Lemma featureNames_of_texts features :
  Forall (λ f, ∃ text, f = JStr text) features →
  mapFeatureName features = inr features ∧ forallb stringifiable features = true.
Proof.
  induction 1 as [|f rest [text ->] _ [IHmap IHall]]; [split; reflexivity|].
  cbn [mapFeatureName featureName forallb stringifiable]. rewrite IHmap, IHall.
  split; reflexivity.
Qed.

Lemma featureNames_of_null features :
  JNull ∈ features → ∃ e, mapFeatureName features = inl e.
Proof.
  induction features as [|f rest IH]; intros Hin.
  - apply elem_of_nil in Hin. contradiction.
  - cbn [mapFeatureName].
    destruct (featureName f) as [e|n] eqn:Ef; [eauto|].
    apply elem_of_cons in Hin. destruct Hin as [<-|Hin]; [discriminate|].
    destruct (IH Hin) as [e ->]. eauto.
Qed.

(** X3.  [extractPagesWithLLM], taken from its first line, throws only
    while it puts the names of the features together, which it does
    before any request: then the process state is left as it was.
    Otherwise it returns pages after at most three requests, and a key
    index that points into the pool still does afterwards.  It returns
    when every feature is a text, and throws when a feature is
    [null]. *)
Theorem extract_pages_throws_before_requests_only userPrompt detailedContext features w :
  match featureNames features with
  | inl e =>
      extractPagesWithLLMFromPrompt userPrompt detailedContext features w = (inl e, w)
  | inr _ =>
      ∃ pages w',
        extractPagesWithLLMFromPrompt userPrompt detailedContext features w =
          (inr pages, w') ∧
        requests w ≤ requests w' ≤ requests w + maxRetries ∧
        (blueprintKeyIndex w < length blueprintApiKeys →
         blueprintKeyIndex w' < length blueprintApiKeys)
  end ∧
  (Forall (λ f, ∃ text, f = JStr text) features →
   ∃ names, featureNames features = inr names) ∧
  (JNull ∈ features → ∃ e, featureNames features = inl e).
Proof.
  split; [|split].
  - unfold Blueprint.extractPagesWithLLMFromPrompt.
    destruct (featureNames features) as [e|names]; [reflexivity|].
    apply extract_attempts_bounded.
  - intros Htexts. unfold featureNames.
    destruct (featureNames_of_texts features Htexts) as [-> ->]. eauto.
  - intros Hnull. unfold featureNames.
    destruct (featureNames_of_null features Hnull) as [e ->]. eauto.
Qed.

(** X4.  When the first [N - 1] attempts fail and the [N]-th answer
    holds an array that parses, [N] being at most 3, the function
    returns the parsed pages after exactly [N] requests. *)
Theorem extract_pages_first_success userPrompt detailedContext features w N response pages :
  1 ≤ N ≤ maxRetries →
  (∀ k, k < N - 1 → attemptFailed JSON_parse (model (requests w + k)) = true) →
  model (requests w + (N - 1)) = inr response →
  pagesOfResponse response = inr (Some pages) →
  ∃ w',
    extractPagesWithLLM userPrompt detailedContext features w = (inr pages, w') ∧
    requests w' = requests w + N.
Proof.
  intros [HN1 HN3] Hfail Hm Hp. unfold Blueprint.extractPagesWithLLM, maxRetries in *.
  destruct N as [|[|[|[|N]]]]; try lia; cbn [Nat.sub] in *.
  - rewrite Nat.add_0_r in Hm.
    rewrite (extract_attempt_succeeded _ _ _ _ _ Hm Hp).
    eexists. split; [reflexivity | cbn; lia].
  - destruct (extract_attempt_failed blueprintApiKeys model JSON_parse 2 1 w)
      as (w1 & E1 & R1).
    { rewrite <- (Nat.add_0_r (requests w)). apply Hfail. lia. }
    rewrite E1.
    rewrite (extract_attempt_succeeded 1 2 w1 response pages);
      [| rewrite R1, <- Nat.add_1_r; exact Hm | exact Hp].
    eexists. split; [reflexivity | cbn; lia].
  - destruct (extract_attempt_failed blueprintApiKeys model JSON_parse 2 1 w)
      as (w1 & E1 & R1).
    { rewrite <- (Nat.add_0_r (requests w)). apply Hfail. lia. }
    destruct (extract_attempt_failed blueprintApiKeys model JSON_parse 1 2 w1)
      as (w2 & E2 & R2).
    { rewrite R1, <- Nat.add_1_r. apply Hfail. lia. }
    rewrite E1, E2.
    rewrite (extract_attempt_succeeded 0 3 w2 response pages);
      [| rewrite R2, R1; replace (S (S (requests w))) with (requests w + 2) by lia;
         exact Hm | exact Hp].
    eexists. split; [reflexivity | cbn; lia].
Qed.

(** X5.  Only an attempt that throws rotates the key.  When each of the
    three answers arrives but holds no array, the fallback pages come
    back with the process state untouched but for the request counter;
    when each of the three requests throws, the key has been rotated
    three times. *)
Theorem extract_pages_rotates_on_throw_only userPrompt detailedContext features w :
  ((∀ k, k < maxRetries →
         ∃ response, model (requests w + k) = inr response ∧
                     pagesOfResponse response = inr None) →
   extractPagesWithLLM userPrompt detailedContext features w =
     (inr fallbackPages, set_requests (requests w + maxRetries) w)) ∧
  ((∀ k, k < maxRetries → ∃ e, model (requests w + k) = inl e) →
   ∃ w',
     extractPagesWithLLM userPrompt detailedContext features w =
       (inr fallbackPages, w') ∧
     blueprintKeyIndex w' =
       Nat.iter maxRetries (rotate (length blueprintApiKeys)) (blueprintKeyIndex w)).
Proof.
  unfold Blueprint.extractPagesWithLLM, maxRetries. split; intros H.
  - destruct (H 0 ltac:(lia)) as (r0 & M0 & P0). rewrite Nat.add_0_r in M0.
    destruct (H 1 ltac:(lia)) as (r1 & M1 & P1).
    destruct (H 2 ltac:(lia)) as (r2 & M2 & P2).
    rewrite (extract_attempt_without_array _ _ _ _ M0 P0).
    rewrite (extract_attempt_without_array _ _ _ r1);
      [| cbn; rewrite <- M1; f_equal; lia | exact P1].
    rewrite (extract_attempt_without_array _ _ _ r2);
      [| cbn; rewrite <- M2; f_equal; lia | exact P2].
    cbn [Blueprint.attempts].
    replace (requests w + 3) with (S (S (S (requests w)))) by lia. reflexivity.
  - destruct (H 0 ltac:(lia)) as (e0 & M0). rewrite Nat.add_0_r in M0.
    destruct (H 1 ltac:(lia)) as (e1 & M1).
    destruct (H 2 ltac:(lia)) as (e2 & M2).
    rewrite extract_attempt_threw by eauto.
    rewrite extract_attempt_threw;
      [| left; exists e1; cbn; rewrite <- M1; f_equal; lia].
    rewrite extract_attempt_threw;
      [| left; exists e2; cbn; rewrite <- M2; f_equal; lia].
    eexists. split; [reflexivity|]. reflexivity.
Qed.

End BlueprintMore.

(** ** The bracket match of the page extraction *)

Lemma startsWith_one_false c d s :
  Ascii.eqb d c = false → startsWith (String c EmptyString) (String d s) = false.
Proof.
  intros H. cbn. rewrite Ascii.eqb_sym, H. reflexivity.
Qed.

Lemma fromFirstOpen_some s t :
  Blueprint.fromFirstOpen s = Some t →
  ∃ pre rest, s = pre +:+ t ∧ t = String "[" rest ∧ includes "[" pre = false.
Proof.
  induction s as [|c s IH]; cbn [Blueprint.fromFirstOpen]; [discriminate|].
  destruct (Ascii.eqb c "[") eqn:E.
  - intros [= <-]. apply Ascii.eqb_eq in E. subst c.
    exists EmptyString, s. repeat split.
  - intros H. destruct (IH H) as (pre & rest & -> & -> & Hpre).
    exists (String c pre), rest. repeat split.
    cbn [includes]. rewrite startsWith_one_false by exact E. exact Hpre.
Qed.

Lemma upToLastClose_none s :
  Blueprint.upToLastClose s = None → includes "]" s = false.
Proof.
  induction s as [|c s IH]; cbn [Blueprint.upToLastClose]; [reflexivity|].
  destruct (Blueprint.upToLastClose s); [discriminate|].
  destruct (Ascii.eqb c "]") eqn:E; [discriminate|].
  intros _. cbn [includes]. rewrite startsWith_one_false by exact E. apply IH. reflexivity.
Qed.

Lemma upToLastClose_some s t :
  Blueprint.upToLastClose s = Some t →
  ∃ body post, s = t +:+ post ∧ t = body +:+ "]" ∧ includes "]" post = false.
Proof.
  revert t. induction s as [|c s IH]; intros t; cbn [Blueprint.upToLastClose];
    [discriminate|].
  destruct (Blueprint.upToLastClose s) as [t'|] eqn:E.
  - intros [= <-]. destruct (IH t' eq_refl) as (body & post & -> & -> & Hpost).
    exists (String c body), post. repeat split. exact Hpost.
  - destruct (Ascii.eqb c "]") eqn:Ec; [|discriminate].
    intros [= <-]. apply Ascii.eqb_eq in Ec. subst c.
    exists EmptyString, s. repeat split. apply upToLastClose_none. exact E.
Qed.

Lemma upToLastClose_finds a b :
  is_Some (Blueprint.upToLastClose (a +:+ String "]" b)).
Proof.
  induction a as [|c a IH]; simpl.
  - destruct (Blueprint.upToLastClose b); simpl; eexists; reflexivity.
  - destruct IH as [t ->]. eexists; reflexivity.
Qed.

Lemma fromFirstOpen_finds pre x :
  ∃ y, Blueprint.fromFirstOpen (pre +:+ String "[" x) = Some (y +:+ String "[" x).
Proof.
  induction pre as [|c pre IH]; simpl.
  - exists EmptyString. reflexivity.
  - destruct (Ascii.eqb c "[") eqn:E.
    + exists (String c pre). reflexivity.
    + exact IH.
Qed.

Lemma append_cons c (a b : string) : String c a +:+ b = String c (a +:+ b).
Proof. reflexivity. Qed.

Lemma append_assoc_string (a b c : string) : (a +:+ b) +:+ c = a +:+ (b +:+ c).
Proof.
  induction a as [|x a IH]; [reflexivity|].
  rewrite !append_cons, IH. reflexivity.
Qed.

(** X6.  The bracket match is the widest one: what [matchJsonArray]
    returns is a piece of the content that opens with the first opening
    bracket of the content and closes with its last closing bracket;
    and it finds a piece whenever a closing bracket follows an opening
    one. *)
Theorem json_array_match_is_widest content :
  (∀ m, Blueprint.matchJsonArray content = Some m →
        ∃ pre body post,
          content = pre +:+ m +:+ post ∧
          m = String "[" (body +:+ "]") ∧
          includes "[" pre = false ∧
          includes "]" post = false) ∧
  (∀ pre mid post,
     content = pre +:+ String "[" (mid +:+ String "]" post) →
     is_Some (Blueprint.matchJsonArray content)).
Proof.
  unfold Blueprint.matchJsonArray. split.
  - intros m H. destruct (Blueprint.fromFirstOpen content) as [t|] eqn:E; [|discriminate].
    destruct (fromFirstOpen_some _ _ E) as (pre & rest & -> & -> & Hpre).
    cbn [Blueprint.upToLastClose] in H.
    destruct (Blueprint.upToLastClose rest) as [t'|] eqn:E'; [|discriminate].
    injection H as <-.
    destruct (upToLastClose_some _ _ E') as (body & post & -> & -> & Hpost).
    exists pre, body, post. repeat split; assumption.
  - intros pre mid post ->.
    destruct (fromFirstOpen_finds pre (mid +:+ String "]" post)) as [y ->].
    replace (y +:+ String "[" (mid +:+ String "]" post))
      with ((y +:+ String "[" mid) +:+ String "]" post).
    + apply upToLastClose_finds.
    + rewrite append_assoc_string. reflexivity.
Qed.

(** ** More on the UI selection *)

Section UIServiceMore.

Import UI UIService.

Variable apiKeys : list string.
Variable text : gmap string CatalogueEntry.
Variable JSON_parse : string -> JsError + Json.
Variable JSON_stringify : list UIComponent -> string.
Variable chatCompletionWithRetry : nat -> (JsError + ChatResponse) * nat.
Variable others : AwaitPoint -> World -> World.

Local Abbreviation selectComponents :=
  (selectComponents apiKeys text JSON_parse JSON_stringify chatCompletionWithRetry).
Local Abbreviation attemptsAmong :=
  (attemptsAmong apiKeys text JSON_parse JSON_stringify chatCompletionWithRetry others).
Local Abbreviation selectComponentsAmong :=
  (selectComponentsAmong apiKeys text JSON_parse JSON_stringify
     chatCompletionWithRetry others).

(** One iteration of the loop, among other work and alone. *)
Lemma attemptsAmong_step cacheKey remaining attempt w :
  attemptsAmong cacheKey (S remaining) attempt w =
    let w1 :=
      others (AwaitModel attempt)
        (set_requests (requests w + (chatCompletionWithRetry (requests w)).2) w) in
    let retry :=
      attemptsAmong cacheKey remaining (S attempt)
        (others (AwaitDelay attempt)
           (set_uiKeyIndex (rotate (length apiKeys) (uiKeyIndex w1)) w1)) in
    match (chatCompletionWithRetry (requests w)).1 with
    | inl _ => retry
    | inr response =>
        match selectionOfResponse text JSON_parse JSON_stringify response with
        | inl _ => retry
        | inr result =>
            (inr result,
             set_selectionCache (<[cacheKey := result]> (selectionCache w1)) w1)
        end
    end.
Proof.
  cbn [UIService.attemptsAmong].
  unfold Eff.tryCatch, mbind, Eff_bind, Eff.bind, callModelAmong, sleepAmong,
    Eff.modifyWorld, rotateApiKey, Eff.throw, mret, Eff_ret, Eff.ret.
  destruct (chatCompletionWithRetry (requests w)) as [[e|response] used];
    cbn [fst snd]; cbv beta iota zeta.
  - destruct (isRateLimited e); reflexivity.
  - destruct (selectionOfResponse text JSON_parse JSON_stringify response) as [e|result];
      cbv beta iota; [|reflexivity].
    destruct (isRateLimited e); reflexivity.
Qed.

Lemma attemptsAlone_step cacheKey remaining attempt w :
  attempts apiKeys text JSON_parse JSON_stringify chatCompletionWithRetry
    cacheKey (S remaining) attempt w =
    let w1 := set_requests (requests w + (chatCompletionWithRetry (requests w)).2) w in
    let retry :=
      attempts apiKeys text JSON_parse JSON_stringify chatCompletionWithRetry
        cacheKey remaining (S attempt)
        (set_uiKeyIndex (rotate (length apiKeys) (uiKeyIndex w1)) w1) in
    match (chatCompletionWithRetry (requests w)).1 with
    | inl _ => retry
    | inr response =>
        match selectionOfResponse text JSON_parse JSON_stringify response with
        | inl _ => retry
        | inr result =>
            (inr result,
             set_selectionCache (<[cacheKey := result]> (selectionCache w1)) w1)
        end
    end.
Proof.
  cbn [UIService.attempts].
  unfold Eff.tryCatch, mbind, Eff_bind, Eff.bind, callModel, Eff.sleep,
    Eff.modifyWorld, rotateApiKey, Eff.throw, mret, Eff_ret, Eff.ret.
  destruct (chatCompletionWithRetry (requests w)) as [[e|response] used];
    cbn [fst snd]; cbv beta iota zeta.
  - destruct (isRateLimited e); reflexivity.
  - destruct (selectionOfResponse text JSON_parse JSON_stringify response) as [e|result];
      cbv beta iota; [|reflexivity].
    destruct (isRateLimited e); reflexivity.
Qed.

(** With nothing in between, the loop is the loop taken in one piece. *)
Lemma attemptsAmong_alone cacheKey :
  (∀ p v, others p v = v) →
  ∀ remaining attempt w,
    attemptsAmong cacheKey remaining attempt w =
    attempts apiKeys text JSON_parse JSON_stringify chatCompletionWithRetry
      cacheKey remaining attempt w.
Proof.
  intros Hidle. induction remaining as [|remaining IH]; intros attempt w; [reflexivity|].
  rewrite attemptsAmong_step, attemptsAlone_step. cbv zeta.
  rewrite !Hidle, !IH. reflexivity.
Qed.

(** The loop among other work: it returns, and all it does to the cache
    itself is to write under its key.  Any relation between caches that
    holds across such a write and across what the others do holds
    across the loop. *)
Lemma attemptsAmong_writes_own_key
    (R : gmap string UISelectionResult → gmap string UISelectionResult → Prop)
    cacheKey :
  (∀ c, R c c) →
  (∀ c1 c2 c3, R c1 c2 → R c2 c3 → R c1 c3) →
  (∀ c r, R c (<[cacheKey := r]> c)) →
  (∀ p v, R (selectionCache v) (selectionCache (others p v))) →
  ∀ remaining attempt w,
    ∃ r w',
      attemptsAmong cacheKey remaining attempt w = (inr r, w') ∧
      R (selectionCache w) (selectionCache w').
Proof.
  intros Hrefl Htrans Hwrite Hothers.
  induction remaining as [|remaining IH]; intros attempt w.
  - exists emptySelection, w. split; [reflexivity | apply Hrefl].
  - rewrite attemptsAmong_step. cbv zeta.
    set (w1 := others (AwaitModel attempt) _).
    assert (H1 : R (selectionCache w) (selectionCache w1))
      by (subst w1; apply (Hothers (AwaitModel attempt) (set_requests _ w))).
    set (w2 := others (AwaitDelay attempt) _).
    assert (H2 : R (selectionCache w) (selectionCache w2)).
    { eapply Htrans; [exact H1|]. subst w2.
      apply (Hothers (AwaitDelay attempt) (set_uiKeyIndex _ w1)). }
    assert (Hretry : ∃ r w',
      attemptsAmong cacheKey remaining (S attempt) w2 = (inr r, w') ∧
      R (selectionCache w) (selectionCache w')).
    { destruct (IH (S attempt) w2) as (r & w' & E & HR).
      exists r, w'. split; [exact E | eapply Htrans; [exact H2 | exact HR]]. }
    destruct (chatCompletionWithRetry (requests w)).1 as [e|response]; [exact Hretry|].
    destruct (selectionOfResponse text JSON_parse JSON_stringify response) as [e|result];
      [exact Hretry|].
    eexists _, _. split; [reflexivity|]. cbn [selectionCache set_selectionCache].
    eapply Htrans; [exact H1 | apply Hwrite].
Qed.

(** X7.  A call of [selectComponents] returns, and, whatever other work
    of the process runs while it awaits, all it does to the selection
    cache itself is to write its result under its own key, the trimmed
    text it was called with.  So it removes no key, as long as the
    others remove none; and a key other than its own holds after the
    call what it held before, as long as the others leave that key
    alone.  When nothing runs in between, the call is the one of
    [selectComponents] taken in one piece, and no entry the cache held
    before is removed or replaced.  (An entry under its own key that
    another call wrote while this one was waiting is replaced.) *)
Theorem selection_cache_only_grows requirements w :
  ∃ r w',
    selectComponentsAmong requirements w = (inr r, w') ∧
    ((∀ p v key, is_Some (selectionCache v !! key) →
                 is_Some (selectionCache (others p v) !! key)) →
     ∀ key, is_Some (selectionCache w !! key) → is_Some (selectionCache w' !! key)) ∧
    (∀ key, key ≠ trim requirements →
            (∀ p v, selectionCache (others p v) !! key = selectionCache v !! key) →
            selectionCache w' !! key = selectionCache w !! key) ∧
    ((∀ p v, others p v = v) →
     selectComponents requirements w = (inr r, w') ∧
     ∀ key cached, selectionCache w !! key = Some cached →
                   selectionCache w' !! key = Some cached).
Proof.
  unfold UIService.selectComponentsAmong, UIService.selectComponents,
    Eff.readWorld, mbind, Eff_bind, Eff.bind.
  destruct (selectionCache w !! trim requirements) as [cached|] eqn:Hc.
  - exists cached, w. split; [reflexivity|]. repeat split; auto.
  - destruct (attemptsAmong_writes_own_key (λ _ _, True) (trim requirements)
                (λ _, I) (λ _ _ _ _ _, I) (λ _ _, I) (λ _ _, I) maxRetries 1 w)
      as (r & w' & E & _).
    exists r, w'. split; [exact E|]. split; [|split].
    + intros Hkeep.
      destruct (attemptsAmong_writes_own_key
                  (λ c c', ∀ key, is_Some (c !! key) → is_Some (c' !! key))
                  (trim requirements)) with (remaining := maxRetries) (attempt := 1)
                  (w := w) as (r' & w'' & E' & HR).
      * auto.
      * intros c1 c2 c3 H12 H23 key Hk. apply H23, H12, Hk.
      * intros c res key Hk.
        destruct (decide (key = trim requirements)) as [->|Hne].
        { rewrite lookup_insert_eq. eauto. }
        { rewrite lookup_insert_ne by auto. exact Hk. }
      * intros p v key. apply Hkeep.
      * rewrite E in E'. injection E' as <- <-. exact HR.
    + intros key Hne Halone.
      destruct (attemptsAmong_writes_own_key
                  (λ c c', c' !! key = c !! key)
                  (trim requirements)) with (remaining := maxRetries) (attempt := 1)
                  (w := w) as (r' & w'' & E' & HR).
      * auto.
      * intros c1 c2 c3 H12 H23. rewrite H23. exact H12.
      * intros c res. rewrite lookup_insert_ne by auto. reflexivity.
      * intros p v. apply Halone.
      * rewrite E in E'. injection E' as <- <-. exact HR.
    + intros Hidle.
      pose proof (attemptsAmong_alone (trim requirements) Hidle) as Hsame.
      rewrite <- Hsame. split; [exact E|].
      intros key cached Hk.
      assert (Hne : key ≠ trim requirements)
        by (intros ->; rewrite Hc in Hk; discriminate).
      destruct (attemptsAmong_writes_own_key
                  (λ c c', c' !! key = c !! key)
                  (trim requirements)) with (remaining := maxRetries) (attempt := 1)
                  (w := w) as (r' & w'' & E' & HR).
      * auto.
      * intros c1 c2 c3 H12 H23. rewrite H23. exact H12.
      * intros c res. rewrite lookup_insert_ne by auto. reflexivity.
      * intros p v. rewrite Hidle. reflexivity.
      * rewrite E in E'. injection E' as <- <-. rewrite HR. exact Hk.
Qed.

(** What [text[name]] finds. *)
Lemma lookupComponent_found n :
  match lookupComponent text n with
  | Some c =>
      name c = n ∧
      (is_Some (text !! toStringJs n) ∨ toStringJs n ∈ inheritedNames) ∧
      match text !! toStringJs n with
      | Some entry =>
          description c = Some (entryDescription entry) ∧
          codesnippet c = Some (entryCodesnippet entry) ∧
          dependencies c = Some (entryDependencies entry)
      | None =>
          toStringJs n ∈ inheritedNames ∧
          description c = None ∧ codesnippet c = None ∧ dependencies c = None
      end
  | None => ¬ (is_Some (text !! toStringJs n) ∨ toStringJs n ∈ inheritedNames)
  end.
Proof.
  unfold lookupComponent.
  destruct (text !! toStringJs n) as [entry|] eqn:E.
  - cbn. split; [reflexivity|]. split; [left; eauto | auto].
  - destruct (bool_decide (toStringJs n ∈ inheritedNames)) eqn:Hin.
    + apply bool_decide_eq_true in Hin. cbn. split; [reflexivity|]. split; auto.
    + apply bool_decide_eq_false in Hin.
      intros [[? ?]|?]; [discriminate | contradiction].
Qed.

(** X8.  [getComponentDetails] throws when a name cannot be turned into
    a property key.  Otherwise it keeps, in order and as they were
    given, exactly the names whose key is a property of the catalogue's
    own or one of the names every object inherits ([constructor],
    [toString], ...).  A component under a key of the catalogue carries
    the catalogue's description, snippet and dependencies; a component
    under an inherited name only carries none of the three. *)
Theorem component_details_come_from_catalogue (componentNames : list Json) :
  match getComponentDetails text componentNames with
  | inl _ => ∃ n, n ∈ componentNames ∧ stringifiable n = false
  | inr components =>
      Forall (λ n, stringifiable n = true) componentNames ∧
      map name components =
        filter (λ n, is_Some (text !! toStringJs n) ∨ toStringJs n ∈ inheritedNames)
               componentNames ∧
      Forall
        (λ c, match text !! toStringJs (name c) with
              | Some entry =>
                  description c = Some (entryDescription entry) ∧
                  codesnippet c = Some (entryCodesnippet entry) ∧
                  dependencies c = Some (entryDependencies entry)
              | None =>
                  toStringJs (name c) ∈ inheritedNames ∧
                  description c = None ∧ codesnippet c = None ∧
                  dependencies c = None
              end)
        components
  end.
Proof.
  unfold getComponentDetails.
  destruct (forallb stringifiable componentNames) eqn:Hall.
  - split; [apply Forall_forall; intros n Hn;
            apply (proj1 (forallb_forall _ _) Hall), list_elem_of_In, Hn|].
    clear Hall.
    induction componentNames as [|j names [IH1 IH2]]; [split; [reflexivity | constructor]|].
    cbn [omap list_omap]. rewrite filter_cons.
    pose proof (lookupComponent_found j) as Hj.
    destruct (lookupComponent text j) as [c|].
    + destruct Hj as (Hname & Hfound & Hfields).
      rewrite decide_True by exact Hfound. cbn [map].
      split; [rewrite Hname; f_equal; exact IH1|].
      constructor; [rewrite Hname; exact Hfields | exact IH2].
    + rewrite decide_False by exact Hj. split; assumption.
  - assert (Hex : existsb (λ n, negb (stringifiable n)) componentNames = true).
    { clear -Hall. induction componentNames as [|j names IH]; [discriminate|].
      cbn in *. destruct (stringifiable j); cbn in *; [apply IH; exact Hall | reflexivity]. }
    apply existsb_exists in Hex. destruct Hex as (n & Hin & Hn).
    exists n. split; [apply list_elem_of_In; exact Hin|].
    apply negb_true_iff. exact Hn.
Qed.

End UIServiceMore.

(** ** The chat answer *)

(** X9.  [chatResponseNode] never throws and never retries: whatever
    the single request it sends does, it returns an update that sets
    [chatResponse] and adds one message, the answer behind a space, and
    touches no other field; the process state changes by that one
    request only.  The answer is the content of the first choice when
    that is a text that is not empty; the fixed sentence "I couldn't
    find information ..." when the first choice has no content or an
    empty one; and the fallback text built from the state when the
    request throws or the response has no choice. *)
Theorem chat_answers_after_one_request model state w :
  ∃ answer,
    ChatResponse.chatResponseNode model state w =
      (inr (ChatResponse.answered answer), set_requests (S (requests w)) w) ∧
    pChatResponse (ChatResponse.answered answer) = Some answer ∧
    pMessages (ChatResponse.answered answer) = Some [String " " answer] ∧
    pFiles (ChatResponse.answered answer) = None ∧
    pErrors (ChatResponse.answered answer) = None ∧
    (ChatResponse.chatResponseNode model state w).2 = set_requests (S (requests w)) w ∧
    (IntentRouter.attemptFailed (model (requests w)) = true →
     answer = ChatResponse.fallbackResponse state) ∧
    match model (requests w) with
    | inl _ | inr [] => answer = ChatResponse.fallbackResponse state
    | inr (Some (String c text) :: _) => answer = String c text
    | inr (Some EmptyString :: _) | inr (None :: _) =>
        answer = "I couldn't find information about that in this project."
    end.
Proof.
  unfold ChatResponse.chatResponseNode, Eff.tryCatch, mbind, Eff_bind, Eff.bind,
    chatCompletionsCreate.
  destruct (model (requests w)) as [e|[|[[|c text]|] r]]; cbv beta iota.
  - eexists. split; [reflexivity|]. repeat split.
  - eexists. split; [reflexivity|]. repeat split.
  - eexists. split; [reflexivity|]. repeat split. discriminate.
  - eexists. split; [reflexivity|]. repeat split. discriminate.
  - eexists. split; [reflexivity|]. repeat split. discriminate.
Qed.

(** ** Runs of the graph, whatever the stages do *)

Section GraphMore.

Import Graph Paths.

Variable apiKeys : list string.
Variable model : Model.
Variable planBlueprint :
  WebsiteState -> Eff (ProjectBlueprint * gmap string Json * list string).
Variable analyseModification :
  WebsiteState -> Eff (gmap string Json * list string).
Variable generate :
  Node -> WebsiteState -> Eff (list GeneratedFile * list string).
Variable validate :
  WebsiteState -> Eff (list ValidationError * list string).
Variable repair :
  WebsiteState -> Eff (list GeneratedFile * list string).
Variable recursionLimit : nat.

Local Abbreviation stage :=
  (stage apiKeys model planBlueprint analyseModification generate validate repair).
Local Abbreviation run :=
  (run apiKeys model planBlueprint analyseModification generate validate repair).
Local Abbreviation generateWebsite :=
  (generateWebsite apiKeys model planBlueprint analyseModification generate
     validate repair recursionLimit).

(** X10.  The nodes a run visits form a path of the graph: it starts at
    the node the run was started at and each step follows an edge; the
    list is empty only when there was room for no node at all; and a run
    that reaches [END] does so right after the chat answer or right
    after validation, never after another node. *)
Theorem run_follows_edges limit n state w :
  match run limit n state w with
  | ([], r, _) => limit = 0 ∧ r = LimitHit
  | (first :: rest, r, _) =>
      first = n ∧ chained n rest ∧
      ∀ final, r = Terminal final →
               ∃ exit, last (first :: rest) = Some exit ∧ isExit exit = true
  end.
Proof.
  revert n state w. induction limit as [|limit IH]; intros n state w.
  - cbn. split; reflexivity.
  - rewrite (run_step apiKeys model planBlueprint analyseModification generate
               validate repair).
    destruct (stage n state w) as [[e|update] w'].
    + split; [reflexivity|]. split; [exact I|]. discriminate.
    + destruct (next n (merge state update)) as [n'|] eqn:Hnext.
      * specialize (IH n' (merge state update) w').
        destruct (run limit n' (merge state update) w') as [[visited r] w''].
        destruct visited as [|first rest].
        -- destruct IH as [_ ->]. split; [reflexivity|]. split; [exact I|]. discriminate.
        -- destruct IH as (-> & Hchain & Hexit).
           split; [reflexivity|]. split.
           ++ cbn [chained]. split; [eauto | exact Hchain].
           ++ intros final Hr. destruct (Hexit final Hr) as (exit & Hlast & Hex).
              exists exit. split; [|exact Hex].
              rewrite last_cons, Hlast. reflexivity.
      * split; [reflexivity|]. split; [exact I|].
        intros final _. exists n. split; [reflexivity|].
        destruct n; cbn in Hnext; try discriminate; reflexivity.
Qed.

(** Once inside the creation pipeline a run stays there. *)
Lemma generation_nodes_closed limit n state w :
  isGenerationNode n = true →
  Forall (λ x, isGenerationNode x = true) (run limit n state w).1.1.
Proof.
  revert n state w. induction limit as [|limit IH]; intros n state w Hn.
  - constructor.
  - rewrite (run_step apiKeys model planBlueprint analyseModification generate
               validate repair).
    destruct (stage n state w) as [[e|update] w'].
    + cbn. constructor; [exact Hn | constructor].
    + destruct (next n (merge state update)) as [n'|] eqn:Hnext.
      * assert (Hn' : isGenerationNode n' = true).
        { destruct n; cbn in Hn; try discriminate; cbn in Hnext;
            try (injection Hnext as <-; reflexivity).
          unfold routeValidation in Hnext.
          destruct (_ =? _); [discriminate|].
          destruct (_ <=? _); [discriminate|].
          injection Hnext as <-. reflexivity. }
        specialize (IH n' (merge state update) w' Hn').
        destruct (run limit n' (merge state update) w') as [[visited r] w''].
        cbn in *. constructor; assumption.
      * cbn. constructor; [exact Hn | constructor].
Qed.

(** X11.  A run started from the state [generateWebsite] builds always
    takes the creation branch: the router decides [create] without a
    request to the model, and every node visited after the router
    belongs to the creation pipeline and its repair loop; the chat
    answer and the modification analysis are never reached. *)
Theorem generated_site_uses_creation_pipeline prompt type limit w :
  stage intent_router (initialState prompt type) w =
    (inr (IntentRouter.decided create), w) ∧
  ∃ rest,
    (run (S limit) intent_router (initialState prompt type) w).1.1 =
      intent_router :: rest ∧
    Forall (λ x, isGenerationNode x = true) rest ∧
    ¬ In chat_response rest ∧ ¬ In modification_analyzer rest.
Proof.
  assert (Hstage : stage intent_router (initialState prompt type) w =
                     (inr (IntentRouter.decided create), w)).
  { cbn [Graph.stage]. unfold IntentRouter.intentRouterNode.
    cbn [files blueprint initialState]. rewrite map_size_empty. reflexivity. }
  split; [exact Hstage|].
  rewrite (run_step apiKeys model planBlueprint analyseModification generate
             validate repair), Hstage.
  cbn [next]. unfold routeIntent. cbn [requestIntent merge IntentRouter.decided pRequestIntent].
  pose proof (generation_nodes_closed limit blueprint_step
                (merge (initialState prompt type) (IntentRouter.decided create)) w
                eq_refl) as Hall.
  destruct (run limit blueprint_step _ w) as [[visited r] w''].
  exists visited. cbn in *. split; [reflexivity|]. split; [exact Hall|].
  rewrite Forall_forall in Hall. split; intros Hin.
  - apply list_elem_of_In in Hin. specialize (Hall _ Hin). discriminate.
  - apply list_elem_of_In in Hin. specialize (Hall _ Hin). discriminate.
Qed.

(** X12.  Once [generateWebsite] has ended, by returning or by
    throwing, a late [notifyFileCreated] or [notifyPhaseChange] reaches
    nobody: it leaves the process state as it is. *)
Theorem late_notifications_are_dropped prompt type onFileGenerated onPhaseChange
    w (f : GeneratedFile) (phase : string) :
  let w' := (generateWebsite prompt type onFileGenerated onPhaseChange w).2 in
  notifyFileCreated f w' = (inr tt, w') ∧
  notifyPhaseChange phase w' = (inr tt, w').
Proof.
  unfold Graph.generateWebsite, setFileCallback, setPhaseCallback,
    Eff.tryFinally, Eff.tryCatch, Eff.modifyWorld, Eff.throw,
    mbind, Eff_bind, Eff.bind, mret, Eff_ret, Eff.ret.
  destruct (invoke _ _ _ _ _ _ _ _ _ _) as [[error|result] w1];
    cbn; split; reflexivity.
Qed.

End GraphMore.

(** ** The event stream *)

Local Open Scope list_scope.
Local Set Warnings "-clear-no-such-hyp".

Section StreamFacts.

Import Graph Stream.

Lemma streamedPaths_app events events' :
  streamedPaths (events ++ events') = streamedPaths events ++ streamedPaths events'.
Proof. unfold streamedPaths. apply omap_app. Qed.

Lemma receive_keeps_invariant st call :
  streamInvariant st → streamInvariant (receive st call).
Proof.
  intros [Hnd Hsent]. destruct call as [f|phase]; cbn [receive].
  - unfold onFileGenerated. destruct (decide (path f ∈ sentFiles st)) as [Hin|Hout].
    + split; assumption.
    + unfold streamInvariant. cbn [written sentFiles].
      rewrite streamedPaths_app. cbn. split.
      * apply NoDup_app. split; [exact Hnd|]. split.
        -- intros p Hp Hp'. apply list_elem_of_singleton in Hp'. subst p.
           apply Hsent in Hp. contradiction.
        -- apply NoDup_singleton.
      * intros p. rewrite elem_of_app, list_elem_of_singleton, Hsent. set_solver.
  - unfold onPhaseChange, streamInvariant. cbn [written sentFiles].
    rewrite streamedPaths_app. cbn. rewrite app_nil_r. split; assumption.
Qed.

Lemma receive_all_keeps_invariant calls st :
  streamInvariant st → streamInvariant (foldl receive st calls).
Proof.
  revert st. induction calls as [|call calls IH]; intros st H; [exact H|].
  cbn [foldl]. apply IH, receive_keeps_invariant, H.
Qed.

Lemma receive_all_sent calls st :
  ∀ p, p ∈ sentFiles (foldl receive st calls) ↔
       p ∈ sentFiles st ∨ ∃ f, OnFile f ∈ calls ∧ path f = p.
Proof.
  revert st. induction calls as [|call calls IH]; intros st p.
  - cbn. split; [auto|]. intros [H|(f & Hf & _)]; [exact H|]. inversion Hf.
  - cbn [foldl]. rewrite IH. destruct call as [f|phase]; cbn [receive].
    + unfold onFileGenerated. destruct (decide (path f ∈ sentFiles st)) as [Hin|Hout].
      * split.
        -- intros [H|(g & Hg & Hp)]; [auto|]. right. exists g. split; [|exact Hp].
           apply elem_of_cons. auto.
        -- intros [H|(g & Hg & Hp)]; [auto|].
           apply elem_of_cons in Hg. destruct Hg as [[= ->]|Hg].
           ++ left. subst p. exact Hin.
           ++ right. eauto.
      * cbn [sentFiles]. split.
        -- intros [H|(g & Hg & Hp)].
           ++ apply elem_of_union in H. destruct H as [H|H]; [|auto].
              apply elem_of_singleton in H. right. exists f. split; [|auto].
              apply elem_of_cons. auto.
           ++ right. exists g. split; [|exact Hp]. apply elem_of_cons. auto.
        -- intros [H|(g & Hg & Hp)]; [left; set_solver|].
           apply elem_of_cons in Hg. destruct Hg as [[= ->]|Hg].
           ++ left. set_solver.
           ++ right. eauto.
    + cbn [onPhaseChange sentFiles]. split.
      * intros [H|(g & Hg & Hp)]; [auto|]. right. exists g. split; [|exact Hp].
        apply elem_of_cons. auto.
      * intros [H|(g & Hg & Hp)]; [auto|].
        apply elem_of_cons in Hg. destruct Hg as [Hg|Hg]; [discriminate|]. right. eauto.
Qed.

(** X13.  Whatever files the graph announces and however often it
    announces them, the stream sends each path once: the file events
    written carry no path twice, and the paths they carry are exactly
    the paths announced. *)
Theorem stream_sends_each_path_once (calls : list Callback) :
  let events := written (foldl receive started calls) in
  NoDup (streamedPaths events) ∧
  ∀ p, p ∈ streamedPaths events ↔ ∃ f, OnFile f ∈ calls ∧ path f = p.
Proof.
  intros events.
  assert (Hstart : streamInvariant started).
  { split; [constructor|]. intros p. cbn. set_solver. }
  destruct (receive_all_keeps_invariant calls started Hstart) as [Hnd Hsent].
  split; [exact Hnd|]. intros p. unfold events. rewrite Hsent, receive_all_sent.
  cbn. set_solver.
Qed.

Lemma written_grows calls st :
  ∃ progress,
    written (foldl receive st calls) = written st ++ progress ∧
    Forall (λ e, isProgress e = true) progress ∧
    omap (fun e => match e with PhaseEvent p _ => Some p | _ => None end) progress =
      omap (fun c => match c with OnPhase p => Some p | _ => None end) calls.
Proof.
  revert st. induction calls as [|call calls IH]; intros st.
  - exists []. rewrite app_nil_r. repeat split. constructor.
  - cbn [foldl]. destruct (IH (receive st call)) as (progress & E & Hall & Hph).
    destruct call as [f|phase]; cbn [receive] in *.
    + unfold onFileGenerated in *.
      destruct (decide (path f ∈ sentFiles st)).
      * exists progress. repeat split; assumption.
      * cbn [written] in E. rewrite <- app_assoc in E.
        eexists. split; [exact E|]. split.
        -- constructor; [reflexivity | exact Hall].
        -- cbn. exact Hph.
    + cbn [onPhaseChange written] in E. rewrite <- app_assoc in E.
      eexists. split; [exact E|]. split.
      * constructor; [reflexivity | exact Hall].
      * cbn. f_equal. exact Hph.
Qed.

(** X14.  For a prompt that is not empty the stream has a fixed frame:
    it opens with the one "thinking" message, then come file and phase
    events only, one phase event per phase announced and in that order,
    and it closes with exactly one event, [complete] when
    [generateWebsite] returned and [error] when it threw. *)
Theorem stream_has_fixed_frame (c : ascii) (prompt : string)
    (calls : list Callback) (outcome : JsError + Generated) :
  ∃ progress,
    respond (Some (String c prompt)) calls outcome =
      EventStream
        (MessageEvent
           "I'm analyzing your requirements and planning the website structure..."
           "thinking" :: progress ++ [closing outcome]) ∧
    Forall (λ e, isProgress e = true) progress ∧
    omap (fun e => match e with PhaseEvent p _ => Some p | _ => None end) progress =
      omap (fun c => match c with OnPhase p => Some p | _ => None end) calls ∧
    match outcome, closing outcome with
    | inr _, CompleteEvent _ _ _ => True
    | inl _, ErrorEvent _ => True
    | _, _ => False
    end.
Proof.
  destruct (written_grows calls started) as (progress & E & Hall & Hph).
  exists progress. cbn [respond]. rewrite E. cbn [started written app].
  split; [reflexivity|]. split; [exact Hall|]. split; [exact Hph|].
  destruct outcome; exact I.
Qed.

End StreamFacts.

(** ** Stored project files *)

Section FindIndexFacts.

Import JsText.

Context {A : Type}.

Lemma findIndex_Some (test : A → bool) xs i :
  findIndex test xs = Some i →
  ∃ x, xs !! i = Some x ∧ test x = true ∧
       ∀ j y, j < i → xs !! j = Some y → test y = false.
Proof.
  revert i. induction xs as [|x xs IH]; intros i; cbn [findIndex]; [discriminate|].
  destruct (test x) eqn:E.
  - intros [= <-]. exists x. repeat split; [exact E|]. intros j y Hj. lia.
  - destruct (findIndex test xs) as [k|]; [|discriminate].
    intros [= <-]. destruct (IH k eq_refl) as (y & Hy & Hty & Hfirst).
    exists y. repeat split; [exact Hy | exact Hty |].
    intros [|j] z Hj Hz; cbn in Hz.
    + injection Hz as <-. exact E.
    + apply (Hfirst j z); [lia | exact Hz].
Qed.

Lemma findIndex_None (test : A → bool) xs :
  findIndex test xs = None → Forall (λ x, test x = false) xs.
Proof.
  induction xs as [|x xs IH]; cbn [findIndex]; [constructor|].
  destruct (test x) eqn:E; [discriminate|].
  destruct (findIndex test xs); [discriminate|].
  intros _. constructor; [exact E | apply IH; reflexivity].
Qed.

Lemma findIndex_alter (test : A → bool) (g : A → A) i xs :
  (∀ x, test (g x) = test x) →
  findIndex test (alter g i xs) = findIndex test xs.
Proof.
  intros Hg. revert i. induction xs as [|x xs IH]; intros [|i]; cbn; try reflexivity.
  - rewrite Hg. reflexivity.
  - rewrite IH. reflexivity.
Qed.

Lemma findIndex_app_None (test : A → bool) xs x :
  findIndex test xs = None → test x = true →
  findIndex test (xs ++ [x]) = Some (length xs).
Proof.
  intros Hn Hx. induction xs as [|y xs IH]; cbn in *; [rewrite Hx; reflexivity|].
  destruct (test y); [discriminate|].
  destruct (findIndex test xs); [discriminate|].
  rewrite IH by reflexivity. reflexivity.
Qed.

End FindIndexFacts.

Section ProjectFacts.

Import JsText Project.

Lemma applyUpdate_paths files update :
  ∃ added,
    map path (applyUpdate files update) = map path files ++ added ∧
    length added ≤ 1 ∧
    Forall (λ p, startsWith "/" p = true) added.
Proof.
  unfold applyUpdate.
  destruct (findIndex (matchesUpdate (updatePath update)) files) as [i|].
  - exists []. rewrite app_nil_r. split; [|split; [cbn; lia | constructor]].
    clear. revert i. induction files as [|f files IH]; intros [|i]; cbn; try reflexivity.
    rewrite IH. reflexivity.
  - eexists [_]. rewrite map_app. split; [reflexivity|]. split; [cbn; lia|].
    constructor; [|constructor]. cbn. unfold normalizedPath.
    destruct (startsWith "/" (updatePath update)) eqn:E; [exact E | reflexivity].
Qed.

(** X15.  Patching files never removes or renames a stored file: the
    stored paths stay, in order, and what is added comes after them, at
    most one new file per update and each under a path that starts with
    a slash; [updatedCount] is the number of updates, whether they
    overwrote or added. *)
Theorem patch_keeps_stored_paths files updates :
  ∃ added,
    map path (applyUpdates files updates).1 = map path files ++ added ∧
    length added ≤ length updates ∧
    Forall (λ p, startsWith "/" p = true) added ∧
    (applyUpdates files updates).2 = length updates.
Proof.
  unfold applyUpdates.
  assert (H : ∀ updates files count,
    ∃ added,
      map path (foldl (λ acc update, (applyUpdate acc.1 update, S acc.2))
                  (files, count) updates).1 = map path files ++ added ∧
      length added ≤ length updates ∧
      Forall (λ p, startsWith "/" p = true) added ∧
      (foldl (λ acc update, (applyUpdate acc.1 update, S acc.2))
         (files, count) updates).2 = count + length updates).
  { clear. induction updates as [|u updates IH]; intros files count.
    - exists []. rewrite app_nil_r. cbn. repeat split; [lia | constructor | lia].
    - cbn [foldl fst snd].
      destruct (IH (applyUpdate files u) (S count)) as (added & E & Hlen & Hall & Hc).
      destruct (applyUpdate_paths files u) as (added1 & E1 & Hlen1 & Hall1).
      exists (added1 ++ added). rewrite E, E1, <- app_assoc.
      split; [reflexivity|]. split; [rewrite length_app; cbn; lia|].
      split; [apply Forall_app; split; assumption|]. rewrite Hc. cbn. lia. }
  destruct (H updates files 0) as (added & E & Hlen & Hall & Hc).
  exists added. repeat split; assumption.
Qed.

(** X16.  An update can be read back: after it is applied, looking for
    its path the way the endpoint does finds a file that holds the
    update's content. *)
Theorem patch_can_be_read_back files update :
  ∃ i f,
    findIndex (matchesUpdate (updatePath update)) (applyUpdate files update) = Some i ∧
    applyUpdate files update !! i = Some f ∧
    content f = updateContent update.
Proof.
  unfold applyUpdate.
  destruct (findIndex (matchesUpdate (updatePath update)) files) as [i|] eqn:E.
  - destruct (findIndex_Some _ _ _ E) as (f & Hf & _).
    exists i, (withContent (updateContent update) f).
    split; [rewrite findIndex_alter by reflexivity; exact E|].
    split; [|reflexivity].
    rewrite list_lookup_alter_eq, Hf. reflexivity.
  - exists (length files),
      {| path := normalizedPath (updatePath update);
         content := updateContent update |}.
    split.
    + apply findIndex_app_None; [exact E|].
      unfold matchesUpdate. cbn. rewrite String.eqb_refl. reflexivity.
    + split; [|reflexivity]. rewrite lookup_app_r by lia.
      rewrite Nat.sub_diag. reflexivity.
Qed.

(** X17.  Applying the same update twice is the same as applying it
    once. *)
Theorem patch_is_idempotent files update :
  applyUpdate (applyUpdate files update) update = applyUpdate files update.
Proof.
  unfold applyUpdate at 2 3.
  destruct (findIndex (matchesUpdate (updatePath update)) files) as [i|] eqn:E.
  - unfold applyUpdate. rewrite findIndex_alter by reflexivity. rewrite E.
    clear E. revert i. induction files as [|f files IH]; intros [|i]; cbn; try reflexivity.
    rewrite IH. reflexivity.
  - unfold applyUpdate. rewrite findIndex_app_None;
      [| exact E | unfold matchesUpdate; cbn; rewrite String.eqb_refl; reflexivity].
    clear E. induction files as [|f files IH]; [reflexivity|].
    cbn. cbn in IH. rewrite IH. reflexivity.
Qed.

End ProjectFacts.

(** ** Splitting and joining *)

Section SplitFacts.

Import JsText.

Lemma split_nonempty sep s : split sep s ≠ [].
Proof.
  destruct s as [|c s]; cbn [split]; [discriminate|].
  destruct (Ascii.eqb c sep); [discriminate|].
  destruct (split sep s); discriminate.
Qed.

Lemma split_app sep a b :
  split sep (a +:+ String sep b) = split sep a ++ split sep b.
Proof.
  induction a as [|c a IH].
  - change (EmptyString +:+ String sep b) with (String sep b).
    cbn [split]. rewrite Ascii.eqb_refl. reflexivity.
  - rewrite append_cons. cbn [split]. rewrite IH.
    destruct (Ascii.eqb c sep); [reflexivity|].
    pose proof (split_nonempty sep a) as Hne.
    destruct (split sep a) as [|part parts]; [contradiction|]. reflexivity.
Qed.

Lemma concat_cons_cons sep (x y : string) l :
  String.concat sep (x :: y :: l) = x +:+ sep +:+ String.concat sep (y :: l).
Proof. reflexivity. Qed.

(** Splitting at a character and joining with it gives the text back. *)
Lemma join_split sep s :
  join (String sep EmptyString) (split sep s) = s.
Proof.
  unfold join. induction s as [|c s IH]; [reflexivity|].
  cbn [split]. pose proof (split_nonempty sep s) as Hne.
  destruct (Ascii.eqb c sep) eqn:E.
  - apply Ascii.eqb_eq in E. subst c.
    destruct (split sep s) as [|part parts]; [contradiction|].
    rewrite concat_cons_cons, IH. reflexivity.
  - destruct (split sep s) as [|part [|part' parts]]; [contradiction| |].
    + cbn in IH. cbn. rewrite IH. reflexivity.
    + rewrite concat_cons_cons in *. rewrite append_cons, IH. reflexivity.
Qed.

Lemma endsWith_empty s : endsWith EmptyString s = true.
Proof.
  induction s as [|c s IH]; [reflexivity|]. cbn [endsWith]. rewrite IH.
  apply orb_true_r.
Qed.

End SplitFacts.

Section MergeFacts.

Import JsText Project.

Lemma baseName_of_directory dir : baseName (dir +:+ "/") = EmptyString.
Proof.
  unfold baseName, pop.
  change (dir +:+ "/") with (dir +:+ String "/" EmptyString).
  rewrite split_app. cbn [split]. rewrite last_snoc. reflexivity.
Qed.

Lemma alter_keeps_paths g i (files : list IProjectFile) :
  (∀ f, path (g f) = path f) → map path (alter g i files) = map path files.
Proof.
  intros Hg. revert i. induction files as [|f files IH]; intros [|i]; cbn;
    try reflexivity.
  - rewrite Hg. reflexivity.
  - rewrite IH. reflexivity.
Qed.

Lemma applyModified_paths files m :
  ∃ added,
    map path (applyModified files m) = map path files ++ added ∧
    (added = [] ∨ (added = [modifiedPath m] ∧ action m = created)).
Proof.
  unfold applyModified.
  destruct (findIndex (matchesModified m) files) as [i|].
  - exists []. rewrite app_nil_r, alter_keeps_paths by reflexivity. auto.
  - destruct (action m) eqn:E.
    + exists []. rewrite app_nil_r. auto.
    + exists [modifiedPath m]. rewrite map_app. auto.
Qed.

Lemma mergeModified_paths files ms :
  ∃ added,
    map path (mergeModified files ms) = map path files ++ added ∧
    length added ≤ length (filter (λ m, action m = created) ms) ∧
    Forall (λ p, ∃ m, m ∈ ms ∧ action m = created ∧ modifiedPath m = p) added.
Proof.
  unfold mergeModified. revert files.
  induction ms as [|m ms IH]; intros files.
  - exists []. rewrite app_nil_r. cbn. repeat split; [lia | constructor].
  - cbn [foldl]. destruct (IH (applyModified files m)) as (added & E & Hlen & Hall).
    destruct (applyModified_paths files m) as (added1 & E1 & Hcase).
    exists (added1 ++ added). rewrite E, E1, <- app_assoc. split; [reflexivity|].
    rewrite filter_cons. split.
    + rewrite length_app. destruct Hcase as [->|[-> Hc]].
      * cbn. destruct (decide (action m = created)); cbn; lia.
      * rewrite decide_True by exact Hc. cbn. lia.
    + apply Forall_app. split.
      * destruct Hcase as [->|[-> Hc]]; [constructor|].
        constructor; [|constructor]. exists m. split; [apply elem_of_cons; auto | auto].
      * eapply Forall_impl; [exact Hall|]. intros p (m' & Hin & Hc & Hp).
        exists m'. split; [apply elem_of_cons; auto | auto].
Qed.

(** X18.  Merging modified files into a project never removes or
    renames a stored file: the stored paths stay, in order; what comes
    after them are paths of [created] entries only, at most one per
    such entry. *)
Theorem merge_keeps_stored_paths files ms :
  ∃ added,
    map path (mergeModified files ms) = map path files ++ added ∧
    length added ≤ length (filter (λ m, action m = created) ms) ∧
    Forall (λ p, ∃ m, m ∈ ms ∧ action m = created ∧ modifiedPath m = p) added.
Proof. apply mergeModified_paths. Qed.

(** X19.  A modified file whose path ends with a slash has an empty
    base name, and every stored path ends with the empty text: in a
    project that is not empty such an entry overwrites the content of
    the first stored file, whatever that file is. *)
Theorem directory_path_overwrites_first_file dir newContent act f rest :
  applyModified (f :: rest)
    {| modifiedPath := dir +:+ "/"; modifiedContent := newContent; action := act |} =
  withContent newContent f :: rest.
Proof.
  unfold applyModified, matchesModified. cbn [findIndex modifiedPath modifiedContent].
  rewrite baseName_of_directory, endsWith_empty, orb_true_r. reflexivity.
Qed.

End MergeFacts.

(** ** The modification service and its endpoint *)

Section ModificationFacts.

Import JsText Project ModificationService.

Variable invokeLLM : nat -> JsError + string.
Variable JSON_parse : string -> JsError + Json.
Variable writeProject : list IProjectFile -> JsError + unit.

Local Abbreviation applyOne := (applyOne invokeLLM).
Local Abbreviation applyEach := (applyEach invokeLLM).
Local Abbreviation applyModifications := (applyModifications invokeLLM).
Local Abbreviation applyOneRaw := (applyOneRaw invokeLLM).
Local Abbreviation applyEachRaw := (applyEachRaw invokeLLM).
Local Abbreviation applyModificationsRaw := (applyModificationsRaw invokeLLM).
Local Abbreviation parsePlan := (parsePlan JSON_parse).
Local Abbreviation analyzeModificationRequest :=
  (analyzeModificationRequest invokeLLM JSON_parse).
Local Abbreviation modifyProject := (modifyProject invokeLLM JSON_parse writeProject).
Local Abbreviation modifyEndpoint := (modifyEndpoint invokeLLM JSON_parse writeProject).
Local Abbreviation modifyHandler := (modifyHandler invokeLLM JSON_parse writeProject).

(** What one entry of the result is allowed to be. *)
Lemma find_Some {A} (test : A → bool) xs x :
  find test xs = Some x → x ∈ xs ∧ test x = true.
Proof.
  induction xs as [|y xs IH]; cbn [find]; [discriminate|].
  destruct (test y) eqn:E.
  - intros [= <-]. split; [apply elem_of_cons; auto | exact E].
  - intros H. destruct (IH H) as [Hin Ht]. split; [apply elem_of_cons; auto | exact Ht].
Qed.

Lemma generateNewFile_returns filePath request w :
  ∃ generated,
    generateNewFile invokeLLM filePath request w =
      (inr generated, set_requests (S (requests w)) w).
Proof.
  unfold generateNewFile, Eff.tryCatch, askModel, mbind, Eff_bind, Eff.bind.
  destruct (invokeLLM (requests w)); eexists; reflexivity.
Qed.

Lemma modifyExistingFile_returns filePath current request why w :
  ∃ newContent,
    modifyExistingFile invokeLLM filePath current request why w =
      (inr newContent, set_requests (S (requests w)) w).
Proof.
  unfold modifyExistingFile, Eff.tryCatch, askModel, mbind, Eff_bind, Eff.bind.
  destruct (invokeLLM (requests w)); eexists; reflexivity.
Qed.

Lemma applyOne_returns request files m w :
  ∃ pushed w',
    applyOne request files m w = (inr pushed, w') ∧
    length pushed ≤ (if asksModel m then 1 else 0) ∧
    requests w ≤ requests w' ≤ requests w + (if asksModel m then 1 else 0) ∧
    Forall
      (λ r, modifiedContent r ≠ EmptyString ∧
            match action r with
            | created =>
                modificationAction m = create ∧ modifiedPath r = modificationPath m
            | modified =>
                modificationAction m = modify ∧
                ∃ f, f ∈ files ∧ path f = modifiedPath r ∧
                     content f ≠ modifiedContent r
            end)
      pushed.
Proof.
  unfold ModificationService.applyOne, asksModel.
  destruct (modificationAction m) eqn:Ha.
  - destruct (find _ files) as [existing|] eqn:Hfind.
    + destruct (find_Some _ _ _ Hfind) as [Hin _].
      unfold mbind, Eff_bind, Eff.bind.
      destruct (modifyExistingFile_returns (path existing) (content existing)
                  request (reason m) w) as [newContent ->].
      destruct newContent as [[|c code]|].
      * eexists _, _. split; [reflexivity|]. cbn. repeat split; try lia. constructor.
      * destruct (String.eqb (String c code) (content existing)) eqn:Eq.
        -- eexists _, _. split; [reflexivity|]. cbn. repeat split; try lia. constructor.
        -- eexists _, _. split; [reflexivity|]. cbn. repeat split; try lia.
           constructor; [|constructor]. cbn. split; [discriminate|]. split; [reflexivity|].
           exists existing. repeat split; [exact Hin|].
           intros Hc. rewrite Hc, String.eqb_refl in Eq. discriminate.
      * eexists _, _. split; [reflexivity|]. cbn. repeat split; try lia. constructor.
    + eexists _, w. split; [reflexivity|]. cbn. repeat split; try lia. constructor.
  - unfold mbind, Eff_bind, Eff.bind.
    destruct (generateNewFile_returns (modificationPath m) request w) as [generated ->].
    destruct generated as [[|c code]|].
    + eexists _, _. split; [reflexivity|]. cbn. repeat split; try lia. constructor.
    + eexists _, _. split; [reflexivity|]. cbn. repeat split; try lia.
      constructor; [|constructor]. cbn. split; [discriminate|]. split; reflexivity.
    + eexists _, _. split; [reflexivity|]. cbn. repeat split; try lia. constructor.
  - eexists _, w. split; [reflexivity|]. cbn. repeat split; try lia. constructor.
Qed.

Lemma applyEach_returns request files ms w :
  ∃ out w',
    applyEach request files ms w = (inr out, w') ∧
    length out ≤ length (List.filter asksModel ms) ∧
    requests w ≤ requests w' ≤ requests w + length (List.filter asksModel ms) ∧
    Forall
      (λ r, modifiedContent r ≠ EmptyString ∧
            match action r with
            | created =>
                ∃ m, m ∈ ms ∧ modificationAction m = create ∧
                     modifiedPath r = modificationPath m
            | modified =>
                ∃ f, f ∈ files ∧ path f = modifiedPath r ∧
                     content f ≠ modifiedContent r
            end)
      out.
Proof.
  revert w. induction ms as [|m ms IH]; intros w.
  - eexists _, w. split; [reflexivity|]. cbn. repeat split; try lia. constructor.
  - cbn [ModificationService.applyEach]. unfold mbind, Eff_bind, Eff.bind.
    destruct (applyOne_returns request files m w) as (pushed & w1 & -> & Hl1 & Hr1 & Hall1).
    destruct (IH w1) as (later & w2 & -> & Hl2 & Hr2 & Hall2).
    eexists _, _. split; [reflexivity|].
    cbn [List.filter]. split; [|split].
    + rewrite length_app. destruct (asksModel m); cbn [length]; lia.
    + destruct (asksModel m); cbn [length]; lia.
    + apply Forall_app. split.
      * eapply Forall_impl; [exact Hall1|]. intros r [Hne Hr]. split; [exact Hne|].
        destruct (action r).
        -- tauto.
        -- destruct Hr as [Hc Hp]. exists m. split; [apply elem_of_cons; auto | auto].
      * eapply Forall_impl; [exact Hall2|]. intros r [Hne Hr]. split; [exact Hne|].
        destruct (action r); [exact Hr|].
        destruct Hr as (m' & Hin & Hc & Hp). exists m'.
        split; [apply elem_of_cons; auto | auto].
Qed.

(** X20.  [applyModifications] never throws.  It returns at most one
    entry per [create] or [modify] entry of the plan and none for any
    other entry, so a [delete] is never acted upon; it sends at most one
    request per [create] or [modify] entry. *)
Theorem modifications_never_throw request plan files w :
  ∃ out w',
    applyModifications request plan files w = (inr out, w') ∧
    length out ≤ length (List.filter asksModel (filesToModify plan)) ∧
    requests w ≤ requests w' ≤
      requests w + length (List.filter asksModel (filesToModify plan)).
Proof.
  destruct (applyEach_returns request files (filesToModify plan) w)
    as (out & w' & E & Hl & Hr & _).
  exists out, w'. split; [exact E|]. split; assumption.
Qed.

(** X21.  Every entry [applyModifications] returns has content that is
    not empty; a [modified] entry carries the path of a stored file
    whose content differs from the new one; a [created] entry carries
    the path of a [create] entry of the plan. *)
Theorem modifications_are_real_changes request plan files w :
  Forall
    (λ r, modifiedContent r ≠ EmptyString ∧
          match action r with
          | created =>
              ∃ m, m ∈ filesToModify plan ∧ modificationAction m = create ∧
                   modifiedPath r = modificationPath m
          | modified =>
              ∃ f, f ∈ files ∧ path f = modifiedPath r ∧
                   content f ≠ modifiedContent r
          end)
    (match (applyModifications request plan files w).1 with
     | inr out => out
     | inl _ => []
     end).
Proof.
  destruct (applyEach_returns request files (filesToModify plan) w)
    as (out & w' & E & _ & _ & Hall).
  unfold ModificationService.applyModifications. rewrite E. exact Hall.
Qed.

Lemma analyze_returns request files w :
  ∃ plan,
    analyzeModificationRequest request files w =
      (inr plan, set_requests (S (requests w)) w) ∧
    ((∃ e, invokeLLM (requests w) = inl e) ∨
     (∃ response e, invokeLLM (requests w) = inr response ∧
                    parsePlan (cleanPlanText response) = inl e) →
     plan = analysisFailed).
Proof.
  unfold ModificationService.analyzeModificationRequest, Eff.tryCatch, askModel,
    mbind, Eff_bind, Eff.bind.
  destruct (invokeLLM (requests w)) as [e|response] eqn:Hm; cbv beta iota.
  - exists analysisFailed. split; [reflexivity | auto].
  - destruct (parsePlan (cleanPlanText response)) as [e|plan] eqn:Hp.
    + exists analysisFailed. split; [reflexivity | auto].
    + exists plan. split; [reflexivity|].
      intros [[e He]|(r & e & Hr & He)]; [discriminate|].
      injection Hr as <-. rewrite Hp in He. discriminate.
Qed.

(** X22.  A failed analysis is reported as success.  When the request
    of the analysis throws, or its answer does not parse, the endpoint
    answers "no modifications needed", saves nothing, and has sent that
    one request only. *)
Theorem failed_analysis_reads_as_no_change (c : ascii) request files w :
  (∃ e, invokeLLM (requests w) = inl e) ∨
  (∃ response e, invokeLLM (requests w) = inr response ∧
                 parsePlan (cleanPlanText response) = inl e) →
  modifyEndpoint (Some (String c request)) (Some files) w =
    (inr (NoModificationsNeeded, None), set_requests (S (requests w)) w).
Proof.
  intros Hfail.
  unfold ModificationService.modifyEndpoint, answering, ModificationService.modifyProject,
    Eff.tryCatch, mbind, Eff_bind, Eff.bind.
  destruct (analyze_returns (String c request) files w) as (plan & -> & Hplan).
  rewrite (Hplan Hfail). reflexivity.
Qed.

(** On an entry of the declared shape the loop over any value does what
    the loop over the declared shape does. *)
Lemma applyOneRaw_of_entry request files m w :
  applyOneRaw request files (entryJson m) w = applyOne request files m w.
Proof.
  unfold ModificationService.applyOneRaw, ModificationService.applyOne, entryJson.
  destruct (modificationAction m); reflexivity.
Qed.

Lemma applyEachRaw_of_entries request files ms w :
  applyEachRaw request files (map entryJson ms) w = applyEach request files ms w.
Proof.
  revert w. induction ms as [|m ms IH]; intros w; [reflexivity|].
  cbn [map ModificationService.applyEachRaw ModificationService.applyEach].
  unfold mbind, Eff_bind, Eff.bind.
  rewrite applyOneRaw_of_entry.
  destruct (applyOne request files m w) as [[e|pushed] w1]; [reflexivity|].
  rewrite IH. reflexivity.
Qed.

(** What the handler does once the request is there and the project
    found: it throws, or it answers that nothing is to be done and
    saves nothing, or it saves the merged files, which the schema and
    the database accepted, and answers with them. *)
Lemma modifyProject_saves request files w :
  match modifyProject request files w with
  | (inl _, _) => True
  | (inr (reply, saved), _) =>
      (reply = NoModificationsNeeded ∧ saved = None) ∨
      ∃ modifiedFiles planSummary,
        reply = Applied modifiedFiles planSummary
                  (length (mergeModified files modifiedFiles)) ∧
        saved = Some (mergeModified files modifiedFiles) ∧
        schemaAccepts (mergeModified files modifiedFiles) = true ∧
        writeProject (mergeModified files modifiedFiles) = inr tt
  end.
Proof.
  unfold ModificationService.modifyProject, mbind, Eff_bind, Eff.bind.
  destruct (analyzeModificationRequest request files w) as [[e|plan] w1]; [exact I|].
  destruct (filesToModifyOf plan) as [e|toModify]; [exact I|].
  destruct (lengthIsZero toModify); [left; split; reflexivity|].
  destruct (applyModificationsRaw request toModify files w1) as [[e|out] w2]; [exact I|].
  unfold saveProject.
  destruct (schemaAccepts (mergeModified files out)) eqn:Hschema; [|exact I].
  destruct (writeProject (mergeModified files out)) as [e|[]] eqn:Hwrite; [exact I|].
  right. exists out, (summaryOf plan). repeat split; assumption.
Qed.

Lemma answering_saves request files w :
  ∃ reply saved w',
    answering (modifyProject request files) w = (inr (reply, saved), w') ∧
    match saved with
    | Some files' =>
        ∃ modifiedFiles planSummary,
          reply = Applied modifiedFiles planSummary (length files') ∧
          files' = mergeModified files modifiedFiles ∧
          schemaAccepts files' = true ∧
          writeProject files' = inr tt
    | None => ∀ modifiedFiles planSummary count,
                reply ≠ Applied modifiedFiles planSummary count
    end.
Proof.
  unfold answering, Eff.tryCatch.
  pose proof (modifyProject_saves request files w) as H.
  destruct (modifyProject request files w) as [[e|[reply saved]] w1].
  - eexists _, _, _. split; [reflexivity|]. cbn. discriminate.
  - exists reply, saved, w1. split; [reflexivity|].
    destruct H as [[-> ->]|(out & planSummary & -> & -> & Hschema & Hwrite)].
    + discriminate.
    + exists out, planSummary. repeat split; assumption.
Qed.


End ModificationFacts.

(** ** The path migration *)

Section MigrationFacts.

Import JsText Project Migration.

Lemma some_true {A} (test : A → bool) xs :
  some test xs = true → ∃ x, In x xs ∧ test x = true.
Proof. unfold some. apply existsb_exists. Qed.

Lemma root_file_is_not_src cleanPath :
  isRootFile cleanPath = true → shouldBeInSrc cleanPath = false.
Proof.
  intros H. apply some_true in H. destruct H as (rf & Hin & Heq).
  apply String.eqb_eq in Heq. subst cleanPath.
  cbn in Hin. repeat (destruct Hin as [<-|Hin]; [reflexivity|]). contradiction.
Qed.

Lemma src_prefixed_stays cleanPath :
  isRootFile ("src/" +:+ cleanPath) = false ∧
  shouldBeInSrc ("src/" +:+ cleanPath) = false.
Proof. split; reflexivity. Qed.

Lemma leading_slash_added p :
  startsWith "/" (if startsWith "/" p then p else String "/" p) = true.
Proof. destruct (startsWith "/" p) eqn:E; [exact E | reflexivity]. Qed.

Lemma dropLeadingSlash_of_slashed p :
  dropLeadingSlash (if startsWith "/" p then p else String "/" p) = dropLeadingSlash p.
Proof.
  destruct p as [|c p]; [reflexivity|].
  destruct (Ascii.eqb c "/") eqn:E.
  - apply Ascii.eqb_eq in E. subst c. reflexivity.
  - assert (E' : Ascii.eqb "/" c = false) by (rewrite Ascii.eqb_sym; exact E).
    cbn [startsWith]. rewrite E'. cbn [dropLeadingSlash].
    rewrite Ascii.eqb_refl, E. reflexivity.
Qed.

Lemma normalizeFile_kept p fileContent :
  startsWith "/" p = true →
  (isRootFile (dropLeadingSlash p) = true ∨ shouldBeInSrc (dropLeadingSlash p) = false) →
  normalizeFile {| path := p; content := fileContent |} =
    {| path := p; content := fileContent |}.
Proof.
  intros Hp Hcase. unfold normalizeFile. cbn [path content]. rewrite Hp.
  destruct (isRootFile (dropLeadingSlash p)) eqn:Hroot; [reflexivity|].
  destruct Hcase as [Hc|Hc]; [discriminate|]. rewrite Hc. reflexivity.
Qed.

(** X24.  Normalising a file path once is enough: a second pass over a
    normalised file changes nothing. *)
Theorem normalizeFile_is_idempotent file :
  normalizeFile (normalizeFile file) = normalizeFile file.
Proof.
  unfold normalizeFile at 2 3.
  set (p := if startsWith "/" (path file) then path file else String "/" (path file)).
  assert (Hp : startsWith "/" p = true) by apply leading_slash_added.
  destruct (isRootFile (dropLeadingSlash p)) eqn:Hroot.
  - apply normalizeFile_kept; auto.
  - destruct (shouldBeInSrc (dropLeadingSlash p)) eqn:Hsrc.
    + apply normalizeFile_kept; [reflexivity|]. right.
      apply (proj2 (src_prefixed_stays (dropLeadingSlash p))).
    + apply normalizeFile_kept; auto.
Qed.

(** X25.  A project the migration has normalised is skipped by the next
    run as already normalised; the files it wrote are as many as before,
    with the same contents in the same order, and every path it wrote
    starts with a slash. *)
Theorem migration_runs_once files normalizedFiles :
  normalizeProject files = Normalized normalizedFiles →
  normalizeProject normalizedFiles = SkippedAlreadyNormalized ∧
  map content normalizedFiles = map content files ∧
  Forall (λ f, startsWith "/" (path f) = true) normalizedFiles.
Proof.
  unfold normalizeProject. destruct files as [|f0 files0] eqn:Hfiles; [discriminate|].
  rewrite <- Hfiles. clear Hfiles.
  destruct (alreadyNormalized files); [discriminate|].
  destruct (hasSrcFiles files) eqn:Hsrc; [|discriminate].
  cbn [negb]. intros [= <-].
  assert (Hcontent : map content (map normalizeFile files) = map content files).
  { clear. induction files as [|f files IH]; [reflexivity|]. cbn [map]. rewrite IH.
    f_equal. unfold normalizeFile.
    destruct (isRootFile _); [reflexivity|]. destruct (shouldBeInSrc _); reflexivity. }
  assert (Hslash : Forall (λ f, startsWith "/" (path f) = true) (map normalizeFile files)).
  { clear. apply Forall_map, Forall_forall. intros f _. unfold normalizeFile.
    destruct (isRootFile _); [apply leading_slash_added|].
    destruct (shouldBeInSrc _); [reflexivity | apply leading_slash_added]. }
  split; [|split; assumption].
  assert (Hnow : alreadyNormalized (map normalizeFile files) = true).
  { apply some_true in Hsrc. destruct Hsrc as (f & Hin & Hf).
    unfold alreadyNormalized, some. apply existsb_exists.
    exists (normalizeFile f). split; [apply in_map; exact Hin|].
    unfold normalizeFile. rewrite dropLeadingSlash_of_slashed.
    destruct (isRootFile (dropLeadingSlash (path f))) eqn:Hroot.
    - apply root_file_is_not_src in Hroot. rewrite Hroot in Hf. discriminate.
    - rewrite Hf. reflexivity. }
  destruct (map normalizeFile files) as [|g gs] eqn:Hmap.
  - discriminate.
  - rewrite Hnow. reflexivity.
Qed.

End MigrationFacts.

(** ** Zip import *)

Section ZipImportFacts.

Import JsText Project Migration ZipImport.

Lemma split_without_separator sep s :
  includes (String sep EmptyString) s = false → split sep s = [s].
Proof.
  induction s as [|c s IH]; [reflexivity|].
  cbn [includes startsWith]. intros H. apply orb_false_iff in H. destruct H as [H1 H2].
  cbn [split]. destruct (Ascii.eqb c sep) eqn:E.
  - rewrite Ascii.eqb_sym, E in H1. destruct s; discriminate.
  - rewrite (IH H2). reflexivity.
Qed.

Lemma withoutRootFolder_first dir rest :
  includes "/" dir = false → includes "." dir = false →
  withoutRootFolder (dir +:+ String "/" rest) = rest.
Proof.
  intros Hslash Hdot. unfold withoutRootFolder.
  rewrite split_app, (split_without_separator _ _ Hslash).
  pose proof (split_nonempty "/" rest) as Hne.
  destruct (split "/" rest) as [|part parts] eqn:E; [contradiction|].
  cbn [app length Nat.ltb Nat.leb]. rewrite Hdot. cbn [negb].
  rewrite <- E. apply join_split.
Qed.

(** X26.  The import drops the first folder of an entry whenever that
    folder has no dot in its name: [dir/rest] is handled as [rest],
    also when [dir] is a folder of the project and not a root folder of
    the archive. *)
Theorem import_drops_first_folder dir rest :
  includes "/" dir = false → includes "." dir = false →
  withoutRootFolder (dir +:+ String "/" rest) = rest.
Proof. apply withoutRootFolder_first. Qed.

Lemma includes_cons p c s :
  includes p (String c s) = startsWith p (String c s) || includes p s.
Proof. reflexivity. Qed.

Lemma slashes_has_no_backslash s :
  includes (String backslash EmptyString) (slashes s) = false.
Proof.
  induction s as [|c s IH]; [reflexivity|].
  cbn [slashes includes]. rewrite IH, orb_false_r.
  destruct (Ascii.eqb c backslash) eqn:E.
  - reflexivity.
  - apply startsWith_one_false. exact E.
Qed.

(** X27.  Every path the import stores starts with a slash, holds no
    backslash, and comes from a name that is not hidden and whose
    extension, in lower case, is one of the text extensions. *)
Theorem imported_paths_are_clean isDirectory entryName stored :
  importedPath isDirectory entryName = Some stored →
  startsWith "/" stored = true ∧
  includes (String backslash EmptyString) stored = false ∧
  isDirectory = false ∧
  startsWith "." (withoutRootFolder entryName) = false ∧
  In (extensionOf (withoutRootFolder entryName)) textExtensions.
Proof.
  unfold importedPath. destruct isDirectory; [discriminate|].
  destruct (withoutRootFolder entryName) as [|c name] eqn:En; [discriminate|].
  destruct (startsWith "." (String c name)) eqn:Hhidden; [discriminate|].
  destruct (some (String.eqb (extensionOf (String c name))) textExtensions) eqn:Hext;
    [|discriminate].
  cbn [negb]. intros [= <-]. split; [reflexivity|]. split.
  - pose proof (slashes_has_no_backslash (String c name)) as Hs.
    cbn [slashes] in Hs. rewrite includes_cons, Hs, orb_false_r. reflexivity.
  - split; [reflexivity|]. split; [reflexivity|].
    apply some_true in Hext. destruct Hext as (e & Hin & He).
    apply String.eqb_eq in He. rewrite He. exact Hin.
Qed.

Lemma slashes_id s :
  includes (String backslash EmptyString) s = false → slashes s = s.
Proof.
  induction s as [|c s IH]; [reflexivity|].
  cbn [includes startsWith]. intros H. apply orb_false_iff in H. destruct H as [H1 H2].
  cbn [slashes]. rewrite (IH H2).
  destruct (Ascii.eqb c backslash) eqn:E; [|reflexivity].
  rewrite Ascii.eqb_sym, E in H1. destruct s; discriminate.
Qed.

(** X28.  Import and migration together: an entry [src/rest] of a zip
    without a root folder is stored as [/rest], the [src] folder lost;
    when [rest] is one of the files or lies in one of the folders that
    belong under [src], normalising the stored file gives [/src/rest]
    back. *)
Theorem migration_restores_src_folder rest stored fileContent :
  importedPath false ("src/" +:+ rest) = Some stored →
  includes (String backslash EmptyString) rest = false →
  shouldBeInSrc rest = true →
  stored = String "/" rest ∧
  path (normalizeFile {| path := stored; content := fileContent |}) = "/src/" +:+ rest.
Proof.
  intros Himp Hback Hsrc.
  assert (Hname : withoutRootFolder ("src/" +:+ rest) = rest).
  { change ("src/" +:+ rest) with ("src" +:+ String "/" rest).
    apply withoutRootFolder_first; reflexivity. }
  unfold importedPath in Himp. rewrite Hname in Himp. cbv zeta in Himp.
  rewrite (slashes_id _ Hback) in Himp.
  destruct rest as [|c rest']; [discriminate|].
  destruct (startsWith "." (String c rest')); [discriminate|].
  destruct (negb _); [discriminate|].
  injection Himp as <-. split; [reflexivity|].
  unfold normalizeFile. cbn [path content startsWith]. rewrite Ascii.eqb_refl.
  cbn [dropLeadingSlash]. rewrite Ascii.eqb_refl.
  destruct (isRootFile (String c rest')) eqn:Hroot.
  - apply root_file_is_not_src in Hroot. rewrite Hroot in Hsrc. discriminate.
  - rewrite Hsrc. reflexivity.
Qed.

End ZipImportFacts.

(** ** Components and design system read off the context *)

Section BlueprintContextFacts.

Import BlueprintContext.

(** X29.  Whatever the context says, the components extracted from it
    have pairwise different names; the list opens with the layout and
    the base components and closes with the four feature components
    that are always present. *)
Theorem extracted_components_are_distinct context :
  NoDup (map componentName (extractComponentsFromContext context)) ∧
  ∃ optional,
    extractComponentsFromContext context =
      layoutComponents ++ baseComponents ++ optional ++ alwaysComponents.
Proof.
  split.
  - unfold extractComponentsFromContext, when.
    generalize (toLowerCase context). intros lower.
    destruct (includes "product" lower || includes "shop" lower);
    destruct (includes "testimonial" lower || includes "review" lower);
    destruct (includes "pricing" lower || includes "plan" lower);
    destruct (includes "dashboard" lower || includes "stat" lower);
    destruct (includes "blog" lower || includes "article" lower);
    destruct (includes "contact" lower || includes "form" lower);
    destruct (includes "team" lower || includes "member" lower);
    apply (bool_decide_unpack _); vm_compute; exact I.
  - exists (when (toLowerCase context) "product" "shop" shopComponents ++
            when (toLowerCase context) "testimonial" "review" reviewComponents ++
            when (toLowerCase context) "pricing" "plan" pricingComponents ++
            when (toLowerCase context) "dashboard" "stat" dashboardComponents ++
            when (toLowerCase context) "blog" "article" blogComponents ++
            when (toLowerCase context) "contact" "form" formComponents ++
            when (toLowerCase context) "team" "member" teamComponents).
    unfold extractComponentsFromContext. cbv zeta.
    rewrite <- !app_assoc. reflexivity.
Qed.

Lemma hexColours_bounded n s :
  String.length s ≤ n → Forall (λ c, isHexColour c = true) (hexColours s).
Proof.
  revert s. induction n as [|n IH]; intros s Hlen.
  - destruct s; [constructor | cbn in Hlen; lia].
  - destruct s as [|c tl]; [constructor|].
    cbn [String.length] in Hlen. cbn [hexColours].
    assert (Htl : Forall (λ c, isHexColour c = true) (hexColours tl))
      by (apply IH; lia).
    destruct (Ascii.eqb c "#") eqn:Ec; [|exact Htl].
    destruct tl as [|a [|b [|d [|e [|f [|g rest]]]]]]; try exact Htl.
    destruct (isHexDigit a && isHexDigit b && isHexDigit d &&
              isHexDigit e && isHexDigit f && isHexDigit g) eqn:Hhex; [|exact Htl].
    constructor.
    + cbn [isHexColour]. rewrite Ec. exact Hhex.
    + apply IH. cbn [String.length] in Hlen. lia.
Qed.

(** X30.  The design system read off a context is always well formed:
    its three colours are colour codes, a hash sign and six hexadecimal
    digits each, and its style is one of [minimal], [playful],
    [corporate] and [modern]. *)
Theorem design_system_is_well_formed context :
  let design := extractDesignSystem context in
  isHexColour (primaryColor design) = true ∧
  isHexColour (secondaryColor design) = true ∧
  isHexColour (accentColor design) = true ∧
  In (style design) ["minimal"; "playful"; "corporate"; "modern"].
Proof.
  intros design. subst design. unfold extractDesignSystem.
  pose proof (hexColours_bounded (String.length context) context (Nat.le_refl _)) as Hall.
  destruct (hexColours context) as [|first [|second [|third more]]];
    cbn [primaryColor secondaryColor accentColor style].
  - repeat split; try reflexivity.
    unfold styleOf. repeat (destruct (_ || _); [cbn; tauto|]). cbn; tauto.
  - repeat split; try reflexivity.
    unfold styleOf. repeat (destruct (_ || _); [cbn; tauto|]). cbn; tauto.
  - inversion Hall as [|? ? H1 Hall1]; subst. inversion Hall1 as [|? ? H2 _]; subst.
    repeat split; try assumption; try reflexivity.
    unfold styleOf. repeat (destruct (_ || _); [cbn; tauto|]). cbn; tauto.
  - inversion Hall as [|? ? H1 Hall1]; subst. inversion Hall1 as [|? ? H2 Hall2]; subst.
    inversion Hall2 as [|? ? H3 _]; subst.
    repeat split; try assumption.
    unfold styleOf. repeat (destruct (_ || _); [cbn; tauto|]). cbn; tauto.
Qed.

End BlueprintContextFacts.

(** ** The statements above at concrete inputs *)


Lemma extract_pages_first_success_witness :
  ∃ w',
    Blueprint.extractPagesWithLLM Samples.threeKeys MoreSamples.lateModel
      Samples.strictParse "a bakery site" "context" [] initialWorld =
      (inr (JArr []), w') ∧
    requests w' = 2.
Proof.
  apply (extract_pages_first_success Samples.threeKeys MoreSamples.lateModel
           Samples.strictParse "a bakery site" "context" [] initialWorld 2
           [Some "No pages are needed: [] is the list."] (JArr [])).
  - unfold Blueprint.maxRetries. lia.
  - intros [|k] Hk; [reflexivity | lia].
  - reflexivity.
  - reflexivity.
Defined.

Lemma extract_pages_rotates_on_throw_only_witness :
  Blueprint.extractPagesWithLLM Samples.threeKeys MoreSamples.chattyModel
    Samples.strictParse "a bakery site" "context" [] initialWorld =
    (inr Blueprint.fallbackPages, set_requests 3 initialWorld) ∧
  ∃ w',
    Blueprint.extractPagesWithLLM Samples.threeKeys Samples.deadModel
      Samples.strictParse "a bakery site" "context" [] initialWorld =
      (inr Blueprint.fallbackPages, w') ∧
    blueprintKeyIndex w' = 0.
Proof.
  split.
  - apply (proj1 (extract_pages_rotates_on_throw_only Samples.threeKeys
                    MoreSamples.chattyModel Samples.strictParse
                    "a bakery site" "context" [] initialWorld)).
    intros k _. eexists. split; reflexivity.
  - apply (proj2 (extract_pages_rotates_on_throw_only Samples.threeKeys
                    Samples.deadModel Samples.strictParse
                    "a bakery site" "context" [] initialWorld)).
    intros k _. eexists. reflexivity.
Defined.

Lemma failed_analysis_reads_as_no_change_witness :
  ModificationService.modifyEndpoint MoreSamples.refusingLLM MoreSamples.noPlan
    MoreSamples.writing
    (Some "make the hero blue") (Some [MoreSamples.storedApp]) initialWorld =
    (inr (ModificationService.NoModificationsNeeded, None),
     set_requests 1 initialWorld).
Proof.
  apply (failed_analysis_reads_as_no_change MoreSamples.refusingLLM
           MoreSamples.noPlan MoreSamples.writing "m"%char "ake the hero blue"
           [MoreSamples.storedApp] initialWorld).
  left. eexists. reflexivity.
Defined.

Lemma migration_runs_once_witness :
  Migration.normalizeProject MoreSamples.importedProject =
    Migration.Normalized MoreSamples.normalizedProject ∧
  Migration.normalizeProject MoreSamples.normalizedProject =
    Migration.SkippedAlreadyNormalized ∧
  map Project.content MoreSamples.normalizedProject =
    map Project.content MoreSamples.importedProject ∧
  Forall (λ f, startsWith "/" (Project.path f) = true) MoreSamples.normalizedProject.
Proof.
  split; [reflexivity|].
  apply (migration_runs_once MoreSamples.importedProject MoreSamples.normalizedProject).
  reflexivity.
Defined.

Lemma import_drops_first_folder_witness :
  ZipImport.withoutRootFolder "src/pages/HomePage.tsx" = "pages/HomePage.tsx".
Proof.
  apply (import_drops_first_folder "src" "pages/HomePage.tsx"); reflexivity.
Defined.

Lemma imported_paths_are_clean_witness :
  ZipImport.importedPath false "my-site/src/App.TSX" = Some "/src/App.TSX" ∧
  startsWith "/" "/src/App.TSX" = true ∧
  includes (String ZipImport.backslash EmptyString) "/src/App.TSX" = false ∧
  false = false ∧
  startsWith "." (ZipImport.withoutRootFolder "my-site/src/App.TSX") = false ∧
  In (ZipImport.extensionOf (ZipImport.withoutRootFolder "my-site/src/App.TSX"))
     ZipImport.textExtensions.
Proof.
  split; [reflexivity|].
  apply (imported_paths_are_clean false "my-site/src/App.TSX" "/src/App.TSX").
  reflexivity.
Defined.

Lemma migration_restores_src_folder_witness :
  ZipImport.importedPath false "src/components/Hero.tsx" = Some "/components/Hero.tsx" ∧
  "/components/Hero.tsx" = String "/" "components/Hero.tsx" ∧
  Project.path
    (Migration.normalizeFile
       {| Project.path := "/components/Hero.tsx"; Project.content := "hero" |}) =
    "/src/" +:+ "components/Hero.tsx".
Proof.
  split; [reflexivity|].
  apply (migration_restores_src_folder "components/Hero.tsx" "/components/Hero.tsx"
           "hero"); reflexivity.
Defined.
